(** * Input counter store of the hotbar widgets (ags/widget/inputCountsState.ts)

    A shallow embedding of the module that counts clicks, key presses and
    scroll amounts from the lines of [libinput debug-events]: the loader
    ([toNumber], [normalizeKeyCounts], [normalizeState], [loadState]), the
    counters ([bumpClick], [bumpKey], [bumpScroll], [ensureToday]), the save
    debounce ([queueSave]) and the line handler given to [spawnInputStream].

    Conventions of the model.
    - A line, a key name and a date are byte strings: the UTF-8 of the
      text, well formed as [TextDecoder] and [JSON.parse] leave it.  The
      patterns of the source are ASCII; white space is the white space
      of the language, written in UTF-8.
    - A JS number is [NaN], an infinity or a finite binary64 value, held
      as the fraction it is.  A literal and a sum are rounded to the
      nearest binary64 value, ties to even, and to an infinity past the
      largest one; a number is printed with the fewest digits that read
      back as itself.  The zero with a minus sign is not told from zero:
      the module never divides and never prints a sign of zero.
    - An object used as a map ([keyCounts], a parsed JSON object) is the
      finite map of its own properties.  What [Object.prototype] adds is
      modelled where a stored document can reach it: [Number] and
      [String] throw on an object with an own [toString] property, and
      an assignment to the name [__proto__] stores nothing.  The key
      names the module builds itself all start with [KEY_], which no
      inherited property does.
    - The module-level variables ([state], [deviceTypes], [pressedByEvent],
      [saveSource]) and the file written by [saveState] are the fields of
      a record [World] that every operation takes and returns; the wall
      clock read by [todayKey] and [Date.now] is a record [Env] given to
      the operation. *)

From Stdlib Require Import ZArith QArith Qabs Qpower Lqa String Ascii List Lia.
From stdpp Require Import base gmap strings list fin_maps pretty.

Set Warnings "-register-all".
Local Open Scope Z_scope.

(** ** Characters and byte strings *)

Module Chars.

Definition code (c : ascii) : N := N_of_ascii c.

Definition between (lo hi : N) (c : ascii) : bool :=
  ((lo <=? code c) && (code c <=? hi))%N.

Definition is_digit : ascii -> bool := between 48 57.
Definition is_upper : ascii -> bool := between 65 90.
Definition is_lower : ascii -> bool := between 97 122.

(** White space and line terminators, the characters [\s] matches and
    [trim] removes.  Of one byte: tab, line feed, vertical tab, form
    feed, carriage return, space.  Of two bytes: U+00A0.  Of three
    bytes: U+1680, U+2000 to U+200A, U+2028, U+2029, U+202F, U+205F,
    U+3000 and U+FEFF. *)
Definition is_space (c : ascii) : bool :=
  between 9 13 c || (code c =? 32)%N.

Definition is_space2 (a b : ascii) : bool :=
  ((code a =? 194) && (code b =? 160))%N.

Definition is_space3 (a b c : ascii) : bool :=
  ((code a =? 225) && (code b =? 154) && (code c =? 128))%N
  || ((code a =? 226)%N && (code b =? 128)%N
      && (between 128 138 c || (code c =? 168) || (code c =? 169) || (code c =? 175))%N)
  || ((code a =? 226) && (code b =? 129) && (code c =? 159))%N
  || ((code a =? 227) && (code b =? 128) && (code c =? 128))%N
  || ((code a =? 239) && (code b =? 187) && (code c =? 191))%N.

(** [\w]: letters, digits and the underscore. *)
Definition is_word (c : ascii) : bool :=
  is_digit c || is_upper c || is_lower c || (code c =? 95)%N.

(** The class [[A-Z0-9_]] of the key-name patterns. *)
Definition is_keychar (c : ascii) : bool :=
  is_upper c || is_digit c || (code c =? 95)%N.

Definition lower (c : ascii) : ascii :=
  if is_upper c then ascii_of_N (code c + 32) else c.

Definition eqb_ci (a b : ascii) : bool := (code (lower a) =? code (lower b))%N.
Definition eqb_cs (a b : ascii) : bool := (code a =? code b)%N.

(** The double quote, and a way to write a text that has some: every
    apostrophe of [s] stands for a double quote. *)
Definition dq : ascii := "034"%char.

Definition quoted (s : string) : string :=
  string_of_list_ascii
    (map (fun c => if (code c =? 39)%N then dq else c) (list_ascii_of_string s)).

Definition chars (s : string) : list ascii := list_ascii_of_string s.
Definition str (l : list ascii) : string := string_of_list_ascii l.

(** [dropWhile] and [span] on characters. *)
Fixpoint skip (p : ascii -> bool) (l : list ascii) : list ascii :=
  match l with
  | c :: r => if p c then skip p r else l
  | [] => []
  end.

Fixpoint run (p : ascii -> bool) (l : list ascii) : list ascii :=
  match l with
  | c :: r => if p c then c :: run p r else []
  | [] => []
  end.

(** What is left of [l] after the characters at its head that one of
    the three tests accepts. *)
Fixpoint skip_chars (p1 : ascii -> bool) (p2 : ascii -> ascii -> bool)
  (p3 : ascii -> ascii -> ascii -> bool) (l : list ascii) : list ascii :=
  match l with
  | [] => []
  | a :: t =>
      if p1 a then skip_chars p1 p2 p3 t
      else
        match t with
        | b :: t2 =>
            if p2 a b then skip_chars p1 p2 p3 t2
            else
              match t2 with
              | c :: t3 => if p3 a b c then skip_chars p1 p2 p3 t3 else l
              | [] => l
              end
        | [] => l
        end
  end.

(** White space skipped at the head of a text, and at the head of a
    text read backwards. *)
Definition skip_space : list ascii -> list ascii :=
  skip_chars is_space is_space2 is_space3.

Definition skip_space_back : list ascii -> list ascii :=
  skip_chars is_space (fun a b => is_space2 b a) (fun a b c => is_space3 c b a).

(** [String.prototype.trim]. *)
Definition trim_chars (l : list ascii) : list ascii :=
  rev (skip_space_back (rev (skip_space l))).

Definition trim (s : string) : string := str (trim_chars (chars s)).

(** [after eq pat l]: [l] begins with [pat] (compared with [eq]); the
    result is what follows. *)
Fixpoint after (eq : ascii -> ascii -> bool) (pat l : list ascii)
  : option (list ascii) :=
  match pat, l with
  | [], _ => Some l
  | p :: pat', c :: l' => if eq p c then after eq pat' l' else None
  | _ :: _, [] => None
  end.

(** [String.prototype.startsWith]. *)
Definition startsWith (pat s : string) : bool :=
  match after eqb_cs (chars pat) (chars s) with Some _ => true | None => false end.

(** An unanchored search: the first position of [l] at which [m] matches.
    [m] is given the character before the position (for [\b]) and the
    text from the position on. *)
Fixpoint search_from {A} (m : option ascii -> list ascii -> option A)
  (prev : option ascii) (l : list ascii) : option A :=
  match m prev l with
  | Some r => Some r
  | None =>
      match l with
      | c :: r => search_from m (Some c) r
      | [] => None
      end
  end.

Definition search {A} (m : option ascii -> list ascii -> option A)
  (s : string) : option A :=
  search_from m None (chars s).

(** [/PAT/i.test(text)] for a literal pattern. *)
Definition test_ci (pat s : string) : bool :=
  match search (fun _ l => after eqb_ci (chars pat) l) s with
  | Some _ => true
  | None => false
  end.

(** [text.includes(pat)]. *)
Definition includes (pat s : string) : bool :=
  match search (fun _ l => after eqb_cs (chars pat) l) s with
  | Some _ => true
  | None => false
  end.

(** [String.prototype.toLowerCase], on the bytes of the text.  The
    letters A to Z become a to z.  Two characters outside ASCII become
    ASCII letters: the Kelvin sign U+212A (bytes 226 132 170) becomes k,
    and the capital I with a dot U+0130 (bytes 196 176) becomes i
    followed by the combining dot U+0307 (bytes 204 135).  Every other
    character outside ASCII becomes a character outside ASCII again; its
    bytes are left as they are, which no search for an ASCII word can
    tell. *)
Fixpoint lower_chars (l : list ascii) : list ascii :=
  match l with
  | [] => []
  | c :: t =>
      match t with
      | c2 :: t2 =>
          if (code c =? 196)%N && (code c2 =? 176)%N
          then "i"%char :: ascii_of_N 204 :: ascii_of_N 135 :: lower_chars t2
          else
            match t2 with
            | c3 :: t3 =>
                if (code c =? 226)%N && (code c2 =? 132)%N && (code c3 =? 170)%N
                then "k"%char :: lower_chars t3
                else lower c :: lower_chars t
            | [] => lower c :: lower_chars t
            end
      | [] => [lower c]
      end
  end.

Definition toLowerCase (s : string) : string := str (lower_chars (chars s)).

(** [\b] between the character before a position and the text at it. *)
Definition boundary (prev : option ascii) (l : list ascii) : bool :=
  let w o := match o with Some c => is_word c | None => false end in
  negb (Bool.eqb (w prev) (w (head l))).

(** The value of a run of decimal digits. *)
Definition digit_val (c : ascii) : Z := Z.of_N (code c) - 48.

Definition digits_val (l : list ascii) : Z :=
  fold_left (fun acc c => 10 * acc + digit_val c) l 0.

End Chars.

(** ** JS numbers *)

Module Num.
Import Chars.

Inductive number := NaN | PInf | NInf | Fin (q : Q).

Definition of_Z (z : Z) : number := Fin (inject_Z z).

Definition zero : number := of_Z 0.
Definition one : number := of_Z 1.

(** [Number.isFinite] on a number. *)
Definition isFinite (x : number) : bool :=
  match x with Fin _ => true | _ => false end.

(** *** Rounding to binary64 *)

(** [n / d] divided by [2^p], as a fraction. *)
Definition scaled (n d p : Z) : Z * Z :=
  if 0 <=? p then (n, d * 2 ^ p) else (n * 2 ^ (- p), d).

(** The integer part of the binary logarithm of [n / d], for [n] and [d]
    positive. *)
Definition ilog2 (n d : Z) : Z :=
  let e := Z.log2 n - Z.log2 d in
  let s := scaled n d e in
  if s.2 <=? s.1 then e else e - 1.

(** The integer nearest to [a / b], the even one of two that are as
    near. *)
Definition nearest_even (a b : Z) : Z :=
  let k := a / b in
  let r := 2 * (a mod b) in
  if r <? b then k else if b <? r then k + 1 else if Z.even k then k else k + 1.

(** [m * 2^p], in lowest terms. *)
Definition dyadic (m p : Z) : Q :=
  Qred (if 0 <=? p then inject_Z (m * 2 ^ p) else Qmake m (Z.to_pos (2 ^ (- p)))).

(** The binary64 value nearest to [q], ties to even: a significand of 53
    bits at the exponent of [q], of fewer bits below the least normal
    exponent (the unit is [2^-1074] at least); an infinity when the
    rounded magnitude reaches [2^1024]. *)
Definition round64 (q : Q) : number :=
  let n := Z.abs (Qnum q) in
  let d := Zpos (Qden q) in
  if n =? 0 then Fin 0
  else
    let p := Z.max (ilog2 n d - 52) (-1074) in
    let s := scaled n d p in
    let m := nearest_even s.1 s.2 in
    if (0 <=? p) && (2 ^ 1024 <=? m * 2 ^ p)
    then (if Qnum q <? 0 then NInf else PInf)
    else Fin (dyadic (if Qnum q <? 0 then - m else m) p).

(** [x + y]: the sum of two finite numbers is rounded; a sum with zero
    is the other term. *)
Definition add (x y : number) : number :=
  match x, y with
  | NaN, _ | _, NaN => NaN
  | PInf, NInf | NInf, PInf => NaN
  | PInf, _ | _, PInf => PInf
  | NInf, _ | _, NInf => NInf
  | Fin a, Fin b =>
      if Qeq_bool b 0 then x else if Qeq_bool a 0 then y else round64 (a + b)
  end.

(** [Math.abs]. *)
Definition abs (x : number) : number :=
  match x with
  | NaN => NaN
  | PInf | NInf => PInf
  | Fin a => Fin (Qabs a)
  end.

(** [x < y]; false as soon as one side is [NaN]. *)
Definition ltb (x y : number) : bool :=
  match x, y with
  | NaN, _ | _, NaN => false
  | _, NInf => false
  | NInf, _ => true
  | PInf, _ => false
  | Fin _, PInf => true
  | Fin a, Fin b => negb (Qle_bool b a)
  end.

(** [x > y] and [x >= y]. *)
Definition gtb (x y : number) : bool := ltb y x.

Definition geb (x y : number) : bool :=
  match x, y with
  | NaN, _ | _, NaN => false
  | _, _ => negb (ltb x y)
  end.

(** [x === y] on numbers. *)
Definition eqb (x y : number) : bool :=
  match x, y with
  | PInf, PInf | NInf, NInf => true
  | Fin a, Fin b => Qeq_bool a b
  | _, _ => false
  end.

(** The same as a proposition. *)
Definition eq (x y : number) : Prop :=
  match x, y with
  | PInf, PInf | NInf, NInf => True
  | Fin a, Fin b => (a == b)%Q
  | _, _ => False
  end.

(** ToBoolean: a number is falsy when it is [NaN] or zero. *)
Definition truthy (x : number) : bool :=
  match x with
  | NaN => false
  | PInf | NInf => true
  | Fin a => negb (Qeq_bool a 0)
  end.

(** The number a decimal literal denotes: [mant * 10^exp10], negated when
    [neg], rounded. *)
Definition of_decimal (neg : bool) (mant exp10 : Z) : number :=
  let q := if 0 <=? exp10 then inject_Z (mant * 10 ^ exp10)
           else (mant # Z.to_pos (10 ^ (- exp10)))%Q in
  round64 (if neg then - q else q).

(** An optional exponent part [[eE][+-]?digits]; [None] when an [e] is
    not followed by an exponent. *)
Definition exponent (l : list ascii) : option (Z * list ascii) :=
  match l with
  | c :: r =>
      if eqb_ci c "e" then
        let '(neg, r') :=
          match r with
          | "-"%char :: r' => (true, r')
          | "+"%char :: r' => (false, r')
          | _ => (false, r)
          end in
        match run is_digit r' with
        | [] => None
        | ds => Some (if neg then - digits_val ds else digits_val ds,
                      skip is_digit r')
        end
      else Some (0, l)
  | [] => Some (0, l)
  end.

(** StrUnsignedDecimalLiteral without [Infinity]: [digits], [digits.],
    [digits.digits], [.digits], each with an optional exponent, and
    nothing after it. *)
Definition unsigned_decimal (neg : bool) (l : list ascii) : option number :=
  let ip := run is_digit l in
  let r1 := skip is_digit l in
  let '(fp, r2) :=
    match r1 with
    | "."%char :: r => (run is_digit r, skip is_digit r)
    | _ => ([], r1)
    end in
  match ip ++ fp with
  | [] => None
  | ds =>
      match exponent r2 with
      | Some (e, []) => Some (of_decimal neg (digits_val ds) (e - Z.of_nat (length fp)))
      | _ => None
      end
  end.

(** Digits in base 2, 8 or 16. *)
Definition radix_digit (base : Z) (c : ascii) : option Z :=
  let d :=
    if is_digit c then digit_val c
    else if between 97 102 (lower c) then Z.of_N (code (lower c)) - 87
    else 99 in
  if d <? base then Some d else None.

Fixpoint radix_val (base : Z) (acc : Z) (l : list ascii) : option Z :=
  match l with
  | [] => Some acc
  | c :: r =>
      match radix_digit base c with
      | Some d => radix_val base (base * acc + d) r
      | None => None
      end
  end.

Definition radix_literal (l : list ascii) : option number :=
  match l with
  | "0"%char :: c :: ((_ :: _) as ds) =>
      let base :=
        if eqb_ci c "x" then 16 else if eqb_ci c "o" then 8
        else if eqb_ci c "b" then 2 else 0 in
      if base =? 0 then None
      else match radix_val base 0 ds with
           | Some v => Some (of_decimal false v 0)
           | None => None
           end
  | _ => None
  end.

(** StringToNumber: [Number(s)] for a string [s]. *)
Definition of_string (s : string) : number :=
  let l := trim_chars (chars s) in
  match l with
  | [] => zero
  | c :: r =>
      let '(neg, body) :=
        if eqb_cs c "-" then (true, r)
        else if eqb_cs c "+" then (false, r) else (false, l) in
      if String.eqb (str body) "Infinity" then (if neg then NInf else PInf)
      else
        match unsigned_decimal neg body with
        | Some x => x
        | None =>
            match radix_literal l with
            | Some x => x
            | None => NaN
            end
        end
  end.

(** *** Number::toString *)

(** [s * 10^j] as a fraction. *)
Definition decimal (s j : Z) : Q :=
  if 0 <=? j then inject_Z (s * 10 ^ j) else Qmake s (Z.to_pos (10 ^ (- j))).

(** The least [n] from [g] on with [v < 10^n]. *)
Fixpoint magnitude (fuel : nat) (v : Q) (g : Z) : Z :=
  match fuel with
  | O => g
  | S f => if Qle_bool (decimal 1 g) v then magnitude f v (g + 1) else g
  end.

(** The digits of a positive [v], with [10^(n-1) <= v < 10^n]: the
    integer [s] of [k] digits, [k] as small as possible, such that
    [s * 10^(n-k)] rounds to the binary64 value of [v]; of two such [s]
    the nearer to [v], the even one when they are as near.  Seventeen
    digits are always enough. *)
Fixpoint shortest (fuel : nat) (v : Q) (n k : Z) : Z * Z :=
  let '(a, b) :=
    if 0 <=? n - k then (Qnum v, Zpos (Qden v) * 10 ^ (n - k))
    else (Qnum v * 10 ^ (k - n), Zpos (Qden v)) in
  let lo := a / b in
  let hi := lo + 1 in
  let ok s := eqb (round64 (decimal s (n - k))) (round64 v) in
  let r := 2 * (a mod b) in
  match fuel with
  | O => (lo, k)
  | S f =>
      if ok lo && ok hi then
        (if r <? b then lo else if b <? r then hi else if Z.even lo then lo else hi, k)
      else if ok lo then (lo, k)
      else if ok hi then (hi, k)
      else shortest f v n (k + 1)
  end.

(** Zeros at the end of [s] moved to the exponent. *)
Fixpoint strip10 (fuel : nat) (s z : Z) : Z * Z :=
  match fuel with
  | O => (s, z)
  | S f => if s mod 10 =? 0 then strip10 f (s / 10) (z + 1) else (s, z)
  end.

Definition zeros (n : Z) : string := str (repeat "0"%char (Z.to_nat n)).

(** The four layouts of the language for the digits [ds] of a number
    between [10^(n-1)] and [10^n]. *)
Definition layout (ds : string) (n : Z) : string :=
  let k := Z.of_nat (String.length ds) in
  if (k <=? n) && (n <=? 21) then ds +:+ zeros (n - k)
  else if (0 <? n) && (n <=? 21) then
    str (take (Z.to_nat n) (chars ds)) +:+ "." +:+ str (drop (Z.to_nat n) (chars ds))
  else if (-6 <? n) && (n <=? 0) then "0." +:+ zeros (- n) +:+ ds
  else
    let e := n - 1 in
    let mant :=
      if k =? 1 then ds
      else str (take 1 (chars ds)) +:+ "." +:+ str (drop 1 (chars ds)) in
    mant +:+ "e" +:+ (if e <? 0 then "-" else "+") +:+ pretty (Z.abs e).

Definition to_string (x : number) : string :=
  match x with
  | NaN => "NaN"
  | PInf => "Infinity"
  | NInf => "-Infinity"
  | Fin q =>
      let v := Qabs q in
      if Qnum q =? 0 then "0"
      else
        let g := (ilog2 (Qnum v) (Zpos (Qden v)) * 1233) / 4096 - 1 in
        let n := magnitude 4 v g in
        let '(s0, k) := shortest 17 v n 1 in
        let '(s, z) := strip10 18 s0 0 in
        let ds := pretty s in
        (if Qnum q <? 0 then "-" else "") +:+
        layout ds (Z.of_nat (String.length ds) + z + n - k)
  end.

End Num.

(** ** JS values and [JSON.parse] *)

Module Json.
Import Chars Num.

Inductive value :=
| VUndefined
| VNull
| VBool (b : bool)
| VNum (n : number)
| VStr (s : string)
| VArr (l : list value)
| VObj (m : gmap string value).

(** ToBoolean. *)
Definition truthy (v : value) : bool :=
  match v with
  | VUndefined | VNull => false
  | VBool b => b
  | VNum n => Num.truthy n
  | VStr s => negb (String.eqb s "")
  | VArr _ | VObj _ => true
  end.

(** [typeof v === "object"]. *)
Definition is_object (v : value) : bool :=
  match v with
  | VNull | VArr _ | VObj _ => true
  | _ => false
  end.

(** A property read [v.k] for the names the module reads ([date], [left],
    [type], ...): the own property of an object, [undefined] on anything
    else the guards of the module let through. *)
Definition get (v : value) (k : string) : value :=
  match v with
  | VObj m => default VUndefined (m !! k)
  | _ => VUndefined
  end.

Definition join (sep : string) (l : list string) : string :=
  match l with
  | [] => ""
  | x :: r => fold_left (fun acc y => acc +:+ sep +:+ y) r x
  end.

(** [String(v)], as a template literal computes it; [None] when it
    throws.  An object is printed by the [toString] it has: the one of
    [Object.prototype], unless the object has a property of that name
    of its own, which in a parsed document is no function, and then
    there is nothing to call (a TypeError).  An array joins the strings
    of its elements, [null] and [undefined] being empty. *)
Fixpoint String_ (v : value) : option string :=
  match v with
  | VUndefined => Some "undefined"
  | VNull => Some "null"
  | VBool b => Some (if b then "true" else "false")
  | VNum n => Some (to_string n)
  | VStr s => Some s
  | VArr l =>
      let fix items (l : list value) : option (list string) :=
        match l with
        | [] => Some []
        | x :: r =>
            match match x with
                  | VUndefined | VNull => Some ""
                  | _ => String_ x
                  end, items r with
            | Some s, Some ss => Some (s :: ss)
            | _, _ => None
            end
        end in
      match items l with
      | Some ss => Some (join "," ss)
      | None => None
      end
  | VObj m =>
      match m !! "toString" with
      | Some _ => None
      | None => Some "[object Object]"
      end
  end.

(** [Number(v)]; [None] when it throws.  An array and an object go
    through their string. *)
Definition Number_ (v : value) : option number :=
  match v with
  | VUndefined => Some NaN
  | VNull => Some zero
  | VBool b => Some (if b then one else zero)
  | VNum n => Some n
  | VStr s => Some (of_string s)
  | VArr _ | VObj _ =>
      match String_ v with
      | Some s => Some (of_string s)
      | None => None
      end
  end.

(** [Object.entries(v)] for an object or an array, the values the module
    gives it: the own properties of an object (in no specified order), the
    indices of an array in decimal.  Nothing for any other value. *)
Definition entries (v : value) : list (string * value) :=
  match v with
  | VObj m => map_to_list m
  | VArr l => zip (fmap pretty (seq 0 (length l))) l
  | _ => []
  end.

(** *** The JSON grammar *)

(** JSON white space: space, tab, line feed, carriage return. *)
Definition is_jws (c : ascii) : bool :=
  (code c =? 32)%N || (code c =? 9)%N || (code c =? 10)%N || (code c =? 13)%N.

Definition hex4 (a b c d : ascii) : option Z :=
  match radix_digit 16 a, radix_digit 16 b, radix_digit 16 c, radix_digit 16 d with
  | Some x, Some y, Some z, Some w => Some (((x * 16 + y) * 16 + z) * 16 + w)
  | _, _, _, _ => None
  end.

Definition byte (z : Z) : ascii := ascii_of_N (Z.to_N z).

(** The bytes (UTF-8) of the code unit of a [\u] escape. *)
Definition utf8 (cp : Z) : list ascii :=
  if cp <? 128 then [byte cp]
  else if cp <? 2048 then [byte (192 + cp / 64); byte (128 + cp mod 64)]
  else [byte (224 + cp / 4096); byte (128 + (cp / 64) mod 64); byte (128 + cp mod 64)].

(** The characters of a string literal after its opening quote; [acc] is
    what was read, last character first. *)
Fixpoint string_body (l : list ascii) (acc : list ascii)
  : option (string * list ascii) :=
  match l with
  | [] => None
  | c :: r =>
      if eqb_cs c dq then Some (str (rev acc), r)
      else if eqb_cs c "\" then
        match r with
        | e :: r' =>
            if eqb_cs e "u" then
              match r' with
              | a :: b :: c' :: d :: r'' =>
                  match hex4 a b c' d with
                  | Some cp => string_body r'' (rev_append (utf8 cp) acc)
                  | None => None
                  end
              | _ => None
              end
            else
              let plain x := string_body r' (x :: acc) in
              if eqb_cs e dq || eqb_cs e "\" || eqb_cs e "/" then plain e
              else if eqb_cs e "b" then plain (byte 8)
              else if eqb_cs e "f" then plain (byte 12)
              else if eqb_cs e "n" then plain (byte 10)
              else if eqb_cs e "r" then plain (byte 13)
              else if eqb_cs e "t" then plain (byte 9)
              else None
        | [] => None
        end
      else if (code c <? 32)%N then None
      else string_body r (c :: acc)
  end.

(** A number literal: an optional minus, an integer part with no leading
    zero, an optional fraction of one digit at least, an optional
    exponent. *)
Definition number_literal (l : list ascii) : option (number * list ascii) :=
  let '(neg, l1) :=
    match l with
    | c :: r => if eqb_cs c "-" then (true, r) else (false, l)
    | [] => (false, l)
    end in
  let ip := run is_digit l1 in
  let r1 := skip is_digit l1 in
  let leading_zero :=
    match ip with
    | z :: _ :: _ => eqb_cs z "0"
    | _ => false
    end in
  let frac :=
    match r1 with
    | c :: r =>
        if eqb_cs c "." then
          match run is_digit r with
          | [] => None
          | fp => Some (fp, skip is_digit r)
          end
        else Some ([], r1)
    | [] => Some ([], r1)
    end in
  match ip, leading_zero, frac with
  | _ :: _, false, Some (fp, r2) =>
      match exponent r2 with
      | Some (e, r3) =>
          Some (of_decimal neg (digits_val (ip ++ fp)) (e - Z.of_nat (length fp)), r3)
      | None => None
      end
  | _, _, _ => None
  end.

(** Recursive descent; [fuel] bounds the number of nested calls: a call
    and the next one but one are a character apart at least, so twice
    the length of the text is enough. *)
Fixpoint parse_value (fuel : nat) (l : list ascii) : option (value * list ascii) :=
  match fuel with
  | O => None
  | S f =>
      match skip is_jws l with
      | [] => None
      | c :: r =>
          if eqb_cs c "{" then
            match skip is_jws r with
            | c' :: r' =>
                if eqb_cs c' "}" then Some (VObj ∅, r')
                else parse_members f (c' :: r') ∅
            | [] => None
            end
          else if eqb_cs c "[" then
            match skip is_jws r with
            | c' :: r' =>
                if eqb_cs c' "]" then Some (VArr [], r')
                else parse_elements f (c' :: r') []
            | [] => None
            end
          else if eqb_cs c dq then
            match string_body r [] with
            | Some (s, r') => Some (VStr s, r')
            | None => None
            end
          else if is_digit c || eqb_cs c "-" then
            match number_literal (c :: r) with
            | Some (n, r') => Some (VNum n, r')
            | None => None
            end
          else
            match after eqb_cs (chars "true") (c :: r),
                  after eqb_cs (chars "false") (c :: r),
                  after eqb_cs (chars "null") (c :: r) with
            | Some r', _, _ => Some (VBool true, r')
            | _, Some r', _ => Some (VBool false, r')
            | _, _, Some r' => Some (VNull, r')
            | _, _, _ => None
            end
      end
  end
with parse_members (fuel : nat) (l : list ascii) (acc : gmap string value)
  : option (value * list ascii) :=
  match fuel with
  | O => None
  | S f =>
      match skip is_jws l with
      | q :: r =>
          if eqb_cs q dq then
            match string_body r [] with
            | Some (k, r1) =>
                match skip is_jws r1 with
                | c :: r2 =>
                    if eqb_cs c ":" then
                      match parse_value f r2 with
                      | Some (v, r3) =>
                          match skip is_jws r3 with
                          | d :: r4 =>
                              if eqb_cs d "," then parse_members f r4 (<[k:=v]> acc)
                              else if eqb_cs d "}" then Some (VObj (<[k:=v]> acc), r4)
                              else None
                          | [] => None
                          end
                      | None => None
                      end
                    else None
                | [] => None
                end
            | None => None
            end
          else None
      | [] => None
      end
  end
with parse_elements (fuel : nat) (l : list ascii) (acc : list value)
  : option (value * list ascii) :=
  match fuel with
  | O => None
  | S f =>
      match parse_value f l with
      | Some (v, r) =>
          match skip is_jws r with
          | d :: r' =>
              if eqb_cs d "," then parse_elements f r' (acc ++ [v])
              else if eqb_cs d "]" then Some (VArr (acc ++ [v]), r')
              else None
          | [] => None
          end
      | None => None
      end
  end.

(** [JSON.parse(text)]; [None] when it throws. *)
Definition JSON_parse (text : string) : option value :=
  match parse_value (2 + 2 * String.length text) (chars text) with
  | Some (v, r) =>
      match skip is_jws r with
      | [] => Some v
      | _ :: _ => None
      end
  | None => None
  end.

End Json.

(** ** The counter record and the module state *)

Module Store.
Import Chars Num Json.

Record InputState := mkInputState {
  date : string;
  startedAt : number;
  left : number;
  right : number;
  keys : number;
  leftMouse : number;
  rightMouse : number;
  leftPad : number;
  rightPad : number;
  scrollUp : number;
  scrollDown : number;
  scrollLeft : number;
  scrollRight : number;
  keyCounts : gmap string number;
}.

Inductive DeviceType := Mouse | Touchpad | Keyboard | Unknown.

(** The two arguments of [bumpClick]. *)
Inductive Side := Left | Right.
Inductive Source := FromMouse | FromTouchpad.

Record PressedState := mkPressed { pressed_left : bool; pressed_right : bool }.

Definition SAVE_DELAY_MS : Z := 2000.
Definition DAY_CHECK_MS : Z := 60000.

(** What the wall clock says when an operation runs: [Date.now()] in
    milliseconds and the local day [todayKey()] formats. *)
Record Env := mkEnv { now : Z; today : string }.

Definition todayKey (e : Env) : string := today e.

Definition defaultState (e : Env) : InputState :=
  {| date := todayKey e;
     startedAt := of_Z (now e);
     left := zero;
     right := zero;
     keys := zero;
     leftMouse := zero;
     rightMouse := zero;
     leftPad := zero;
     rightPad := zero;
     scrollUp := zero;
     scrollDown := zero;
     scrollLeft := zero;
     scrollRight := zero;
     keyCounts := ∅ |}.

(** Assignments to one field of a copy of the record. *)
Definition with_date (v : string) (s : InputState) : InputState :=
  mkInputState v (startedAt s) (left s) (right s) (keys s) (leftMouse s)
    (rightMouse s) (leftPad s) (rightPad s) (scrollUp s) (scrollDown s)
    (scrollLeft s) (scrollRight s) (keyCounts s).
Definition with_left (v : number) (s : InputState) : InputState :=
  mkInputState (date s) (startedAt s) v (right s) (keys s) (leftMouse s)
    (rightMouse s) (leftPad s) (rightPad s) (scrollUp s) (scrollDown s)
    (scrollLeft s) (scrollRight s) (keyCounts s).
Definition with_right (v : number) (s : InputState) : InputState :=
  mkInputState (date s) (startedAt s) (left s) v (keys s) (leftMouse s)
    (rightMouse s) (leftPad s) (rightPad s) (scrollUp s) (scrollDown s)
    (scrollLeft s) (scrollRight s) (keyCounts s).
Definition with_keys (v : number) (kc : gmap string number) (s : InputState)
  : InputState :=
  mkInputState (date s) (startedAt s) (left s) (right s) v (leftMouse s)
    (rightMouse s) (leftPad s) (rightPad s) (scrollUp s) (scrollDown s)
    (scrollLeft s) (scrollRight s) kc.
Definition with_leftMouse (v : number) (s : InputState) : InputState :=
  mkInputState (date s) (startedAt s) (left s) (right s) (keys s) v
    (rightMouse s) (leftPad s) (rightPad s) (scrollUp s) (scrollDown s)
    (scrollLeft s) (scrollRight s) (keyCounts s).
Definition with_rightMouse (v : number) (s : InputState) : InputState :=
  mkInputState (date s) (startedAt s) (left s) (right s) (keys s) (leftMouse s)
    v (leftPad s) (rightPad s) (scrollUp s) (scrollDown s)
    (scrollLeft s) (scrollRight s) (keyCounts s).
Definition with_leftPad (v : number) (s : InputState) : InputState :=
  mkInputState (date s) (startedAt s) (left s) (right s) (keys s) (leftMouse s)
    (rightMouse s) v (rightPad s) (scrollUp s) (scrollDown s)
    (scrollLeft s) (scrollRight s) (keyCounts s).
Definition with_rightPad (v : number) (s : InputState) : InputState :=
  mkInputState (date s) (startedAt s) (left s) (right s) (keys s) (leftMouse s)
    (rightMouse s) (leftPad s) v (scrollUp s) (scrollDown s)
    (scrollLeft s) (scrollRight s) (keyCounts s).
Definition with_scrollUp (v : number) (s : InputState) : InputState :=
  mkInputState (date s) (startedAt s) (left s) (right s) (keys s) (leftMouse s)
    (rightMouse s) (leftPad s) (rightPad s) v (scrollDown s)
    (scrollLeft s) (scrollRight s) (keyCounts s).
Definition with_scrollDown (v : number) (s : InputState) : InputState :=
  mkInputState (date s) (startedAt s) (left s) (right s) (keys s) (leftMouse s)
    (rightMouse s) (leftPad s) (rightPad s) (scrollUp s) v
    (scrollLeft s) (scrollRight s) (keyCounts s).
Definition with_scrollLeft (v : number) (s : InputState) : InputState :=
  mkInputState (date s) (startedAt s) (left s) (right s) (keys s) (leftMouse s)
    (rightMouse s) (leftPad s) (rightPad s) (scrollUp s) (scrollDown s)
    v (scrollRight s) (keyCounts s).
Definition with_scrollRight (v : number) (s : InputState) : InputState :=
  mkInputState (date s) (startedAt s) (left s) (right s) (keys s) (leftMouse s)
    (rightMouse s) (leftPad s) (rightPad s) (scrollUp s) (scrollDown s)
    (scrollLeft s) v (keyCounts s).

(** *** Loading *)

(** [None] when [Number(value)] throws. *)
Definition toNumber (v : value) : option number :=
  n ← Number_ v; Some (if isFinite n then n else zero).

(** [out[key] = num] on a plain object: a write to the name [__proto__]
    goes to the setter of [Object.prototype], which does nothing with a
    number; any other name becomes a property of [out]. *)
Definition assign (key : string) (num : number) (out : gmap string number)
  : gmap string number :=
  if String.eqb key "__proto__" then out else <[key := num]> out.

(** The body of the loop of [normalizeKeyCounts]. *)
Definition keep_positive (out : gmap string number) (entry : string * value)
  : option (gmap string number) :=
  num ← toNumber entry.2;
  Some (if gtb num zero then assign entry.1 num out else out).

Definition normalizeKeyCounts (v : value) : option (gmap string number) :=
  if negb (truthy v) || negb (is_object v) then Some ∅
  else fold_left (fun acc entry => out ← acc; keep_positive out entry)
         (entries v) (Some ∅).

(** [v === s] for a string [s], and the string a value is when it is one. *)
Definition is_string (v : value) (s : string) : bool :=
  match v with
  | VStr s' => String.eqb s' s
  | _ => false
  end.

Definition string_of (v : value) : string :=
  match v with
  | VStr s => s
  | _ => ""
  end.

(** [None] when one of the conversions throws. *)
Definition normalizeState (e : Env) (raw : value) : option InputState :=
  let base := defaultState e in
  if negb (truthy raw) then Some base
  else if negb (truthy (get raw "date"))
          || negb (is_string (get raw "date") (todayKey e)) then Some base
  else
    let startedAt' :=
      match get raw "startedAt" with
      | VNum n => if gtb n zero then n else startedAt base
      | _ => startedAt base
      end in
    left' ← toNumber (get raw "left");
    right' ← toNumber (get raw "right");
    keys' ← toNumber (get raw "keys");
    leftMouse' ← toNumber (get raw "leftMouse");
    rightMouse' ← toNumber (get raw "rightMouse");
    leftPad' ← toNumber (get raw "leftPad");
    rightPad' ← toNumber (get raw "rightPad");
    scrollUp' ← toNumber (get raw "scrollUp");
    scrollDown' ← toNumber (get raw "scrollDown");
    scrollLeft' ← toNumber (get raw "scrollLeft");
    scrollRight' ← toNumber (get raw "scrollRight");
    keyCounts' ← normalizeKeyCounts (get raw "keyCounts");
    Some {| date := string_of (get raw "date");
            startedAt := startedAt';
            left := left';
            right := right';
            keys := keys';
            leftMouse := leftMouse';
            rightMouse := rightMouse';
            leftPad := leftPad';
            rightPad := rightPad';
            scrollUp := scrollUp';
            scrollDown := scrollDown';
            scrollLeft := scrollLeft';
            scrollRight := scrollRight';
            keyCounts := keyCounts' |}.

(** What [GLib.file_get_contents(STATE_PATH)] gives: it throws or reports
    a failure, or it returns the bytes of the file. *)
Inductive FileRead := ReadFails | ReadOk (contents : string).

(** [new TextDecoder().decode(contents)]: a byte order mark at the head
    of the bytes is dropped. *)
Definition decode (contents : string) : string :=
  match after eqb_cs [ascii_of_N 239; ascii_of_N 187; ascii_of_N 191] (chars contents) with
  | Some r => str r
  | None => contents
  end.

(** The [catch] covers the read, [JSON.parse] and [normalizeState]. *)
Definition loadState (e : Env) (file : FileRead) : InputState :=
  match file with
  | ReadFails => defaultState e
  | ReadOk contents =>
      match JSON_parse (decode contents) with
      | Some parsed => default (defaultState e) (normalizeState e parsed)
      | None => defaultState e
      end
  end.

(** *** The module state *)

(** [saveSource] holds the time at which the armed timeout is due, [None]
    for [null].  [saved] lists the records given to [saveState], oldest
    first; what [JSON.stringify] makes of a record is not modelled (it
    prints an infinite amount as [null]). *)
Record World := mkWorld {
  state : InputState;
  deviceTypes : gmap string DeviceType;
  pressedByEvent : gmap string PressedState;
  saveSource : option Z;
  saved : list InputState;
}.

(** The module as it stands once its top level has run. *)
Definition init (e : Env) (file : FileRead) : World :=
  {| state := loadState e file;
     deviceTypes := ∅;
     pressedByEvent := ∅;
     saveSource := None;
     saved := [] |}.

Definition setState (f : InputState -> InputState) (w : World) : World :=
  mkWorld (f (state w)) (deviceTypes w) (pressedByEvent w) (saveSource w) (saved w).

Definition saveState (s : InputState) (w : World) : World :=
  mkWorld (state w) (deviceTypes w) (pressedByEvent w) (saveSource w) (saved w ++ [s]).

Definition set_saveSource (t : option Z) (w : World) : World :=
  mkWorld (state w) (deviceTypes w) (pressedByEvent w) t (saved w).

Definition queueSave (e : Env) (w : World) : World :=
  match saveSource w with
  | Some _ => w
  | None => set_saveSource (Some (now e + SAVE_DELAY_MS)) w
  end.

(** The callback [queueSave] gives to [GLib.timeout_add]. *)
Definition saveTimeout (w : World) : World :=
  let w' := set_saveSource None w in
  saveState (state w') w'.

(** *** The counters *)

Definition click_next (side : Side) (source : Source) (prev : InputState)
  : InputState :=
  let mouse1 := match source with FromMouse => one | FromTouchpad => zero end in
  let pad1 := match source with FromTouchpad => one | FromMouse => zero end in
  match side with
  | Left =>
      with_leftPad (add (leftPad prev) pad1)
        (with_leftMouse (add (leftMouse prev) mouse1)
           (with_left (add (left prev) one) prev))
  | Right =>
      with_rightPad (add (rightPad prev) pad1)
        (with_rightMouse (add (rightMouse prev) mouse1)
           (with_right (add (right prev) one) prev))
  end.

Definition bumpClick (e : Env) (side : Side) (source : Source) (w : World) : World :=
  queueSave e (setState (click_next side source) w).

(** [keyName] is a name the handler builds, [KEY_] and more: the read
    [keyCounts[keyName]] finds the own property or nothing. *)
Definition key_next (keyName : string) (prev : InputState) : InputState :=
  let keyCounts' :=
    <[keyName := add (default zero (keyCounts prev !! keyName)) one]> (keyCounts prev) in
  with_keys (add (keys prev) one) keyCounts' prev.

Definition bumpKey (e : Env) (keyName : string) (w : World) : World :=
  queueSave e (setState (key_next keyName) w).

(** A [number | null] argument that is neither [null] nor falsy. *)
Definition nonzero (x : option number) : bool :=
  match x with
  | Some n => Num.truthy n
  | None => false
  end.

Definition scroll_next (vertical horizontal : option number) (prev : InputState)
  : InputState :=
  let next := prev in
  let next :=
    match vertical with
    | Some v =>
        if Num.truthy v && isFinite v then
          if gtb v zero then with_scrollUp (add (scrollUp prev) v) next
          else with_scrollDown (add (scrollDown prev) (abs v)) next
        else next
    | None => next
    end in
  match horizontal with
  | Some h =>
      if Num.truthy h && isFinite h then
        if gtb h zero then with_scrollRight (add (scrollRight prev) h) next
        else with_scrollLeft (add (scrollLeft prev) (abs h)) next
      else next
  | None => next
  end.

Definition bumpScroll (e : Env) (vertical horizontal : option number) (w : World)
  : World :=
  if negb (nonzero vertical) && negb (nonzero horizontal) then w
  else queueSave e (setState (scroll_next vertical horizontal) w).

Definition ensureToday (e : Env) (w : World) : World :=
  let today := todayKey e in
  if String.eqb (date (state w)) today then w
  else
    let next := with_date today (defaultState e) in
    setState (fun _ => next) (saveState next w).

End Store.

(** ** The line handler *)

Module Handler.
Import Chars Num Json Store.

Definition classifyDevice (text : string) : DeviceType :=
  let lower := toLowerCase text in
  if includes "touchpad" lower || includes "trackpad" lower then Touchpad
  else if includes "keyboard" lower then Keyboard
  else if includes "mouse" lower || includes "trackball" lower
          || includes "trackpoint" lower then Mouse
  else Unknown.

(** One or more white space characters, then the rest. *)
Definition spaces1 (l : list ascii) : option (list ascii) :=
  let r := skip_space l in
  if (length r <? length l)%nat then Some r else None.

(** The pattern of [parseAxis] at one position: the token, white space,
    an optional minus, digits, and a fraction when a dot and a digit
    follow.  The result is the text of the group. *)
Definition axis_at (token : string) (l : list ascii) : option string :=
  match after eqb_ci (chars token) l with
  | Some r =>
      match spaces1 r with
      | Some r1 =>
          let '(sign, r2) :=
            match r1 with
            | c :: r' => if eqb_cs c "-" then ([c], r') else ([], r1)
            | [] => ([], r1)
            end in
          match run is_digit r2 with
          | [] => None
          | ip =>
              let fp :=
                match skip is_digit r2 with
                | c :: r3 =>
                    if eqb_cs c "." then
                      match run is_digit r3 with
                      | [] => []
                      | ds => c :: ds
                      end
                    else []
                | [] => []
                end in
              Some (str (sign ++ ip ++ fp))
          end
      | None => None
      end
  | None => None
  end.

Definition parseAxis (text token : string) : option number :=
  match search (fun _ l => axis_at token l) text with
  | None => None
  | Some m =>
      let value := of_string m in
      if isFinite value then Some value else None
  end.

(** [a ?? b]. *)
Definition orElse {A} (a b : option A) : option A :=
  match a with
  | Some x => Some x
  | None => b
  end.

(** [/^event(\d+)/i]: the digits after a leading [event]. *)
Definition eventMatch (text : string) : option string :=
  match after eqb_ci (chars "event") (chars text) with
  | Some r =>
      match run is_digit r with
      | [] => None
      | ds => Some (str ds)
      end
  | None => None
  end.

(** [/button\s+(\d+)/i]: the digits of the first match. *)
Definition buttonMatch (text : string) : option string :=
  search (fun _ l =>
            match after eqb_ci (chars "button") l with
            | Some r =>
                match spaces1 r with
                | Some r1 =>
                    match run is_digit r1 with
                    | [] => None
                    | ds => Some (str ds)
                    end
                | None => None
                end
            | None => None
            end) text.

(** [/finger\s+N/i.test(text)] for a digit [N]. *)
Definition fingerTest (n : ascii) (text : string) : bool :=
  match search (fun _ l =>
                  match after eqb_ci (chars "finger") l with
                  | Some r =>
                      match spaces1 r with
                      | Some (c :: _) => if eqb_cs c n then Some tt else None
                      | _ => None
                      end
                  | None => None
                  end) text with
  | Some _ => true
  | None => false
  end.

(** [/(\d+)\s*$/]: the run of digits the text ends with, white space
    aside. *)
Definition trailingDigits (text : string) : option string :=
  search (fun _ l =>
            match run is_digit l with
            | [] => None
            | ds =>
                match skip_space (skip is_digit l) with
                | [] => Some (str ds)
                | _ :: _ => None
                end
            end) text.

(** [KEY_] and one or more of [[A-Z0-9_]]: the name and what follows. *)
Definition key_token (l : list ascii) : option (string * list ascii) :=
  match after eqb_cs (chars "KEY_") l with
  | Some r =>
      match run is_keychar r with
      | [] => None
      | ks => Some (str (chars "KEY_" ++ ks), skip is_keychar r)
      end
  | None => None
  end.

(** [/\((KEY_[A-Z0-9_]+)\)/]: group 1 of the first match. *)
Definition parenMatch (text : string) : option string :=
  search (fun _ l =>
            match l with
            | c :: r =>
                if eqb_cs c "(" then
                  match key_token r with
                  | Some (name, d :: _) => if eqb_cs d ")" then Some name else None
                  | _ => None
                  end
                else None
            | [] => None
            end) text.

(** [/\bKEY_[A-Z0-9_]+\b/]: the first match. *)
Definition directMatch (text : string) : option string :=
  search (fun prev l =>
            match key_token l with
            | Some (name, r) =>
                if boundary prev l && negb (match r with
                                            | c :: _ => is_word c
                                            | [] => false
                                            end)
                then Some name else None
            | None => None
            end) text.

(** [/\bkey\s+(\d+)\b/i]: group 1 of the first match. *)
Definition codeMatch (text : string) : option string :=
  search (fun prev l =>
            match after eqb_ci (chars "key") l with
            | Some r =>
                match spaces1 r with
                | Some r1 =>
                    match run is_digit r1, skip is_digit r1 with
                    | [], _ => None
                    | ds, c :: _ =>
                        if boundary prev l && negb (is_word c) then Some (str ds)
                        else None
                    | ds, [] => if boundary prev l then Some (str ds) else None
                    end
                | None => None
                end
            | None => None
            end) text.

Definition keyName (text : string) : string :=
  match parenMatch text, directMatch text, codeMatch text with
  | Some name, _, _ => name
  | None, Some name, _ => name
  | None, None, Some code => "KEY_" +:+ code
  | None, None, None => "KEY_UNKNOWN"
  end.

(** The branch of a line that starts with a brace.  [Number] and the
    template literal can throw; the exception leaves the handler with
    what was counted before it, and is caught by the reader, which does
    not read its stream again. *)
Definition onJson (e : Env) (text : string) (w : World) : World :=
  let payload := default VNull (JSON_parse text) in
  if negb (truthy payload) || negb (is_object payload) then w
  else
    let first :=
      if is_string (get payload "type") "pointer_button"
         && is_string (get payload "state") "pressed"
      then
        match Number_ (get payload "button") with
        | Some button =>
            Some (if Num.eqb button (of_Z 272) then bumpClick e Left FromMouse w
                  else if Num.eqb button (of_Z 273) then bumpClick e Right FromMouse w
                  else w)
        | None => None
        end
      else Some w in
    match first with
    | None => w
    | Some w =>
        if (is_string (get payload "type") "key"
            || is_string (get payload "type") "keyboard_key")
           && is_string (get payload "state") "pressed"
        then
          let key :=
            match get payload "key" with
            | VUndefined | VNull => VStr "UNKNOWN"
            | k => k
            end in
          match String_ key with
          | Some name => bumpKey e ("KEY_" +:+ name) w
          | None => w
          end
        else w
    end.

(** [pressed.side = isPressed ? true : isReleased ? false : pressed.side]. *)
Definition edge (isPressed isReleased cur : bool) : bool :=
  if isPressed then true else if isReleased then false else cur.

Definition set_pressed (eventId : string) (p : PressedState) (w : World) : World :=
  mkWorld (state w) (deviceTypes w) (<[eventId := p]> (pressedByEvent w))
    (saveSource w) (saved w).

(** The body of the [POINTER_BUTTON] test. *)
Definition onButton (e : Env) (text eventId : string) (w : World) : World :=
  let isPressed := test_ci "pressed" text in
  let isReleased := test_ci "released" text in
  let isLeft := test_ci "BTN_LEFT" text in
  let isRight := test_ci "BTN_RIGHT" text in
  let deviceType := default Unknown (deviceTypes w !! eventId) in
  let source := match deviceType with Touchpad => FromTouchpad | _ => FromMouse end in
  let pressed := default (mkPressed false false) (pressedByEvent w !! eventId) in
  let onLeft :=
    (if isPressed || (isReleased && negb (pressed_left pressed))
     then bumpClick e Left source w else w,
     mkPressed (edge isPressed isReleased (pressed_left pressed)) (pressed_right pressed)) in
  let onRight :=
    (if isPressed || (isReleased && negb (pressed_right pressed))
     then bumpClick e Right source w else w,
     mkPressed (pressed_left pressed) (edge isPressed isReleased (pressed_right pressed))) in
  let '(w', pressed') :=
    if isLeft then onLeft
    else if isRight then onRight
    else
      let fallback :=
        match buttonMatch text with
        | Some m => of_string m
        | None => NaN
        end in
      if Num.eqb fallback (of_Z 272) || Num.eqb fallback (of_Z 1) then onLeft
      else if Num.eqb fallback (of_Z 273) || Num.eqb fallback (of_Z 3) then onRight
      else (w, pressed) in
  set_pressed eventId pressed' w'.

Definition set_deviceType (eventId : string) (d : DeviceType) (w : World) : World :=
  mkWorld (state w) (<[eventId := d]> (deviceTypes w)) (pressedByEvent w)
    (saveSource w) (saved w).

Definition forget_device (eventId : string) (w : World) : World :=
  mkWorld (state w) (delete eventId (deviceTypes w))
    (delete eventId (pressedByEvent w)) (saveSource w) (saved w).

(** The tests of the textual branches. *)
Definition isScroll (text : string) : bool := test_ci "POINTER_SCROLL_" text.

Definition isButton (text : string) : bool :=
  test_ci "POINTER_BUTTON" text && (test_ci "pressed" text || test_ci "released" text).

Definition isTap (text : string) : bool :=
  test_ci "POINTER_TAP" text || test_ci "TOUCHPAD_TAP" text || test_ci "GESTURE_TAP" text.

Definition isHold (text : string) : bool := test_ci "GESTURE_HOLD_BEGIN" text.

Definition isKey (text : string) : bool :=
  test_ci "KEYBOARD_KEY" text && test_ci "pressed" text.

Definition onScroll (e : Env) (text : string) (w : World) : World :=
  let vertical := orElse (parseAxis text "vert") (parseAxis text "vertical") in
  let horizontal := orElse (parseAxis text "horiz") (parseAxis text "horizontal") in
  bumpScroll e vertical horizontal w.

Definition onTap (e : Env) (text : string) (w : World) : World :=
  let isRight := fingerTest "2" text || fingerTest "3" text in
  bumpClick e (if isRight then Right else Left) FromTouchpad w.

Definition onHold (e : Env) (text : string) (w : World) : World :=
  let fingers :=
    match trailingDigits text with
    | Some m => of_string m
    | None => one
    end in
  let isRight := isFinite fingers && geb fingers (of_Z 2) in
  bumpClick e (if isRight then Right else Left) FromTouchpad w.

Definition onKey (e : Env) (text : string) (w : World) : World :=
  bumpKey e (keyName text) w.

(** The callback given to [spawnInputStream]. *)
Definition onLine (e : Env) (line : string) (w : World) : World :=
  let text := trim line in
  if String.eqb text "" then w
  else if startsWith "{" text then onJson e text w
  else
    let eventId := default "unknown" (eventMatch text) in
    if test_ci "DEVICE_ADDED" text then set_deviceType eventId (classifyDevice text) w
    else if test_ci "DEVICE_REMOVED" text then forget_device eventId w
    else
      let w := if isScroll text then onScroll e text w else w in
      let w := if isButton text then onButton e text eventId w else w in
      let w := if isTap text then onTap e text w else w in
      let w := if isHold text then onHold e text w else w in
      if isKey text then onKey e text w else w.

End Handler.

(** ** The main loop *)

Module Loop.
Import Chars Num Json Store Handler.

(** The three increment operations, as values. *)
Inductive Increment :=
| Click (side : Side) (source : Source)
| Key (keyName : string)
| Scroll (vertical horizontal : option number).

Definition increment (e : Env) (op : Increment) (w : World) : World :=
  match op with
  | Click side source => bumpClick e side source w
  | Key keyName => bumpKey e keyName w
  | Scroll vertical horizontal => bumpScroll e vertical horizontal w
  end.

(** The function an operation gives to [setState]. *)
Definition next_of (op : Increment) : InputState -> InputState :=
  match op with
  | Click side source => click_next side source
  | Key keyName => key_next keyName
  | Scroll vertical horizontal => scroll_next vertical horizontal
  end.


(** What the loop dispatches besides the save timeout: a line read from
    one of the two streams, or the periodic day check. *)
Inductive Event :=
| Line (line : string)
| DayCheck.

(** The callback of [read_line_async]: the line is trimmed, an empty one
    is dropped. *)
Definition readLine (e : Env) (line : string) (w : World) : World :=
  let text := trim line in
  if String.eqb text "" then w else onLine e text w.

(** The one-shot save timeout is dispatched as soon as it is due, before
    what the loop dispatches next. *)
Definition fire_due (e : Env) (w : World) : World :=
  match saveSource w with
  | Some due => if due <=? now e then saveTimeout w else w
  | None => w
  end.

Definition dispatch (e : Env) (ev : Event) (w : World) : World :=
  let w := fire_due e w in
  match ev with
  | Line line => readLine e line w
  | DayCheck => ensureToday e w
  end.

(** The loop on a sequence of events, each with the time it comes at.
    The lines are those the two readers deliver: a reader whose handler
    threw on a line delivers none after it, the other reader goes on. *)
Definition process (evs : list (Env * Event)) (w : World) : World :=
  fold_left (fun w ev => dispatch ev.1 ev.2 w) evs w.

End Loop.

(** ** The notions the properties are stated with *)

Module Props.
Import Chars Num Json Store Handler Loop.

(** The eleven counters of a record, by name. *)
Definition counter_names : list string :=
  ["left"; "right"; "keys"; "leftMouse"; "rightMouse"; "leftPad"; "rightPad";
   "scrollUp"; "scrollDown"; "scrollLeft"; "scrollRight"].

Definition counters (s : InputState) : list (string * number) :=
  [("left", left s); ("right", right s); ("keys", keys s);
   ("leftMouse", leftMouse s); ("rightMouse", rightMouse s);
   ("leftPad", leftPad s); ("rightPad", rightPad s);
   ("scrollUp", scrollUp s); ("scrollDown", scrollDown s);
   ("scrollLeft", scrollLeft s); ("scrollRight", scrollRight s)].

Definition finite (x : number) : Prop := isFinite x = true.

Definition nonneg_finite (x : number) : Prop :=
  match x with
  | Fin q => (0 <= q)%Q
  | _ => False
  end.

Definition counters_finite (s : InputState) : Prop :=
  Forall (fun c => finite c.2) (counters s).

Definition counters_nonneg (s : InputState) : Prop :=
  Forall (fun c => nonneg_finite c.2) (counters s).

(** Each total is the sum of its two sources. *)
Definition sums_ok (s : InputState) : Prop :=
  Num.eq (left s) (add (leftMouse s) (leftPad s)) /\
  Num.eq (right s) (add (rightMouse s) (rightPad s)).

(** A valid record: finite counters that are not negative, and totals that
    are the sums of their sources. *)
Definition valid (s : InputState) : Prop :=
  counters_nonneg s /\ sums_ok s.

(** A sequence of [bumpClick] calls, each at its own time. *)
Definition clicks (calls : list (Env * Side * Source)) (w : World) : World :=
  fold_left (fun w c => bumpClick c.1.1 c.1.2 c.2 w) calls w.

(** A sequence of [bumpKey] calls. *)
Definition presses (calls : list (Env * string)) (w : World) : World :=
  fold_left (fun w c => bumpKey c.1 c.2 w) calls w.

(** The largest count: 1 added to [2^53] is rounded back to [2^53]. *)
Definition MAX_COUNT : Z := 2 ^ 53.

(** The click counters of [s] are the integers [lm], [lp], [rm], [rp],
    each total the sum of its two sources. *)
Definition click_counts (s : InputState) (lm lp rm rp : Z) : Prop :=
  leftMouse s = of_Z lm /\ leftPad s = of_Z lp /\ left s = of_Z (lm + lp) /\
  rightMouse s = of_Z rm /\ rightPad s = of_Z rp /\ right s = of_Z (rm + rp).

(** How many calls of a sequence are on a side. *)
Definition on_side (side : Side) (c : Env * Side * Source) : bool :=
  match side, c.1.2 with
  | Left, Left | Right, Right => true
  | _, _ => false
  end.

Definition times (side : Side) (calls : list (Env * Side * Source)) : Z :=
  Z.of_nat (length (List.filter (on_side side) calls)).

(** A key name as the module builds them. *)
Definition key_name_ok (k : string) : Prop := startsWith "KEY_" k = true.

(** The sum of the values of a map of integers. *)
Definition total (m : gmap string Z) : Z :=
  map_fold (fun _ n acc => acc + n) 0 m.

(** [keyCounts] holds the integers of [m], all positive, and [keys] is
    their sum. *)
Definition key_counts (s : InputState) (m : gmap string Z) : Prop :=
  keyCounts s = of_Z <$> m /\
  map_Forall (fun _ n => 0 < n) m /\
  keys s = of_Z (total m).

Definition keys_inv (s : InputState) : Prop := exists m, key_counts s m.

(** A stored record [normalizeState] does not replace by the default
    one: it is truthy and its [date] is the non-empty string
    [todayKey()]. *)
Definition dated_today (e : Env) (raw : value) : bool :=
  truthy raw && truthy (get raw "date") && is_string (get raw "date") (todayKey e).

(** [Number(v)] throws. *)
Definition throws (v : value) : bool :=
  match Number_ v with
  | Some _ => false
  | None => true
  end.

(** A stored record on which the loader throws: [Number] throws on one
    of its counters, or on one of the values of its [keyCounts]. *)
Definition poisoned (raw : value) : bool :=
  existsb (fun name => throws (get raw name)) counter_names
  || existsb (fun entry => throws entry.2) (entries (get raw "keyCounts")).

(** A stored record [loadState] accepts as the record of today. *)
Definition accepted (e : Env) (raw : value) : bool :=
  dated_today e raw && negb (poisoned raw).

(** The record of a new day. *)
Definition fresh (e : Env) : InputState :=
  {| date := today e;
     startedAt := of_Z (now e);
     left := of_Z 0;
     right := of_Z 0;
     keys := of_Z 0;
     leftMouse := of_Z 0;
     rightMouse := of_Z 0;
     leftPad := of_Z 0;
     rightPad := of_Z 0;
     scrollUp := of_Z 0;
     scrollDown := of_Z 0;
     scrollLeft := of_Z 0;
     scrollRight := of_Z 0;
     keyCounts := ∅ |}.

(** The device a textual line is attributed to. *)
Definition eventId (text : string) : string :=
  default "unknown" (eventMatch text).

(** The press flags recorded for a device, and the source its clicks are
    counted under. *)
Definition flags (w : World) (id : string) : PressedState :=
  default (mkPressed false false) (pressedByEvent w !! id).

Definition source_for (w : World) (id : string) : Source :=
  match default Unknown (deviceTypes w !! id) with
  | Touchpad => FromTouchpad
  | _ => FromMouse
  end.

(** A trimmed textual line that only the [POINTER_BUTTON] branch reads. *)
Definition button_line (text : string) : bool :=
  negb (String.eqb text "") && String.eqb (trim text) text
  && negb (startsWith "{" text)
  && negb (test_ci "DEVICE_ADDED" text) && negb (test_ci "DEVICE_REMOVED" text)
  && test_ci "POINTER_BUTTON" text
  && negb (isScroll text) && negb (isTap text) && negb (isHold text).

(** A [POINTER_BUTTON BTN_LEFT released] line, a [pressed] one. *)
Definition left_released (text : string) : bool :=
  button_line text && test_ci "BTN_LEFT" text
  && test_ci "released" text && negb (test_ci "pressed" text).

Definition left_pressed (text : string) : bool :=
  button_line text && test_ci "BTN_LEFT" text && test_ci "pressed" text.

(** [if (b) f(w)]. *)
Definition when (b : bool) (f : World -> World) (w : World) : World :=
  if b then f w else w.

(** A trimmed line of the textual branches. *)
Definition textual (text : string) : bool :=
  negb (String.eqb text "") && String.eqb (trim text) text
  && negb (startsWith "{" text).

(** *** Sample inputs *)

Definition env0 : Env := mkEnv 1793600000000 "2026-11-02".

Definition world0 : World := init env0 ReadFails.

Definition release5 : string :=
  "event5   POINTER_BUTTON   +1.234s BTN_LEFT (272) released, seat count: 0".

Definition press5 : string :=
  "event5   POINTER_BUTTON   +1.100s BTN_LEFT (272) pressed, seat count: 1".

Definition added_tap7 : string :=
  "event7   DEVICE_ADDED   Synaptics TouchPad   POINTER_TAP".

Definition tap_key7 : string :=
  "event7   POINTER_TAP   KEYBOARD_KEY   KEY_A (30) pressed".




(** A stored record of today with a negative counter, a zero [startedAt]
    and key counts of every kind. *)
Definition stored0 : string :=
  quoted "{'date':'2026-11-02','startedAt':0,'left':-5,'leftMouse':'7','keys':[3],'scrollUp':1e999,'keyCounts':{'KEY_A':2,'KEY_B':0,'KEY_C':-1,'KEY_D':'x','KEY_E':'4'}}".

Definition stored1 : string :=
  quoted "{'date':'2026-11-02','startedAt':1793500000000,'left':3,'leftMouse':3}".

Definition stored_old : string :=
  quoted "{'date':'2026-11-01','startedAt':1793400000000,'left':9,'leftMouse':9}".

Definition added7 : string :=
  "event7   DEVICE_ADDED   SynPS/2 Synaptics TouchPad   seat0 default group5 cap:pg".

Definition tap7 : string := "event7   POINTER_TAP   +2.500s".

Definition scroll9 : string :=
  "event9   POINTER_SCROLL_WHEEL   +3.100s vert 15.00/15.0* horiz -0.50/0.0 (wheel)".

Definition key3 : string :=
  "event3   KEYBOARD_KEY   +4.000s KEY_A (30) pressed".

(** The next day, and two moments after [env0]: within the save delay,
    and once it has passed. *)
Definition env_next_day : Env := mkEnv (now env0 + 86400000) "2026-11-03".

Definition env_1500 : Env := mkEnv (now env0 + 1500) (today env0).

Definition env_2000 : Env := mkEnv (now env0 + 2000) (today env0).

Definition sample_clicks : list (Env * Side * Source) :=
  [(env0, Left, FromMouse); (env_1500, Right, FromTouchpad); (env_2000, Left, FromTouchpad)].

Definition sample_presses : list (Env * string) :=
  [(env0, "KEY_A"); (env_1500, "KEY_B"); (env_2000, "KEY_A")].

(** The values [JSON.parse] gives for the sample texts. *)
Definition parsed (text : string) : value := default VNull (JSON_parse text).

(** A module whose [left] and [leftMouse] have reached [MAX_COUNT], and
    one whose [keys] and count of [KEY_A] have. *)
Definition world_max_left : World :=
  setState (fun s => with_leftMouse (of_Z MAX_COUNT) (with_left (of_Z MAX_COUNT) s))
    world0.

Definition world_max_keys : World :=
  setState (with_keys (of_Z MAX_COUNT) {[ "KEY_A" := of_Z MAX_COUNT ]}) world0.

Definition two_pad_clicks : list (Env * Side * Source) :=
  [(env0, Left, FromTouchpad); (env_1500, Left, FromTouchpad)].

(** A module whose [leftMouse] and [leftPad] are 0.1 and whose [left] is
    their sum, 0.2. *)
Definition tenth : number := of_string "0.1".

Definition world_tenths : World :=
  setState (fun s => with_leftPad tenth (with_leftMouse tenth (with_left (add tenth tenth) s)))
    world0.

(** A stored record of today with a key count named [__proto__], and
    one with a counter on which [Number] throws. *)
Definition stored_proto : string :=
  quoted "{'date':'2026-11-02','keyCounts':{'__proto__':5,'KEY_A':2}}".

Definition stored_poisoned : string :=
  quoted "{'date':'2026-11-02','startedAt':5,'left':{'toString':1},'right':5,'keyCounts':{'KEY_A':2}}".



End Props.

(** ** Invariants of the running module *)

Module Invariants.
Import Chars Num Json Store Handler Loop Props.

(** The two registries replaced, the store left as it is. *)
Definition set_registries (dt : gmap string DeviceType)
  (pr : gmap string PressedState) (w : World) : World :=
  mkWorld (state w) dt pr (saveSource w) (saved w).

(** An axis value as [parseAxis] gives it: when it is a finite number, it
    is a number rounded to binary64. *)
Definition rounded (v : option number) : Prop :=
  match v with
  | Some x => isFinite x = true -> exists q, x = round64 q
  | None => True
  end.

(** The increments the handler performs: any click, a scroll by values
    that [parseAxis] read, a key under a name that starts with [KEY_]. *)
Definition handler_op (op : Increment) : Prop :=
  match op with
  | Click _ _ => True
  | Key k => key_name_ok k
  | Scroll v h => rounded v /\ rounded h
  end.

Definition keys_prefixed (s : InputState) : Prop :=
  forall k v, keyCounts s !! k = Some v -> key_name_ok k.

(** *** Counters in binary64

    Adding 1 is exact up to [MAX_COUNT], and leaves [MAX_COUNT] where it
    is; a scroll amount is rounded, and becomes an infinity when it
    passes the largest number. *)

(** A counter that counts: an integer from 0 to [MAX_COUNT]. *)
Definition count (x : number) (n : Z) : Prop :=
  x = of_Z n /\ 0 <= n <= MAX_COUNT.

(** The sum of counts, as a total that was counted along holds it. *)
Definition capped (n : Z) : Z := Z.min n MAX_COUNT.

(** The click counters count, and each total follows the sum of its two
    sources up to [MAX_COUNT]. *)
Definition clicks_sound (s : InputState) : Prop :=
  exists lm lp rm rp,
    count (leftMouse s) lm /\ count (leftPad s) lp /\
    count (rightMouse s) rm /\ count (rightPad s) rp /\
    left s = of_Z (capped (lm + lp)) /\ right s = of_Z (capped (rm + rp)).

(** A number that is not negative, or the infinity a sum of such numbers
    can reach. *)
Definition amount (x : number) : Prop :=
  match x with
  | Fin q => (0 <= q)%Q
  | PInf => True
  | _ => False
  end.

(** An amount scrolled: a binary64 value that is not negative (rounding
    gives it back), or the infinity. *)
Definition binary64 (x : number) : Prop :=
  match x with
  | Fin a => (0 <= a)%Q /\ round64 a = Fin a
  | PInf => True
  | _ => False
  end.

Definition scrolls_sound (s : InputState) : Prop :=
  binary64 (scrollUp s) /\ binary64 (scrollDown s) /\
  binary64 (scrollLeft s) /\ binary64 (scrollRight s).

(** [x <= y] on amounts. *)
Definition le_amount (x y : number) : Prop :=
  match x, y with
  | Fin a, Fin b => (a <= b)%Q
  | Fin _, PInf | PInf, PInf => True
  | _, _ => False
  end.

(** No amount scrolled of [s'] is below the one of [s]. *)
Definition scrolls_le (s s' : InputState) : Prop :=
  le_amount (scrollUp s) (scrollUp s') /\ le_amount (scrollDown s) (scrollDown s') /\
  le_amount (scrollLeft s) (scrollLeft s') /\ le_amount (scrollRight s) (scrollRight s').

(** [a / b] as a fraction; for a positive [q], the exponent at which
    [round64] rounds it, the significand it gets there, and the value of
    the two. *)
Definition frac (a b : Z) : Q := (inject_Z a / inject_Z b)%Q.

Definition expo (q : Q) : Z := Z.max (ilog2 (Qnum q) (Zpos (Qden q)) - 52) (-1074).

Definition signif (q : Q) : Z :=
  let s := scaled (Qnum q) (Zpos (Qden q)) (expo q) in nearest_even s.1 s.2.

Definition rounded_value (q : Q) : Q := (inject_Z (signif q) * 2 ^ expo q)%Q.

(** The key counts count from 1, and [keys] follows their sum up to
    [MAX_COUNT]. *)
Definition keys_sound (s : InputState) : Prop :=
  exists m : gmap string Z,
    keyCounts s = of_Z <$> m /\
    map_Forall (fun _ n => 1 <= n <= MAX_COUNT) m /\
    keys s = of_Z (capped (total m)).

Definition sound (s : InputState) : Prop :=
  clicks_sound s /\ scrolls_sound s /\ keys_sound s.

(** No total has reached [MAX_COUNT] and no amount is infinite. *)
Definition in_range (s : InputState) : Prop :=
  left s <> of_Z MAX_COUNT /\ right s <> of_Z MAX_COUNT /\
  keys s <> of_Z MAX_COUNT /\
  finite (scrollUp s) /\ finite (scrollDown s) /\
  finite (scrollLeft s) /\ finite (scrollRight s).

(** [x <= y] on integers held as numbers. *)
Definition le_count (x y : number) : Prop :=
  exists n n', x = of_Z n /\ y = of_Z n' /\ n <= n'.

(** The counters that count, by name; none of [s'] is below the one of
    [s]. *)
Definition counts (s : InputState) : list (string * number) :=
  [("left", left s); ("right", right s); ("keys", keys s);
   ("leftMouse", leftMouse s); ("rightMouse", rightMouse s);
   ("leftPad", leftPad s); ("rightPad", rightPad s)].

Definition counts_le (s s' : InputState) : Prop :=
  Forall2 (fun c c' => c.1 = c'.1 /\ le_count c.2 c'.2) (counts s) (counts s').

(** No key count of [s'] is below the one of [s], and no key of [s] is
    missing in [s']. *)
Definition key_counts_le (s s' : InputState) : Prop :=
  forall k v, keyCounts s !! k = Some v ->
              exists v', keyCounts s' !! k = Some v' /\ le_count v v'.

(** With no save pending, the record in memory is the one the module
    started with or the one written last. *)
Definition synced (s0 : InputState) (w : World) : Prop :=
  saveSource w = None -> state w = s0 \/ last (saved w) = Some (state w).

(** A pending save is due [SAVE_DELAY_MS] after [t] at the latest; it is
    also due after [t]. *)
Definition due_by (t : Z) (w : World) : Prop :=
  forall d, saveSource w = Some d -> d <= t + SAVE_DELAY_MS.

Definition due_after (t : Z) (w : World) : Prop :=
  forall d, saveSource w = Some d -> t < d <= t + SAVE_DELAY_MS.

(** Events in the order of their times, none before [t]. *)
Fixpoint chronological (t : Z) (evs : list (Env * Event)) : Prop :=
  match evs with
  | [] => True
  | ev :: rest => t <= now ev.1 /\ chronological (now ev.1) rest
  end.

(** The time of the last event, [t] when there is none. *)
Definition last_time (t : Z) (evs : list (Env * Event)) : Z :=
  fold_left (fun _ ev => now ev.1) evs t.

(** Button lines of one kind only. *)
Definition left_press_line (text : string) : bool :=
  left_pressed text && negb (test_ci "KEYBOARD_KEY" text).

Definition right_line (text : string) : bool :=
  button_line text && negb (test_ci "BTN_LEFT" text) && test_ci "BTN_RIGHT" text.

Definition right_press_line (text : string) : bool :=
  right_line text && test_ci "pressed" text && negb (test_ci "KEYBOARD_KEY" text).

Definition right_release_line (text : string) : bool :=
  right_line text && test_ci "released" text && negb (test_ci "pressed" text).

(** A button line that names no button the handler knows. *)
Definition other_button_line (text : string) : bool :=
  button_line text && (test_ci "pressed" text || test_ci "released" text)
  && negb (test_ci "KEYBOARD_KEY" text)
  && negb (test_ci "BTN_LEFT" text) && negb (test_ci "BTN_RIGHT" text)
  && match buttonMatch text with
     | Some m =>
         negb (Num.eqb (of_string m) (of_Z 272)) && negb (Num.eqb (of_string m) (of_Z 1))
         && negb (Num.eqb (of_string m) (of_Z 273)) && negb (Num.eqb (of_string m) (of_Z 3))
     | None => true
     end.

(** A textual line none of the seven tests reads. *)
Definition unread_line (text : string) : bool :=
  textual text
  && negb (test_ci "DEVICE_ADDED" text) && negb (test_ci "DEVICE_REMOVED" text)
  && negb (isScroll text) && negb (isButton text) && negb (isTap text)
  && negb (isHold text) && negb (isKey text).

(** A textual line that only the tap test reads, one that only the hold
    test reads. *)
Definition tap_line (text : string) : bool :=
  textual text
  && negb (test_ci "DEVICE_ADDED" text) && negb (test_ci "DEVICE_REMOVED" text)
  && negb (isScroll text) && negb (isButton text) && isTap text
  && negb (isHold text) && negb (isKey text).

Definition hold_line (text : string) : bool :=
  textual text
  && negb (test_ci "DEVICE_ADDED" text) && negb (test_ci "DEVICE_REMOVED" text)
  && negb (isScroll text) && negb (isButton text) && negb (isTap text)
  && isHold text && negb (isKey text).



(** A pattern written in lower case, and a text of ASCII characters
    only. *)
Definition lower_case (pat : string) : Prop := map lower (chars pat) = chars pat.

Definition ascii_text (text : string) : Prop :=
  Forall (fun c => (code c < 128)%N) (chars text).

(** *** More sample inputs *)

Definition added_mouse5 : string :=
  "event5   DEVICE_ADDED   Logitech USB Optical Mouse   seat0 default group3 cap:p".

Definition tap5 : string := "event5   GESTURE_TAP   +9.000s finger 2".

Definition hold5 : string := "event5   GESTURE_HOLD_BEGIN   +9.500s 3".

Definition added_upper7 : string := "event7   DEVICE_ADDED   ELAN TOUCHPAD Keyboard Mouse".

(** A device name with the Kelvin sign U+212A in the place of a K. *)
Definition added_kelvin7 : string :=
  "event7   DEVICE_ADDED   TRAC"
  +:+ str [ascii_of_N 226; ascii_of_N 132; ascii_of_N 170] +:+ "PAD".

Definition removed7 : string := "event7   DEVICE_REMOVED   SynPS/2 Synaptics TouchPad".

Definition press7 : string :=
  "event7   POINTER_BUTTON   +5.000s BTN_LEFT (272) pressed, seat count: 1".

Definition right_press5 : string :=
  "event5   POINTER_BUTTON   +6.000s BTN_RIGHT (273) pressed, seat count: 1".

Definition right_release5 : string :=
  "event5   POINTER_BUTTON   +6.100s BTN_RIGHT (273) released, seat count: 0".

Definition middle5 : string :=
  "event5   POINTER_BUTTON   +7.000s BTN_MIDDLE (274) pressed, seat count: 1".

Definition tablet4 : string := "event4   TABLET_TOOL_AXIS   +8.000s 12.30/45.60".

(** A scroll of a tenth, and one of [10^308]. *)
Definition scroll_tenth : string :=
  "event9   POINTER_SCROLL_WHEEL   +3.100s vert 0.1/0.0 horiz 0.00/0.0 (wheel)".

Definition scroll_huge : string :=
  "event9   POINTER_SCROLL_WHEEL   +3.100s vert 1" +:+ str (repeat "0"%char 308).

Definition key_released_json : string :=
  quoted "{'type':'key','state':'released','key':30}".

Definition key_pressed_json : string :=
  quoted "{'type':'keyboard_key','state':'pressed','key':30}".

Definition sample_events : list (Env * Event) :=
  [(env0, Line press5); (env_1500, Line key3); (env_2000, Line release5);
   (env_next_day, DayCheck)].

Definition sample_lines : list (Env * Event) :=
  [(env0, Line press5); (env_1500, Line key3)].

End Invariants.

(** ** Facts on numbers *)

Module NumFacts.
Import Num Props Invariants.

#[global] Arguments Num.gtb : simpl never.
#[global] Arguments Num.ltb : simpl never.
#[global] Arguments Num.add : simpl never.
#[global] Arguments Num.round64 : simpl never.

(** *** Rounding an integer *)

Lemma Qred_inject_Z z : Qred (inject_Z z) = inject_Z z.
Proof.
  unfold Qred, inject_Z.
  pose proof (Z.ggcd_gcd z 1) as Hg. pose proof (Z.ggcd_correct_divisors z 1) as Hd.
  destruct (Z.ggcd z 1) as [g [a b]]. simpl in Hg, Hd.
  rewrite Z.gcd_1_r in Hg. subst g. destruct Hd as [Ha Hb].
  rewrite Z.mul_1_l in Ha, Hb. subst a b. reflexivity.
Qed.

Lemma nearest_even_1 a : nearest_even a 1 = a.
Proof. unfold nearest_even. rewrite Z.div_1_r, Z.mod_1_r. reflexivity. Qed.

Lemma ilog2_1 n : 0 < n -> ilog2 n 1 = Z.log2 n.
Proof.
  intros Hn. unfold ilog2, scaled. change (Z.log2 1) with 0. rewrite Z.sub_0_r.
  pose proof (Z.log2_nonneg n) as H0.
  destruct (0 <=? Z.log2 n) eqn:E; [|apply Z.leb_gt in E; lia].
  cbn [fst snd]. rewrite Z.mul_1_l.
  destruct (Z.log2_spec n Hn) as [Hlo _].
  destruct (2 ^ Z.log2 n <=? n) eqn:E2; [reflexivity | apply Z.leb_gt in E2; lia].
Qed.

(** An integer from 0 to [2^53] is a binary64 value: it has 53 bits at
    most, or it is [2^53] itself. *)
Lemma round64_of_Z z : 0 <= z <= 2 ^ 53 -> round64 (inject_Z z) = Fin (inject_Z z).
Proof.
  intros Hz. unfold round64. cbn [Qnum Qden inject_Z].
  rewrite (Z.abs_eq z) by lia.
  destruct (z =? 0) eqn:E0; [apply Z.eqb_eq in E0; subst; reflexivity|].
  apply Z.eqb_neq in E0. assert (Hp : 0 < z) by lia.
  rewrite (ilog2_1 z Hp).
  destruct (Z.log2_spec z Hp) as [Hlo Hhi].
  pose proof (Z.log2_nonneg z) as H0.
  assert (H53 : Z.log2 z <= 53).
  { replace 53 with (Z.log2 (2 ^ 53)) by reflexivity. apply Z.log2_le_mono. lia. }
  rewrite Z.max_l by lia.
  replace (z <? 0) with false by (symmetry; apply Z.ltb_ge; lia).
  destruct (Z_lt_le_dec (Z.log2 z) 52) as [Hlt|Hge].
  - unfold scaled, dyadic.
    replace (0 <=? Z.log2 z - 52) with false by (symmetry; apply Z.leb_gt; lia).
    cbn [fst snd andb]. rewrite nearest_even_1. f_equal.
    rewrite <- (Qred_inject_Z z). apply Qred_complete.
    unfold Qeq. cbn [Qnum Qden inject_Z].
    rewrite Z2Pos.id by (apply Z.pow_pos_nonneg; lia). ring.
  - assert (Hcase : Z.log2 z = 52 \/ Z.log2 z = 53) by lia.
    destruct Hcase as [He|He]; rewrite He in *.
    + unfold scaled, dyadic. change (52 - 52) with 0.
      cbn [Z.leb Z.compare fst snd andb].
      change (2 ^ 0) with 1. rewrite !Z.mul_1_r. rewrite nearest_even_1.
      replace (2 ^ 1024 <=? z) with false
        by (symmetry; apply Z.leb_gt; eapply Z.le_lt_trans; [apply Hz | reflexivity]).
      f_equal. apply Qred_inject_Z.
    + assert (z = 2 ^ 53) by lia. subst z. vm_compute. reflexivity.
Qed.

Lemma Qplus_inject_Z_L a b : (inject_Z a + inject_Z b)%Q = inject_Z (a + b).
Proof. unfold Qplus, inject_Z. simpl. rewrite !Z.mul_1_r. reflexivity. Qed.

Lemma Qeq_bool_inject_Z_0 a : Qeq_bool (inject_Z a) 0 = (a =? 0).
Proof. unfold Qeq_bool. simpl. rewrite Z.mul_1_r. destruct a; reflexivity. Qed.

(** *** Sums *)

(** A sum of two integers that does not pass [2^53] is exact. *)
Lemma add_of_Z a b :
  0 <= a -> 0 <= b -> a + b <= MAX_COUNT -> add (of_Z a) (of_Z b) = of_Z (a + b).
Proof.
  intros Ha Hb Hab. unfold add, of_Z. rewrite !Qeq_bool_inject_Z_0.
  destruct (b =? 0) eqn:Eb; [apply Z.eqb_eq in Eb; subst; rewrite Z.add_0_r; reflexivity|].
  destruct (a =? 0) eqn:Ea; [apply Z.eqb_eq in Ea; subst; reflexivity|].
  rewrite Qplus_inject_Z_L. apply round64_of_Z. unfold MAX_COUNT in Hab. lia.
Qed.

(** 1 added to [2^53] is lost. *)
Lemma add_one_max : add (of_Z MAX_COUNT) one = of_Z MAX_COUNT.
Proof. vm_compute. reflexivity. Qed.

Lemma MAX_COUNT_pos : 0 < MAX_COUNT.
Proof. reflexivity. Qed.

Lemma add_one_count x n : count x n -> count (add x one) (capped (n + 1)).
Proof.
  intros [-> Hn]. pose proof MAX_COUNT_pos as HM. unfold capped.
  destruct (Z.eq_dec n MAX_COUNT) as [->|Hne].
  - rewrite add_one_max. split; [f_equal|]; lia.
  - unfold one. rewrite add_of_Z by lia. split; [f_equal|]; lia.
Qed.

Lemma add_zero_r (x : number) : add x zero = x.
Proof. destruct x; reflexivity. Qed.

Lemma of_Z_inj a b : of_Z a = of_Z b -> a = b.
Proof. intros H. injection H. trivial. Qed.

Lemma gtb_zero_of_Z (z : Z) : 0 < z -> gtb (of_Z z) zero = true.
Proof.
  intros H. unfold gtb, ltb, of_Z, zero. simpl.
  destruct (Qle_bool (inject_Z z) (inject_Z 0)) eqn:E; [|reflexivity].
  apply Qle_bool_iff in E. rewrite <- Zle_Qle in E. lia.
Qed.

(** *** Amounts *)

Lemma nearest_even_nonneg a b : 0 <= a -> 0 < b -> 0 <= nearest_even a b.
Proof.
  intros Ha Hb. unfold nearest_even.
  assert (0 <= a / b) by (apply Z.div_pos; lia).
  repeat match goal with |- context [if ?c then _ else _] => destruct c end; lia.
Qed.

Lemma scaled_pos n d p : 0 <= n -> 0 < d -> 0 <= (scaled n d p).1 /\ 0 < (scaled n d p).2.
Proof.
  intros Hn Hd. unfold scaled. destruct (0 <=? p) eqn:E; cbn [fst snd].
  - apply Z.leb_le in E. split; [lia|]. apply Z.mul_pos_pos; [lia|].
    apply Z.pow_pos_nonneg; lia.
  - apply Z.leb_gt in E. split; [|lia]. apply Z.mul_nonneg_nonneg; [lia|].
    apply Z.pow_nonneg. lia.
Qed.

Lemma dyadic_nonneg m p : 0 <= m -> (0 <= dyadic m p)%Q.
Proof.
  intros Hm. unfold dyadic. rewrite Qred_correct. destruct (0 <=? p) eqn:E.
  - apply Z.leb_le in E. unfold Qle. cbn [Qnum Qden inject_Z].
    rewrite Z.mul_0_l, Z.mul_1_r.
    apply Z.mul_nonneg_nonneg; [lia|]. apply Z.pow_nonneg. lia.
  - unfold Qle. cbn [Qnum Qden]. lia.
Qed.

(** Rounding a number that is not negative gives one, or the infinity. *)
Lemma round64_amount q : (0 <= q)%Q -> amount (round64 q).
Proof.
  intros Hq. assert (Hn : 0 <= Qnum q) by (unfold Qle in Hq; simpl in Hq; lia).
  unfold round64. rewrite (Z.abs_eq _ Hn).
  destruct (Qnum q =? 0); [simpl; apply Qle_refl|].
  replace (Qnum q <? 0) with false by (symmetry; apply Z.ltb_ge; lia).
  destruct (_ && _); [exact I|]. simpl. apply dyadic_nonneg.
  destruct (scaled_pos (Qnum q) (Zpos (Qden q))
              (Z.max (ilog2 (Qnum q) (Zpos (Qden q)) - 52) (-1074)) Hn) as [H1 H2]; [lia|].
  apply nearest_even_nonneg; assumption.
Qed.

(** *** Rounding

    What [round64] computes, through the exponent and the significand it
    picks: it keeps the order, and gives back a value it has given. *)

Lemma pow2_pos z : (0 < 2 ^ z)%Q.
Proof. apply Qpower_0_lt. reflexivity. Qed.

Lemma pow2_Z k : 0 <= k -> (inject_Z (2 ^ k) == 2 ^ k)%Q.
Proof. intros H. apply (Zpower_Qpower 2 k H). Qed.

Lemma pow2_add a b : (2 ^ (a + b) == 2 ^ a * 2 ^ b)%Q.
Proof. apply Qpower_plus. discriminate. Qed.

Lemma pow2_opp a : (2 ^ (- a) * 2 ^ a == 1)%Q.
Proof. rewrite <- pow2_add. replace (- a + a) with 0 by lia. reflexivity. Qed.

Lemma pow2_le a b : a <= b -> (2 ^ a <= 2 ^ b)%Q.
Proof. intros H. apply Qpower_le_compat_l; [exact H | discriminate]. Qed.

Lemma pow2_lt a b : a < b -> (2 ^ a < 2 ^ b)%Q.
Proof. intros H. apply Qpower_lt_compat_l; [exact H | reflexivity]. Qed.

Lemma pow2_lt_inv a b : (2 ^ a < 2 ^ b)%Q -> a < b.
Proof. intros H. apply (Qpower_lt_compat_l_inv 2); [exact H | reflexivity]. Qed.

Lemma pow2_succ a : (2 ^ (a + 1) == 2 * 2 ^ a)%Q.
Proof. rewrite pow2_add. change (2 ^ 1)%Q with 2%Q. ring. Qed.

Lemma inject_pos b : 0 < b -> (0 < inject_Z b)%Q.
Proof. intros H. rewrite Zlt_Qlt in H. exact H. Qed.

Lemma frac_le a1 b1 a2 b2 :
  0 < b1 -> 0 < b2 -> (frac a1 b1 <= frac a2 b2)%Q <-> a1 * b2 <= a2 * b1.
Proof.
  intros H1 H2. unfold frac.
  pose proof (inject_pos b1 H1) as P1. pose proof (inject_pos b2 H2) as P2.
  rewrite Zle_Qle, !inject_Z_mult.
  assert (P : (0 < inject_Z b1 * inject_Z b2)%Q) by (apply Qmult_lt_0_compat; assumption).
  rewrite <- (Qmult_le_r _ _ _ P).
  assert (E1 : (inject_Z a1 / inject_Z b1 * (inject_Z b1 * inject_Z b2) ==
                inject_Z a1 * inject_Z b2)%Q) by (field; lra).
  assert (E2 : (inject_Z a2 / inject_Z b2 * (inject_Z b1 * inject_Z b2) ==
                inject_Z a2 * inject_Z b1)%Q) by (field; lra).
  rewrite E1, E2. reflexivity.
Qed.

Lemma frac_1 a : (frac a 1 == inject_Z a)%Q.
Proof. unfold frac. field. Qed.

Lemma frac_Qmake q : (q == frac (Qnum q) (Zpos (Qden q)))%Q.
Proof. destruct q as [n d]. apply Qmake_Qdiv. Qed.

(** nearest_even is monotone. *)
Lemma nearest_even_mono a1 b1 a2 b2 :
  0 < b1 -> 0 < b2 -> a1 * b2 <= a2 * b1 -> nearest_even a1 b1 <= nearest_even a2 b2.
Proof.
  intros H1 H2 H. unfold nearest_even.
  pose proof (Z.div_mod a1 b1 ltac:(lia)) as D1.
  pose proof (Z.div_mod a2 b2 ltac:(lia)) as D2.
  pose proof (Z.mod_pos_bound a1 b1 H1) as M1.
  pose proof (Z.mod_pos_bound a2 b2 H2) as M2.
  set (k1 := a1 / b1) in *. set (k2 := a2 / b2) in *.
  set (r1 := a1 mod b1) in *. set (r2 := a2 mod b2) in *.
  assert (Hk : k1 <= k2).
  { assert (A : k1 * (b1 * b2) <= a1 * b2) by nia.
    assert (B : a2 * b1 < (k2 + 1) * (b1 * b2)) by nia.
    assert (C : k1 * (b1 * b2) < (k2 + 1) * (b1 * b2)) by lia.
    apply Z.mul_lt_mono_pos_r in C; [lia|]. apply Z.mul_pos_pos; assumption. }
  destruct (Z.eq_dec k1 k2) as [E|NE].
  - assert (Hr : r1 * b2 <= r2 * b1) by nia.
    rewrite <- E.
    destruct (2 * r1 <? b1) eqn:A1; [destruct (2 * r2 <? b2), (b2 <? 2 * r2), (Z.even k1); lia|].
    apply Z.ltb_ge in A1.
    destruct (b1 <? 2 * r1) eqn:B1.
    + apply Z.ltb_lt in B1.
      assert (b2 < 2 * r2) by nia.
      replace (2 * r2 <? b2) with false by (symmetry; apply Z.ltb_ge; lia).
      replace (b2 <? 2 * r2) with true by (symmetry; apply Z.ltb_lt; lia). lia.
    + apply Z.ltb_ge in B1. assert (b1 = 2 * r1) by lia.
      assert (b2 <= 2 * r2) by nia.
      destruct (2 * r2 <? b2) eqn:A2; [apply Z.ltb_lt in A2; lia|].
      destruct (b2 <? 2 * r2); destruct (Z.even k1); lia.
  - assert (k1 + 1 <= k2) by lia.
    destruct (2 * r1 <? b1), (b1 <? 2 * r1), (Z.even k1),
      (2 * r2 <? b2), (b2 <? 2 * r2), (Z.even k2); lia.
Qed.

Lemma nearest_even_frac a1 b1 a2 b2 :
  0 < b1 -> 0 < b2 -> (frac a1 b1 <= frac a2 b2)%Q ->
  nearest_even a1 b1 <= nearest_even a2 b2.
Proof. intros H1 H2 H. apply nearest_even_mono; try assumption. apply frac_le; assumption. Qed.

Lemma nearest_even_le a b k : 0 < b -> (frac a b <= inject_Z k)%Q -> nearest_even a b <= k.
Proof.
  intros Hb H. rewrite <- (nearest_even_1 k). apply nearest_even_frac; [assumption|lia|].
  rewrite frac_1. exact H.
Qed.

Lemma nearest_even_ge a b k : 0 < b -> (inject_Z k <= frac a b)%Q -> k <= nearest_even a b.
Proof.
  intros Hb H. rewrite <- (nearest_even_1 k) at 1. apply nearest_even_frac; [lia|assumption|].
  rewrite frac_1. exact H.
Qed.

Lemma nearest_even_eq a b k : 0 < b -> (frac a b == inject_Z k)%Q -> nearest_even a b = k.
Proof.
  intros Hb H. apply Z.le_antisymm.
  - apply nearest_even_le; [assumption|]. rewrite H. apply Qle_refl.
  - apply nearest_even_ge; [assumption|]. rewrite H. apply Qle_refl.
Qed.

Lemma scaled_frac n d p :
  0 < d ->
  0 < (scaled n d p).2 /\
  (frac (scaled n d p).1 (scaled n d p).2 == frac n d * 2 ^ (- p))%Q.
Proof.
  intros Hd. pose proof (inject_pos d Hd) as Pd.
  pose proof (pow2_opp p) as Ho. pose proof (pow2_pos p) as Pp.
  unfold scaled. destruct (0 <=? p) eqn:E; cbn [fst snd].
  - apply Z.leb_le in E. split.
    { apply Z.mul_pos_pos; [exact Hd | apply Z.pow_pos_nonneg; lia]. }
    unfold frac. rewrite inject_Z_mult, (pow2_Z p E).
    set (X := (2 ^ p)%Q) in *. set (Y := (2 ^ (- p))%Q) in *.
    assert (EY : (Y == / X)%Q) by (field_simplify_eq; [lra | lra]).
    rewrite EY. field. split; lra.
  - apply Z.leb_gt in E. split; [exact Hd|].
    unfold frac. rewrite inject_Z_mult, (pow2_Z (- p)) by lia. field. lra.
Qed.

Lemma frac_pos n d : 0 < n -> 0 < d -> (0 < frac n d)%Q.
Proof.
  intros Hn Hd. unfold frac. apply Qlt_shift_div_l; [apply inject_pos, Hd|].
  rewrite Qmult_0_l. apply inject_pos, Hn.
Qed.

Lemma log2_Q n : 0 < n -> (2 ^ Z.log2 n <= inject_Z n < 2 * 2 ^ Z.log2 n)%Q.
Proof.
  intros Hn. destruct (Z.log2_spec n Hn) as [Hlo Hhi].
  pose proof (Z.log2_nonneg n) as H0.
  rewrite Z.pow_succ_r in Hhi by exact H0.
  rewrite Zle_Qle in Hlo. rewrite Zlt_Qlt, inject_Z_mult in Hhi.
  rewrite (pow2_Z _ H0) in Hlo, Hhi. split; assumption.
Qed.

Lemma ilog2_spec n d :
  0 < n -> 0 < d -> (2 ^ ilog2 n d <= frac n d < 2 ^ (ilog2 n d + 1))%Q.
Proof.
  intros Hn Hd.
  destruct (log2_Q n Hn) as [An Bn]. destruct (log2_Q d Hd) as [Ad Bd].
  pose proof (inject_pos d Hd) as Pd.
  assert (EF : (frac n d * inject_Z d == inject_Z n)%Q) by (unfold frac; field; lra).
  pose proof (frac_pos n d Hn Hd) as PF.
  unfold ilog2. set (e0 := Z.log2 n - Z.log2 d).
  destruct (scaled_frac n d e0 Hd) as [Ps Es].
  assert (EU : (2 ^ e0 * 2 ^ Z.log2 d == 2 ^ Z.log2 n)%Q).
  { rewrite <- pow2_add. unfold e0. replace (Z.log2 n - Z.log2 d + Z.log2 d) with (Z.log2 n) by lia.
    reflexivity. }
  pose proof (pow2_opp e0) as ET.
  pose proof (pow2_pos e0) as PU. pose proof (pow2_pos (- e0)) as PT.
  pose proof (pow2_pos (Z.log2 n)) as PA. pose proof (pow2_pos (Z.log2 d)) as PB.
  assert (Htest : (scaled n d e0).2 <= (scaled n d e0).1 <->
                  (1 <= frac n d * 2 ^ (- e0))%Q).
  { pose proof (frac_le 1 1 (scaled n d e0).1 (scaled n d e0).2 ltac:(lia) Ps) as FL.
    assert (E1 : (frac 1 1 == 1)%Q) by reflexivity.
    rewrite Es, E1 in FL. rewrite FL. lia. }
  set (F := frac n d) in *. set (N := inject_Z n) in *. set (D := inject_Z d) in *.
  set (U := (2 ^ e0)%Q) in *. set (T := (2 ^ (- e0))%Q) in *.
  set (A := (2 ^ Z.log2 n)%Q) in *. set (B := (2 ^ Z.log2 d)%Q) in *.
  destruct ((scaled n d e0).2 <=? (scaled n d e0).1) eqn:E.
  - apply Z.leb_le, Htest in E. rewrite pow2_succ. fold U. split; nra.
  - apply Z.leb_gt in E.
    assert (E' : (F * T < 1)%Q).
    { apply Qnot_le_lt. intros C. apply Htest in C. lia. }
    replace (e0 - 1 + 1) with e0 by lia. fold U.
    assert (EW : (2 * 2 ^ (e0 - 1) == U)%Q).
    { rewrite <- pow2_succ. replace (e0 - 1 + 1) with e0 by lia. reflexivity. }
    pose proof (pow2_pos (e0 - 1)) as PW.
    set (W := (2 ^ (e0 - 1))%Q) in *. split; nra.
Qed.

Lemma round64_pos q :
  0 < Qnum q ->
  round64 q = if (0 <=? expo q) && (2 ^ 1024 <=? signif q * 2 ^ expo q) then PInf
              else Fin (dyadic (signif q) (expo q)).
Proof.
  intros H. unfold round64, signif, expo. rewrite (Z.abs_eq (Qnum q)) by lia.
  replace (Qnum q =? 0) with false by (symmetry; apply Z.eqb_neq; lia).
  replace (Qnum q <? 0) with false by (symmetry; apply Z.ltb_ge; lia).
  reflexivity.
Qed.

Lemma ilog2_Q q :
  0 < Qnum q ->
  (2 ^ ilog2 (Qnum q) (Zpos (Qden q)) <= q < 2 ^ (ilog2 (Qnum q) (Zpos (Qden q)) + 1))%Q.
Proof.
  intros H. pose proof (ilog2_spec (Qnum q) (Zpos (Qden q)) H ltac:(reflexivity)) as [A B].
  pose proof (frac_Qmake q) as E. split.
  - eapply Qle_trans; [exact A|]. rewrite <- E. apply Qle_refl.
  - eapply Qle_lt_trans; [|exact B]. rewrite <- E. apply Qle_refl.
Qed.

Lemma scaled_Q q p :
  0 < (scaled (Qnum q) (Zpos (Qden q)) p).2 /\
  (frac (scaled (Qnum q) (Zpos (Qden q)) p).1 (scaled (Qnum q) (Zpos (Qden q)) p).2
   == q * 2 ^ (- p))%Q.
Proof.
  destruct (scaled_frac (Qnum q) (Zpos (Qden q)) p ltac:(reflexivity)) as [H1 H2].
  split; [exact H1|]. rewrite H2, <- frac_Qmake. reflexivity.
Qed.

Lemma signif_le q k :
  0 <= k -> (q <= 2 ^ (k + expo q))%Q -> signif q <= 2 ^ k.
Proof.
  intros Hk H. unfold signif. cbv zeta.
  destruct (scaled_Q q (expo q)) as [Ps Es].
  apply nearest_even_le; [exact Ps|]. rewrite Es, (pow2_Z k Hk).
  rewrite pow2_add in H. pose proof (pow2_opp (expo q)) as Ho.
  pose proof (pow2_pos (expo q)) as P1. pose proof (pow2_pos (- expo q)) as P2.
  pose proof (pow2_pos k) as P3.
  set (X := (2 ^ expo q)%Q) in *. set (Y := (2 ^ (- expo q))%Q) in *.
  set (K := (2 ^ k)%Q) in *.
  assert (E : (K == K * X * Y)%Q) by (rewrite <- Qmult_assoc, (Qmult_comm X Y), Ho; ring).
  rewrite E. apply Qmult_le_compat_r; [exact H | lra].
Qed.

Lemma signif_ge q k :
  0 <= k -> (2 ^ (k + expo q) <= q)%Q -> 2 ^ k <= signif q.
Proof.
  intros Hk H. unfold signif. cbv zeta.
  destruct (scaled_Q q (expo q)) as [Ps Es].
  apply nearest_even_ge; [exact Ps|]. rewrite Es, (pow2_Z k Hk).
  rewrite pow2_add in H. pose proof (pow2_opp (expo q)) as Ho.
  pose proof (pow2_pos (expo q)) as P1. pose proof (pow2_pos (- expo q)) as P2.
  pose proof (pow2_pos k) as P3.
  set (X := (2 ^ expo q)%Q) in *. set (Y := (2 ^ (- expo q))%Q) in *.
  set (K := (2 ^ k)%Q) in *.
  assert (E : (K == K * X * Y)%Q) by (rewrite <- Qmult_assoc, (Qmult_comm X Y), Ho; ring).
  rewrite E. apply Qmult_le_compat_r; [exact H | lra].
Qed.

Lemma signif_nonneg q : 0 <= Qnum q -> 0 <= signif q.
Proof.
  intros H. unfold signif. cbv zeta.
  destruct (scaled_pos (Qnum q) (Zpos (Qden q)) (expo q) H ltac:(reflexivity)) as [H1 H2].
  apply nearest_even_nonneg; assumption.
Qed.

Lemma signif_max q : 0 < Qnum q -> signif q <= 2 ^ 53.
Proof.
  intros H. apply signif_le; [lia|]. destruct (ilog2_Q q H) as [_ Hhi].
  apply Qlt_le_weak. eapply Qlt_le_trans; [exact Hhi|]. apply pow2_le. unfold expo. lia.
Qed.

Lemma signif_normal q :
  0 < Qnum q -> expo q = ilog2 (Qnum q) (Zpos (Qden q)) - 52 -> 2 ^ 52 <= signif q.
Proof.
  intros H E. apply signif_ge; [lia|]. destruct (ilog2_Q q H) as [Hlo _].
  eapply Qle_trans; [|exact Hlo]. apply pow2_le. lia.
Qed.

Lemma dyadic_value m p : (dyadic m p == inject_Z m * 2 ^ p)%Q.
Proof.
  unfold dyadic. rewrite Qred_correct. destruct (0 <=? p) eqn:E.
  - apply Z.leb_le in E. rewrite inject_Z_mult, (pow2_Z p E). reflexivity.
  - apply Z.leb_gt in E. rewrite Qmake_Qdiv.
    rewrite Z2Pos.id by (apply Z.pow_pos_nonneg; lia).
    rewrite (pow2_Z (- p)) by lia.
    pose proof (pow2_opp p) as Ho. pose proof (pow2_pos p) as P1.
    pose proof (pow2_pos (- p)) as P2.
    set (X := (2 ^ p)%Q) in *. set (Y := (2 ^ (- p))%Q) in *.
    assert (EX : (X == / Y)%Q) by (field_simplify_eq; [lra | lra]).
    rewrite EX. field. lra.
Qed.

Lemma overflow_test q :
  0 < Qnum q ->
  (0 <=? expo q) && (2 ^ 1024 <=? signif q * 2 ^ expo q) = true <->
  (2 ^ 1024 <= rounded_value q)%Q.
Proof.
  intros H. unfold rounded_value.
  pose proof (signif_max q H) as Hm. pose proof (signif_nonneg q ltac:(lia)) as H0.
  rewrite andb_true_iff, Z.leb_le, Z.leb_le.
  destruct (Z_lt_le_dec (expo q) 0) as [Hn|Hp].
  - split; [lia|]. intros C. exfalso.
    assert (Hlt : (2 ^ expo q < 2 ^ 0)%Q) by (apply pow2_lt; exact Hn).
    change (2 ^ 0)%Q with 1%Q in Hlt.
    pose proof (pow2_pos (expo q)) as P1.
    rewrite Zle_Qle in Hm, H0. rewrite (pow2_Z 53) in Hm by lia.
    assert (Hb : (2 ^ 53 < 2 ^ 1024)%Q) by (apply pow2_lt; lia).
    change (inject_Z 0) with 0%Q in H0.
    set (X := (2 ^ expo q)%Q) in *. set (M := inject_Z (signif q)) in *.
    set (A := (2 ^ 53)%Q) in *. set (B := (2 ^ 1024)%Q) in *. nra.
  - rewrite (Zle_Qle (2 ^ 1024)), inject_Z_mult, (pow2_Z 1024), (pow2_Z (expo q)) by lia.
    split; [intros [_ C]; exact C | intros C; split; [exact Hp | exact C]].
Qed.

Lemma ilog2_mono q1 q2 :
  0 < Qnum q1 -> 0 < Qnum q2 -> (q1 <= q2)%Q ->
  ilog2 (Qnum q1) (Zpos (Qden q1)) <= ilog2 (Qnum q2) (Zpos (Qden q2)).
Proof.
  intros H1 H2 H. destruct (ilog2_Q q1 H1) as [A1 _]. destruct (ilog2_Q q2 H2) as [_ B2].
  assert (L : (2 ^ ilog2 (Qnum q1) (Zpos (Qden q1))
               < 2 ^ (ilog2 (Qnum q2) (Zpos (Qden q2)) + 1))%Q).
  { eapply Qle_lt_trans; [exact A1|]. eapply Qle_lt_trans; [exact H | exact B2]. }
  apply pow2_lt_inv in L. lia.
Qed.

Lemma mul_pow2_le a b p : a <= b -> (inject_Z a * 2 ^ p <= inject_Z b * 2 ^ p)%Q.
Proof.
  intros H. apply Qmult_le_compat_r; [rewrite <- Zle_Qle; exact H|].
  apply Qlt_le_weak, pow2_pos.
Qed.

Lemma rounded_value_mono q1 q2 :
  0 < Qnum q1 -> 0 < Qnum q2 -> (q1 <= q2)%Q -> (rounded_value q1 <= rounded_value q2)%Q.
Proof.
  intros H1 H2 H. pose proof (ilog2_mono q1 q2 H1 H2 H) as He.
  destruct (ilog2_Q q1 H1) as [A1 B1]. destruct (ilog2_Q q2 H2) as [A2 B2].
  unfold rounded_value.
  destruct (Z.eq_dec (expo q1) (expo q2)) as [E|NE].
  - rewrite E. apply mul_pow2_le. unfold signif. cbv zeta. rewrite E.
    destruct (scaled_Q q1 (expo q2)) as [P1 E1]. destruct (scaled_Q q2 (expo q2)) as [P2 E2].
    apply nearest_even_frac; [exact P1 | exact P2|]. rewrite E1, E2.
    apply Qmult_le_compat_r; [exact H | apply Qlt_le_weak, pow2_pos].
  - set (e1 := ilog2 (Qnum q1) (Zpos (Qden q1))) in *.
    set (e2 := ilog2 (Qnum q2) (Zpos (Qden q2))) in *.
    assert (Hp : expo q1 < expo q2 /\ expo q2 = e2 - 52 /\ e1 < e2 /\ e1 - 52 <= expo q1).
    { unfold expo in *. fold e1 e2 in NE |- *. lia. }
    destruct Hp as [Hlt [Hn [He' Hge]]].
    set (k := Z.max (e1 + 1 - expo q1) 0).
    assert (M1 : signif q1 <= 2 ^ k).
    { apply signif_le; [unfold k; lia|]. apply Qlt_le_weak.
      eapply Qlt_le_trans; [exact B1|]. apply pow2_le. unfold k. lia. }
    assert (M2 : 2 ^ 52 <= signif q2) by (apply signif_normal; assumption).
    apply Qle_trans with (inject_Z (2 ^ k) * 2 ^ expo q1)%Q; [apply mul_pow2_le, M1|].
    apply Qle_trans with (inject_Z (2 ^ 52) * 2 ^ expo q2)%Q; [|apply mul_pow2_le, M2].
    rewrite (pow2_Z k), (pow2_Z 52) by (unfold k; lia).
    rewrite <- !pow2_add. apply pow2_le. unfold k. lia.
Qed.

Lemma round64_zero q : Qnum q = 0 -> round64 q = Fin 0.
Proof. intros H. unfold round64. rewrite H. reflexivity. Qed.

Lemma Qnum_pos q : (0 < q)%Q <-> 0 < Qnum q.
Proof. unfold Qlt. simpl. lia. Qed.

Lemma Qnum_nonneg q : (0 <= q)%Q <-> 0 <= Qnum q.
Proof. unfold Qle. simpl. lia. Qed.

Lemma rounded_value_nonneg q : 0 <= Qnum q -> (0 <= rounded_value q)%Q.
Proof.
  intros H. unfold rounded_value. apply Qmult_le_0_compat.
  - change 0%Q with (inject_Z 0). rewrite <- Zle_Qle. apply signif_nonneg, H.
  - apply Qlt_le_weak, pow2_pos.
Qed.

(** Rounding keeps the order of the numbers that are not negative. *)
Lemma round64_mono q1 q2 :
  (0 <= q1)%Q -> (q1 <= q2)%Q -> le_amount (round64 q1) (round64 q2).
Proof.
  intros H1 H. assert (H2 : (0 <= q2)%Q) by (eapply Qle_trans; eassumption).
  apply Qnum_nonneg in H1, H2.
  destruct (Z.eq_dec (Qnum q2) 0) as [Z2|N2].
  { assert (Z1 : Qnum q1 = 0).
    { unfold Qle in H. rewrite Z2 in H. simpl in H. nia. }
    rewrite (round64_zero q1 Z1), (round64_zero q2 Z2). simpl. apply Qle_refl. }
  assert (P2 : 0 < Qnum q2) by lia.
  rewrite (round64_pos q2 P2).
  destruct (Z.eq_dec (Qnum q1) 0) as [Z1|N1].
  { rewrite (round64_zero q1 Z1).
    destruct (_ && _); [exact I|]. simpl. rewrite dyadic_value.
    apply (rounded_value_nonneg q2 H2). }
  assert (P1 : 0 < Qnum q1) by lia.
  rewrite (round64_pos q1 P1).
  pose proof (rounded_value_mono q1 q2 P1 P2 H) as Hv.
  pose proof (overflow_test q1 P1) as T1. pose proof (overflow_test q2 P2) as T2.
  destruct ((0 <=? expo q2) && _) eqn:O2.
  - destruct ((0 <=? expo q1) && _); exact I.
  - destruct ((0 <=? expo q1) && _) eqn:O1.
    + exfalso. assert (C : (2 ^ 1024 <= rounded_value q2)%Q).
      { eapply Qle_trans; [apply T1; reflexivity | exact Hv]. }
      apply T2 in C. discriminate C.
    + simpl. rewrite !dyadic_value. exact Hv.
Qed.

Lemma ilog2_unique q e :
  0 < Qnum q -> (2 ^ e <= q < 2 ^ (e + 1))%Q -> ilog2 (Qnum q) (Zpos (Qden q)) = e.
Proof.
  intros H [A B]. destruct (ilog2_Q q H) as [A' B'].
  assert (L1 : (2 ^ e < 2 ^ (ilog2 (Qnum q) (Zpos (Qden q)) + 1))%Q)
    by (eapply Qle_lt_trans; eassumption).
  assert (L2 : (2 ^ ilog2 (Qnum q) (Zpos (Qden q)) < 2 ^ (e + 1))%Q)
    by (eapply Qle_lt_trans; eassumption).
  apply pow2_lt_inv in L1, L2. lia.
Qed.

Lemma dyadic_ext m1 p1 m2 p2 :
  (inject_Z m1 * 2 ^ p1 == inject_Z m2 * 2 ^ p2)%Q -> dyadic m1 p1 = dyadic m2 p2.
Proof.
  intros H. rewrite <- !dyadic_value in H. unfold dyadic in *.
  rewrite !Qred_correct in H. apply Qred_complete, H.
Qed.

Lemma signif_eq q k :
  (q == inject_Z k * 2 ^ expo q)%Q -> signif q = k.
Proof.
  intros H. unfold signif. cbv zeta. destruct (scaled_Q q (expo q)) as [Ps Es].
  apply nearest_even_eq; [exact Ps|]. rewrite Es.
  rewrite H at 1. rewrite <- Qmult_assoc, (Qmult_comm (2 ^ expo q)), pow2_opp. ring.
Qed.

(** A significand of 53 bits at most, at an exponent that is the least
    one or at which it has 53 bits, is a value of the format: rounding
    gives it back. *)
Lemma rounded_value_fixed a m p :
  0 < Qnum a -> (a == inject_Z m * 2 ^ p)%Q ->
  0 < m <= 2 ^ 53 -> -1074 <= p -> (-1074 < p -> 2 ^ 52 <= m) ->
  (rounded_value a == a)%Q.
Proof.
  intros Ha E [Hm0 Hm] Hp Hn.
  destruct (log2_Q m Hm0) as [Lo Hi]. set (L := Z.log2 m) in *.
  assert (HL : ilog2 (Qnum a) (Zpos (Qden a)) = L + p).
  { apply ilog2_unique; [exact Ha|]. rewrite E, pow2_add, pow2_succ, pow2_add.
    pose proof (pow2_pos p) as Pp. pose proof (pow2_pos L) as PL.
    set (X := (2 ^ p)%Q) in *. set (Y := (2 ^ L)%Q) in *. set (M := inject_Z m) in *.
    split; nra. }
  destruct (Z.eq_dec m (2 ^ 53)) as [E53|N53].
  - assert (EL : L = 53) by (unfold L; rewrite E53; reflexivity).
    assert (Ee : expo a = p + 1) by (unfold expo; rewrite HL; lia).
    assert (Es : signif a = 2 ^ 52).
    { apply signif_eq. rewrite Ee, E, E53, pow2_succ. rewrite !pow2_Z by lia.
      change (2 ^ 53)%Q with (2 * 2 ^ 52)%Q. ring. }
    unfold rounded_value. rewrite Es, Ee, E, E53, pow2_succ. rewrite !pow2_Z by lia.
    change (2 ^ 53)%Q with (2 * 2 ^ 52)%Q. ring.
  - assert (EL : L <= 52).
    { assert (Hlt : m < 2 ^ 53) by lia. apply Z.log2_lt_pow2 in Hlt; [unfold L; lia | exact Hm0]. }
    assert (Ee : expo a = p).
    { unfold expo. rewrite HL. destruct (Z.eq_dec p (-1074)) as [->|Np]; [lia|].
      assert (H52 : 2 ^ 52 <= m) by (apply Hn; lia).
      apply Z.log2_le_pow2 in H52; [fold L in H52; lia | exact Hm0]. }
    assert (Es : signif a = m) by (apply signif_eq; rewrite Ee; exact E).
    unfold rounded_value. rewrite Es, Ee, E. reflexivity.
Qed.

(** What rounding gives is a value of the format. *)
Lemma round64_idem q a : (0 <= q)%Q -> round64 q = Fin a -> round64 a = Fin a.
Proof.
  intros H0 Hr. apply Qnum_nonneg in H0.
  destruct (Z.eq_dec (Qnum q) 0) as [Z0|N0].
  { rewrite (round64_zero q Z0) in Hr. injection Hr as <-. reflexivity. }
  assert (Hq : 0 < Qnum q) by lia.
  rewrite (round64_pos q Hq) in Hr.
  destruct ((0 <=? expo q) && _) eqn:O; [discriminate|]. injection Hr as <-.
  pose proof (signif_nonneg q H0) as Hs0. pose proof (signif_max q Hq) as Hs.
  set (m := signif q) in *. set (p := expo q) in *.
  destruct (Z.eq_dec m 0) as [Zm|Nm].
  { rewrite Zm. assert (E0 : dyadic 0 p = 0%Q).
    { change 0%Q with (Qred 0). unfold dyadic. apply Qred_complete.
      destruct (0 <=? p); reflexivity. }
    rewrite E0. reflexivity. }
  assert (Hm : 0 < m) by lia.
  pose proof (dyadic_value m p) as Ea.
  assert (Pa : 0 < Qnum (dyadic m p)).
  { apply Qnum_pos. rewrite Ea. apply Qmult_lt_0_compat; [apply inject_pos, Hm | apply pow2_pos]. }
  assert (Hfix : (rounded_value (dyadic m p) == dyadic m p)%Q).
  { apply (rounded_value_fixed _ m p); [exact Pa | exact Ea | lia | unfold p, expo; lia|].
    intros Hn. apply signif_normal; [exact Hq|]. unfold p, expo in *. lia. }
  rewrite (round64_pos _ Pa).
  destruct ((0 <=? expo (dyadic m p)) && _) eqn:O'.
  - exfalso. apply (overflow_test _ Pa) in O'. rewrite Hfix, Ea in O'.
    assert (C : (0 <=? p) && (2 ^ 1024 <=? m * 2 ^ p) = true) by (apply (overflow_test q Hq), O').
    congruence.
  - f_equal. apply dyadic_ext. fold (rounded_value (dyadic m p)). rewrite Hfix. exact Ea.
Qed.

Lemma Qabs_nonneg_eq y : 0 <= Qnum y -> Qabs y = y.
Proof. destruct y as [n d]. simpl. intros H. rewrite Z.abs_eq by exact H. reflexivity. Qed.

Lemma Qabs_nonpos_eq y : Qnum y <= 0 -> Qabs y = (- y)%Q.
Proof.
  destruct y as [n d]. simpl. intros H. unfold Qopp. simpl.
  rewrite Z.abs_neq by exact H. reflexivity.
Qed.

Lemma Qabs_Qred x : Qabs (Qred x) = Qred (Qabs x).
Proof.
  pose proof (Qred_correct x) as E. unfold Qeq in E.
  destruct (Z_le_gt_dec 0 (Qnum x)) as [H|H].
  - rewrite (Qabs_nonneg_eq x H). apply Qabs_nonneg_eq. nia.
  - rewrite (Qabs_nonpos_eq x) by lia. rewrite Qred_opp. apply Qabs_nonpos_eq. nia.
Qed.

Lemma Qabs_dyadic m p : Qabs (dyadic m p) = dyadic (Z.abs m) p.
Proof.
  unfold dyadic. rewrite Qabs_Qred. f_equal. destruct (0 <=? p) eqn:E.
  - apply Z.leb_le in E. unfold inject_Z. simpl. rewrite Z.abs_mul.
    rewrite (Z.abs_eq (2 ^ p)) by (apply Z.pow_nonneg; lia). reflexivity.
  - reflexivity.
Qed.

(** Rounding does not look at the sign. *)
Lemma round64_abs q : abs (round64 q) = round64 (Qabs q).
Proof.
  destruct q as [n d]. unfold round64. cbn [Qabs Qnum Qden].
  rewrite Z.abs_idemp.
  destruct (Z.abs n =? 0); [reflexivity|].
  replace (Z.abs n <? 0) with false by (symmetry; apply Z.ltb_ge, Z.abs_nonneg).
  set (p := Z.max (ilog2 (Z.abs n) (Zpos d) - 52) (-1074)).
  destruct (scaled_pos (Z.abs n) (Zpos d) p (Z.abs_nonneg n) ltac:(reflexivity)) as [H1 H2].
  pose proof (nearest_even_nonneg _ _ H1 H2) as Hm.
  set (m := nearest_even _ _) in *.
  destruct ((0 <=? p) && _).
  - destruct (n <? 0); reflexivity.
  - cbn [abs]. rewrite Qabs_dyadic. destruct (n <? 0).
    + rewrite Z.abs_opp, Z.abs_eq by exact Hm. reflexivity.
    + rewrite Z.abs_eq by exact Hm. reflexivity.
Qed.

Lemma binary64_amount x : binary64 x -> amount x.
Proof. destruct x; simpl; tauto. Qed.

Lemma binary64_round64 q : (0 <= q)%Q -> binary64 (round64 q).
Proof.
  intros H. pose proof (round64_amount q H) as Ha.
  destruct (round64 q) as [| | |a] eqn:E; try exact Ha.
  split; [exact Ha | apply (round64_idem q a H E)].
Qed.

Lemma binary64_abs q : binary64 (abs (round64 q)).
Proof. rewrite round64_abs. apply binary64_round64, Qabs_nonneg. Qed.

Lemma le_amount_refl x : amount x -> le_amount x x.
Proof. destruct x; simpl; try tauto. intros _. apply Qle_refl. Qed.

Lemma le_amount_trans x y z : le_amount x y -> le_amount y z -> le_amount x z.
Proof.
  destruct x, y, z; simpl; try tauto. intros H1 H2. eapply Qle_trans; eassumption.
Qed.

(** Adding an amount to a value of the format gives one that is not
    below it. *)
Lemma add_binary64 x v :
  binary64 x -> binary64 v -> binary64 (add x v) /\ le_amount x (add x v).
Proof.
  destruct x as [| | |a], v as [| | |b]; unfold add; cbn [binary64 le_amount];
    try tauto.
  intros [Ha Fa] [Hb Fb].
  destruct (Qeq_bool b 0) eqn:Eb.
  { cbn [binary64 le_amount]. split; [split; assumption | apply Qle_refl]. }
  destruct (Qeq_bool a 0) eqn:Ea.
  { cbn [binary64 le_amount]. split; [split; assumption|].
    apply Qeq_bool_iff in Ea. rewrite Ea. exact Hb. }
  assert (Hab : (0 <= a + b)%Q).
  { apply Qle_trans with (0 + 0)%Q; [discriminate | apply Qplus_le_compat; assumption]. }
  split; [apply binary64_round64, Hab|].
  assert (Hle : (a <= a + b)%Q).
  { rewrite <- (Qplus_0_r a) at 1. apply Qplus_le_compat; [apply Qle_refl | exact Hb]. }
  pose proof (round64_mono a (a + b) Ha Hle) as Hm. rewrite Fa in Hm. exact Hm.
Qed.

Lemma binary64_zero : binary64 zero.
Proof. split; [apply Qle_refl | reflexivity]. Qed.

(** What the handler adds to an amount: a positive axis value, or the
    absolute value of another one. *)
Lemma rounded_abs v : rounded (Some v) -> isFinite v = true -> binary64 (abs v).
Proof. intros H Hf. destruct (H Hf) as [q ->]. apply binary64_abs. Qed.

Lemma rounded_positive v :
  rounded (Some v) -> isFinite v = true -> gtb v zero = true -> binary64 v.
Proof.
  intros H Hf Hg. pose proof (rounded_abs v H Hf) as Ha.
  destruct v as [| | |b]; try discriminate. simpl in Ha.
  unfold gtb, ltb, zero, of_Z in Hg. apply negb_true_iff in Hg.
  assert (Hb : (0 <= b)%Q).
  { destruct (Qlt_le_dec 0 b) as [Hq|Hq]; [apply Qlt_le_weak, Hq|].
    apply Qle_bool_iff in Hq. change (Qle_bool b 0 = false) in Hg. congruence. }
  rewrite (Qabs_nonneg_eq b) in Ha by (apply Qnum_nonneg, Hb). exact Ha.
Qed.

End NumFacts.

(** ** Facts on the counters *)

Module StoreFacts.
Import Chars Num Json Store Handler Loop Props Invariants NumFacts.

Lemma state_queueSave e w : state (queueSave e w) = state w.
Proof. unfold queueSave. destruct (saveSource w); reflexivity. Qed.

Lemma state_bumpClick e side source w :
  state (bumpClick e side source w) = click_next side source (state w).
Proof. unfold bumpClick. rewrite state_queueSave. reflexivity. Qed.

Lemma state_bumpKey e keyName w :
  state (bumpKey e keyName w) = key_next keyName (state w).
Proof. unfold bumpKey. rewrite state_queueSave. reflexivity. Qed.

(** What one [bumpClick] does to the record, source by source: the sum
    with 0 the source writes is the counter itself. *)
Lemma click_next_left_mouse s :
  click_next Left FromMouse s =
  with_leftMouse (add (leftMouse s) one) (with_left (add (left s) one) s).
Proof. unfold click_next. simpl. rewrite add_zero_r. reflexivity. Qed.

Lemma click_next_left_pad s :
  click_next Left FromTouchpad s =
  with_leftPad (add (leftPad s) one) (with_left (add (left s) one) s).
Proof. unfold click_next. simpl. rewrite add_zero_r. destruct s; reflexivity. Qed.

Lemma click_next_right_mouse s :
  click_next Right FromMouse s =
  with_rightMouse (add (rightMouse s) one) (with_right (add (right s) one) s).
Proof. unfold click_next. simpl. rewrite add_zero_r. reflexivity. Qed.

Lemma click_next_right_pad s :
  click_next Right FromTouchpad s =
  with_rightPad (add (rightPad s) one) (with_right (add (right s) one) s).
Proof. unfold click_next. simpl. rewrite add_zero_r. destruct s; reflexivity. Qed.

(** *** Click counts *)

Lemma nonneg_of_Z n : 0 <= n -> nonneg_finite (of_Z n).
Proof. intros H. simpl. unfold Qle. simpl. lia. Qed.

Lemma times_cons side c calls :
  times side (c :: calls) = (if on_side side c then 1 else 0) + times side calls.
Proof.
  unfold times. simpl. destruct (on_side side c); [|lia].
  cbn [length]. lia.
Qed.

Lemma times_nonneg side calls : 0 <= times side calls.
Proof. unfold times. lia. Qed.

(** Counters that hold integers and their sums, with room for one more
    click, hold them after the click. *)
Lemma click_next_exact side source s lm lp rm rp :
  click_counts s lm lp rm rp -> counters_nonneg s ->
  0 <= lm -> 0 <= lp -> 0 <= rm -> 0 <= rp ->
  lm + lp + match side with Left => 1 | Right => 0 end <= MAX_COUNT ->
  rm + rp + match side with Left => 0 | Right => 1 end <= MAX_COUNT ->
  exists lm' lp' rm' rp',
    click_counts (click_next side source s) lm' lp' rm' rp' /\
    counters_nonneg (click_next side source s) /\
    0 <= lm' /\ 0 <= lp' /\ 0 <= rm' /\ 0 <= rp' /\
    lm' + lp' = lm + lp + match side with Left => 1 | Right => 0 end /\
    rm' + rp' = rm + rp + match side with Left => 0 | Right => 1 end.
Proof.
  intros (H1 & H2 & H3 & H4 & H5 & H6) Hn Hlm Hlp Hrm Hrp Bl Br.
  unfold counters_nonneg, counters in Hn.
  repeat match goal with
         | H : Forall _ (_ :: _) |- _ => apply Forall_cons_1 in H; destruct H
         end.
  destruct side, source;
    [ rewrite click_next_left_mouse; exists (lm + 1), lp, rm, rp
    | rewrite click_next_left_pad; exists lm, (lp + 1), rm, rp
    | rewrite click_next_right_mouse; exists lm, lp, (rm + 1), rp
    | rewrite click_next_right_pad; exists lm, lp, rm, (rp + 1) ];
    unfold click_counts, counters_nonneg, counters; cbn -[add of_Z];
    rewrite ?H1, ?H2, ?H3, ?H4, ?H5, ?H6; unfold one;
    rewrite !add_of_Z by lia;
    (split; [repeat split; f_equal; lia|]);
    (split; [repeat constructor; cbn [snd];
             first [assumption | apply nonneg_of_Z; lia]|]);
    repeat split; lia.
Qed.

(** Integers that add up, below [MAX_COUNT], add up as numbers. *)
Lemma sums_ok_counts s lm lp rm rp :
  click_counts s lm lp rm rp -> 0 <= lm -> 0 <= lp -> 0 <= rm -> 0 <= rp ->
  lm + lp <= MAX_COUNT -> rm + rp <= MAX_COUNT -> sums_ok s.
Proof.
  intros (H1 & H2 & H3 & H4 & H5 & H6) Hlm Hlp Hrm Hrp Bl Br.
  unfold sums_ok. rewrite H1, H2, H3, H4, H5, H6, !add_of_Z by lia.
  split; simpl; reflexivity.
Qed.

Lemma clicks_exact calls :
  forall w lm lp rm rp,
    click_counts (state w) lm lp rm rp -> counters_nonneg (state w) ->
    0 <= lm -> 0 <= lp -> 0 <= rm -> 0 <= rp ->
    lm + lp + times Left calls <= MAX_COUNT ->
    rm + rp + times Right calls <= MAX_COUNT ->
    exists lm' lp' rm' rp',
      click_counts (state (clicks calls w)) lm' lp' rm' rp' /\
      counters_nonneg (state (clicks calls w)) /\
      0 <= lm' /\ 0 <= lp' /\ 0 <= rm' /\ 0 <= rp' /\
      lm' + lp' = lm + lp + times Left calls /\
      rm' + rp' = rm + rp + times Right calls.
Proof.
  induction calls as [|[[e side] source] calls IH];
    intros w lm lp rm rp Hc Hn Hlm Hlp Hrm Hrp Bl Br.
  - exists lm, lp, rm, rp. unfold times. simpl.
    split; [exact Hc|]. split; [exact Hn|]. repeat split; lia.
  - rewrite times_cons in Bl, Br. rewrite !times_cons.
    pose proof (times_nonneg Left calls). pose proof (times_nonneg Right calls).
    assert (El : (if on_side Left (e, side, source) then 1 else 0) =
                 match side with Left => 1 | Right => 0 end) by (destruct side; reflexivity).
    assert (Er : (if on_side Right (e, side, source) then 1 else 0) =
                 match side with Left => 0 | Right => 1 end) by (destruct side; reflexivity).
    rewrite El in *. rewrite Er in *.
    destruct (click_next_exact side source (state w) lm lp rm rp Hc Hn Hlm Hlp Hrm Hrp)
      as (lm1 & lp1 & rm1 & rp1 & Hc1 & Hn1 & P1 & P2 & P3 & P4 & S1 & S2);
      [destruct side; lia | destruct side; lia |].
    simpl. rewrite <- (state_bumpClick e side source w) in Hc1, Hn1.
    destruct (IH (bumpClick e side source w) lm1 lp1 rm1 rp1 Hc1 Hn1 P1 P2 P3 P4)
      as (lm2 & lp2 & rm2 & rp2 & Hc2 & Hn2 & Q1 & Q2 & Q3 & Q4 & T1 & T2);
      [lia | lia |].
    exists lm2, lp2, rm2, rp2.
    split; [exact Hc2|]. split; [exact Hn2|]. repeat split; lia.
Qed.

(** C2, as binary64 has it. From a valid record whose click counters are
    integers, a sequence of [bumpClick] calls that takes neither total
    past [MAX_COUNT] leads to a record whose counters are still finite
    and not negative, in which [left] is [leftMouse + leftPad] and
    [right] is [rightMouse + rightPad], each total having grown by the
    number of calls on its side; one call adds 1 to the total of its
    side and to the counter of its source on that side, and leaves the
    other source, the other side and every other field as they were. *)
Theorem C2_click_sums (w : World) (calls : list (Env * Side * Source))
  (lm lp rm rp : Z) :
  valid (state w) -> click_counts (state w) lm lp rm rp ->
  0 <= lm -> 0 <= lp -> 0 <= rm -> 0 <= rp ->
  lm + lp + times Left calls <= MAX_COUNT ->
  rm + rp + times Right calls <= MAX_COUNT ->
  sums_ok (state (clicks calls w)) /\
  counters_nonneg (state (clicks calls w)) /\
  left (state (clicks calls w)) = of_Z (lm + lp + times Left calls) /\
  right (state (clicks calls w)) = of_Z (rm + rp + times Right calls) /\
  forall e w',
    let s := state w' in
    state (bumpClick e Left FromMouse w') =
      with_leftMouse (add (leftMouse s) one) (with_left (add (left s) one) s) /\
    state (bumpClick e Left FromTouchpad w') =
      with_leftPad (add (leftPad s) one) (with_left (add (left s) one) s) /\
    state (bumpClick e Right FromMouse w') =
      with_rightMouse (add (rightMouse s) one) (with_right (add (right s) one) s) /\
    state (bumpClick e Right FromTouchpad w') =
      with_rightPad (add (rightPad s) one) (with_right (add (right s) one) s).
Proof.
  intros [Hn _] Hc Hlm Hlp Hrm Hrp Bl Br.
  destruct (clicks_exact calls w lm lp rm rp Hc Hn Hlm Hlp Hrm Hrp Bl Br)
    as (lm' & lp' & rm' & rp' & Hc' & Hn' & P1 & P2 & P3 & P4 & S1 & S2).
  split; [apply (sums_ok_counts _ lm' lp' rm' rp'); auto; lia|].
  split; [exact Hn'|].
  destruct Hc' as (_ & _ & Hl & _ & _ & Hr).
  split; [rewrite Hl, S1; reflexivity|].
  split; [rewrite Hr, S2; reflexivity|].
  intros e w' s. rewrite !state_bumpClick.
  auto using click_next_left_mouse, click_next_left_pad,
    click_next_right_mouse, click_next_right_pad.
Qed.

(** *** Key counts *)

Lemma total_empty : total ∅ = 0.
Proof. unfold total. apply map_fold_empty. Qed.

Lemma total_insert (m : gmap string Z) k n :
  m !! k = None -> total (<[k := n]> m) = total m + n.
Proof.
  intros Hk. unfold total.
  rewrite map_fold_insert_L; [reflexivity | | exact Hk].
  intros. lia.
Qed.

Lemma total_delete (m : gmap string Z) k n :
  m !! k = Some n -> total m = total (delete k m) + n.
Proof.
  intros Hk. rewrite <- (total_insert (delete k m) k n).
  - rewrite insert_delete_id; [reflexivity | exact Hk].
  - apply lookup_delete_eq.
Qed.

Lemma total_nonneg (m : gmap string Z) :
  map_Forall (fun _ n => 0 <= n) m -> 0 <= total m.
Proof.
  induction m as [|k n m Hk IH] using map_ind; intros H.
  - rewrite total_empty. lia.
  - rewrite total_insert by exact Hk.
    apply map_Forall_insert in H as [Hn Hm]; [|exact Hk].
    specialize (IH Hm). lia.
Qed.

(** A value of a map of integers that are not negative is its sum at
    most. *)
Lemma lookup_le_total (m : gmap string Z) k n :
  map_Forall (fun _ n => 0 <= n) m -> m !! k = Some n -> n <= total m.
Proof.
  intros H Hk. rewrite (total_delete m k n Hk).
  assert (0 <= total (delete k m)); [|lia].
  apply total_nonneg. intros k' n' Hk'.
  apply lookup_delete_Some in Hk' as [_ Hk']. apply (H k' n' Hk').
Qed.

(** Replacing the count of a key changes the sum by the difference. *)
Lemma total_replace (m : gmap string Z) k n :
  total (<[k := n]> m) = total m - default 0 (m !! k) + n.
Proof.
  destruct (m !! k) as [v|] eqn:Hk; simpl.
  - rewrite <- (insert_delete_eq m), total_insert by apply lookup_delete_eq.
    rewrite (total_delete m k v Hk). lia.
  - rewrite total_insert by exact Hk. lia.
Qed.

Lemma positive_nonneg (m : gmap string Z) :
  map_Forall (fun _ n => 0 < n) m -> map_Forall (fun _ n => 0 <= n) m.
Proof. intros H k n Hk. specialize (H k n Hk). simpl in H. lia. Qed.

Lemma key_counts_default e : key_counts (defaultState e) ∅.
Proof.
  split; [|split]; simpl.
  - rewrite fmap_empty. reflexivity.
  - apply map_Forall_empty.
  - rewrite total_empty. reflexivity.
Qed.

(** With its sum below [MAX_COUNT], a record of integer key counts is
    one after a key is counted: the count of the key is 1 more, a new
    key counts 1, and [keys] is 1 more. *)
Lemma key_counts_next k s m :
  key_counts s m -> total m < MAX_COUNT ->
  key_counts (key_next k s) (<[k := default 0 (m !! k) + 1]> m) /\
  total (<[k := default 0 (m !! k) + 1]> m) = total m + 1.
Proof.
  intros (Hkc & Hpos & Hk) Hlt.
  pose proof (positive_nonneg m Hpos) as Hnn.
  pose proof (total_nonneg m Hnn) as Ht.
  assert (Hv : 0 <= default 0 (m !! k) <= total m).
  { destruct (m !! k) as [v|] eqn:E; simpl; [|lia].
    split; [apply (Hnn k v E) | apply (lookup_le_total m k v Hnn E)]. }
  split; [|rewrite total_replace; lia].
  split; [|split]; simpl.
  - rewrite Hkc, fmap_insert, lookup_fmap. f_equal.
    destruct (m !! k) as [v|] eqn:E; simpl in *; unfold one, zero;
      rewrite add_of_Z by lia; reflexivity.
  - apply map_Forall_insert_2; [lia | exact Hpos].
  - rewrite Hk. unfold one. rewrite add_of_Z by lia.
    f_equal. rewrite total_replace. lia.
Qed.

Lemma presses_exact calls :
  forall w m,
    key_counts (state w) m -> total m + Z.of_nat (length calls) <= MAX_COUNT ->
    exists m', key_counts (state (presses calls w)) m' /\
               total m' = total m + Z.of_nat (length calls).
Proof.
  induction calls as [|[e k] calls IH]; intros w m Hm Hb.
  - exists m. split; [exact Hm | simpl; lia].
  - cbn [length] in Hb. rewrite Nat2Z.inj_succ in Hb.
    destruct (key_counts_next k (state w) m Hm) as [H1 H2]; [lia|].
    simpl. rewrite <- (state_bumpKey e k w) in H1.
    destruct (IH (bumpKey e k w) _ H1) as [m' [Hm' Ht]]; [lia|].
    exists m'. split; [exact Hm'|]. cbn [length]. lia.
Qed.

(** C9, as binary64 has it. From the default record, a sequence of
    [MAX_COUNT] [bumpKey] calls at most, under names the module builds,
    leads to a record in which [keys] is the number of calls and the sum
    of the values of [keyCounts], every value of [keyCounts] being a
    positive integer; one [bumpKey] call keeps that as long as [keys] is
    below [MAX_COUNT]. *)
Theorem C9_key_totals (e0 : Env) (w : World) (calls : list (Env * string)) :
  state w = defaultState e0 ->
  Forall (fun c => key_name_ok c.2) calls ->
  Z.of_nat (length calls) <= MAX_COUNT ->
  keys_inv (state (presses calls w)) /\
  keys (state (presses calls w)) = of_Z (Z.of_nat (length calls)) /\
  forall e k w' m,
    key_name_ok k -> key_counts (state w') m -> total m < MAX_COUNT ->
    keys_inv (state (bumpKey e k w')) /\
    keys (state (bumpKey e k w')) = of_Z (total m + 1).
Proof.
  intros Hw _ Hb.
  destruct (presses_exact calls w ∅) as [m' [Hm' Ht]].
  { rewrite Hw. apply key_counts_default. }
  { rewrite total_empty. lia. }
  rewrite total_empty in Ht.
  split; [exists m'; exact Hm'|].
  split; [destruct Hm' as (_ & _ & ->); f_equal; lia|].
  intros e k w' m _ Hm Hlt. rewrite state_bumpKey.
  destruct (key_counts_next k (state w') m Hm Hlt) as [H1 H2].
  split; [eexists; exact H1|].
  destruct H1 as (_ & _ & ->). f_equal. exact H2.
Qed.

(** *** Day change and save debounce *)

(** C5. When [ensureToday] runs on a record whose date is not the
    current day, the record becomes the record of a new day (today's
    date, the current time, every counter 0, no key count), whatever the
    old record held, and that record is written at once: the write does
    not wait for the save timeout, which is left as it was. *)
Theorem C5_day_change (e : Env) (w : World) :
  date (state w) <> todayKey e ->
  state (ensureToday e w) = fresh e /\
  saved (ensureToday e w) = saved w ++ [fresh e] /\
  saveSource (ensureToday e w) = saveSource w /\
  deviceTypes (ensureToday e w) = deviceTypes w /\
  pressedByEvent (ensureToday e w) = pressedByEvent w.
Proof.
  intros Hd. unfold ensureToday.
  destruct (String.eqb (date (state w)) (todayKey e)) eqn:E.
  - apply String.eqb_eq in E. contradiction.
  - repeat split.
Qed.







End StoreFacts.

(** ** Facts on loading *)

Module LoadFacts.
Import Chars Num Json Store Handler Loop Props Invariants NumFacts.

Lemma toNumber_finite v n : toNumber v = Some n -> isFinite n = true.
Proof.
  unfold toNumber. destruct (Number_ v) as [x|]; [|discriminate]. simpl.
  destruct (isFinite x) eqn:E; intros [= <-]; [exact E | reflexivity].
Qed.

Lemma toNumber_keeps v n :
  Number_ v = Some n -> isFinite n = true -> toNumber v = Some n.
Proof. intros H Hf. unfold toNumber. rewrite H. simpl. rewrite Hf. reflexivity. Qed.

Lemma toNumber_zero v n :
  Number_ v = Some n -> isFinite n = false -> toNumber v = Some zero.
Proof. intros H Hf. unfold toNumber. rewrite H. simpl. rewrite Hf. reflexivity. Qed.

Lemma toNumber_throws v : toNumber v = None <-> throws v = true.
Proof.
  unfold toNumber, throws. destruct (Number_ v); simpl; split; congruence.
Qed.

Lemma toNumber_returns v : throws v = false -> exists n, toNumber v = Some n.
Proof.
  intros H. destruct (toNumber v) as [n|] eqn:E; [eauto|].
  apply toNumber_throws in E. congruence.
Qed.

(** A positive [toNumber] is the value of a finite positive [Number]. *)
Lemma toNumber_positive v n :
  toNumber v = Some n /\ gtb n zero = true <->
  Number_ v = Some n /\ isFinite n = true /\ gtb n zero = true.
Proof.
  unfold toNumber. destruct (Number_ v) as [x|]; simpl;
    [|split; intros [H _]; discriminate H].
  destruct (isFinite x) eqn:E; split.
  - intros [[= <-] H]. auto.
  - intros [[= <-] [_ H]]. auto.
  - intros [[= <-] H]. discriminate.
  - intros [[= <-] [H _]]. congruence.
Qed.

(** *** The record of today *)

(** What [normalizeState] computes on a record of today. *)
Lemma normalizeState_today e raw :
  dated_today e raw = true ->
  normalizeState e raw =
  (left' ← toNumber (get raw "left");
   right' ← toNumber (get raw "right");
   keys' ← toNumber (get raw "keys");
   leftMouse' ← toNumber (get raw "leftMouse");
   rightMouse' ← toNumber (get raw "rightMouse");
   leftPad' ← toNumber (get raw "leftPad");
   rightPad' ← toNumber (get raw "rightPad");
   scrollUp' ← toNumber (get raw "scrollUp");
   scrollDown' ← toNumber (get raw "scrollDown");
   scrollLeft' ← toNumber (get raw "scrollLeft");
   scrollRight' ← toNumber (get raw "scrollRight");
   keyCounts' ← normalizeKeyCounts (get raw "keyCounts");
   Some {| date := todayKey e;
           startedAt :=
             match get raw "startedAt" with
             | VNum n => if gtb n zero then n else of_Z (now e)
             | _ => of_Z (now e)
             end;
           left := left';
           right := right';
           keys := keys';
           leftMouse := leftMouse';
           rightMouse := rightMouse';
           leftPad := leftPad';
           rightPad := rightPad';
           scrollUp := scrollUp';
           scrollDown := scrollDown';
           scrollLeft := scrollLeft';
           scrollRight := scrollRight';
           keyCounts := keyCounts' |}).
Proof.
  unfold dated_today, normalizeState. intros H.
  apply andb_prop in H as [H Hd]. apply andb_prop in H as [Hr Ht].
  rewrite Hr, Ht, Hd. cbn [negb orb].
  destruct (get raw "date") as [| | | |d| |]; simpl in Hd; try discriminate.
  apply String.eqb_eq in Hd. cbn [string_of]. rewrite Hd. reflexivity.
Qed.

Lemma normalizeState_rejected e raw :
  dated_today e raw = false -> normalizeState e raw = Some (defaultState e).
Proof.
  unfold dated_today, normalizeState. intros H.
  destruct (truthy raw); simpl in *; [|reflexivity].
  destruct (truthy (get raw "date")); simpl in *; [|reflexivity].
  rewrite H. reflexivity.
Qed.

(** *** Key counts *)

Lemma fold_keep_None (l : list (string * value)) :
  fold_left (fun acc entry => out ← acc; keep_positive out entry) l None = None.
Proof. induction l as [|x l IH]; [reflexivity | exact IH]. Qed.

(** The loop of [normalizeKeyCounts] throws exactly when [Number] throws
    on one of the values. *)
Lemma fold_keep_throws (l : list (string * value)) acc :
  existsb (fun entry => throws entry.2) l = true ->
  fold_left (fun acc entry => out ← acc; keep_positive out entry) l acc = None.
Proof.
  revert acc. induction l as [|[k v] l IH]; intros acc H; [discriminate|].
  simpl in H. cbn [fold_left].
  destruct (throws v) eqn:Ev.
  - apply toNumber_throws in Ev.
    destruct acc as [out|]; [|apply fold_keep_None].
    unfold keep_positive at 2. cbn [fst snd]. rewrite Ev. apply fold_keep_None.
  - apply IH. exact H.
Qed.

Lemma lookup_assign k k' n (out : gmap string number) :
  assign k n out !! k' =
  if String.eqb k "__proto__" then out !! k'
  else if String.eqb k k' then Some n else out !! k'.
Proof.
  unfold assign. destruct (String.eqb k "__proto__"); [reflexivity|].
  destruct (String.eqb k k') eqn:E.
  - apply String.eqb_eq in E. subst. apply lookup_insert_eq.
  - apply String.eqb_neq in E. apply lookup_insert_ne, E.
Qed.

(** When nothing throws, the loop keeps the entries whose number is
    greater than 0, but for one named [__proto__]. *)
Lemma fold_keep_returns (l : list (string * value)) :
  NoDup (fmap fst l) ->
  existsb (fun entry => throws entry.2) l = false ->
  exists out,
    fold_left (fun acc entry => out ← acc; keep_positive out entry) l (Some ∅)
    = Some out /\
    forall k n,
      out !! k = Some n <->
      k <> "__proto__" /\
      exists v, In (k, v) l /\ toNumber v = Some n /\ gtb n zero = true.
Proof.
  induction l as [|[k0 v0] l IH] using rev_ind; intros Hnd Hth.
  - exists ∅. split; [reflexivity|]. intros k n. rewrite lookup_empty.
    split; [discriminate | intros [_ [v [[] _]]]].
  - rewrite fmap_app in Hnd. apply NoDup_app in Hnd as [Hnd [Hfresh _]].
    rewrite existsb_app in Hth. apply orb_false_iff in Hth as [Hth Hv0].
    simpl in Hv0. rewrite orb_false_r in Hv0.
    destruct (IH Hnd Hth) as [out [Hout Hlk]].
    destruct (toNumber_returns v0 Hv0) as [n0 Hn0].
    exists (if gtb n0 zero then assign k0 n0 out else out).
    split.
    { rewrite fold_left_app, Hout. cbn [fold_left mbind option_bind].
      unfold keep_positive. cbn [fst snd]. rewrite Hn0. reflexivity. }
    intros k n. split.
    + intros H. destruct (gtb n0 zero) eqn:Hg.
      * rewrite lookup_assign in H.
        destruct (String.eqb k0 "__proto__") eqn:Ep.
        -- apply Hlk in H as [Hk [v [Hin Hv]]]. split; [exact Hk|].
           exists v. split; [apply in_or_app; left; exact Hin | exact Hv].
        -- destruct (String.eqb k0 k) eqn:Ek.
           ++ apply String.eqb_eq in Ek. subst k0. injection H as <-.
              apply String.eqb_neq in Ep. split; [exact Ep|].
              exists v0. split; [apply in_or_app; right; left; reflexivity | auto].
           ++ apply Hlk in H as [Hk [v [Hin Hv]]]. split; [exact Hk|].
              exists v. split; [apply in_or_app; left; exact Hin | exact Hv].
      * apply Hlk in H as [Hk [v [Hin Hv]]]. split; [exact Hk|].
        exists v. split; [apply in_or_app; left; exact Hin | exact Hv].
    + intros [Hk [v [Hin [Hv Hg]]]]. apply in_app_or in Hin as [Hin|[Heq|[]]].
      * assert (Hne : k0 <> k).
        { intros ->. apply (Hfresh k).
          - apply list_elem_of_In. change k with (fst (k, v)). apply in_map, Hin.
          - simpl. left. }
        assert (Hl : out !! k = Some n) by (apply Hlk; split; [exact Hk|]; exists v; auto).
        destruct (gtb n0 zero); [|exact Hl].
        rewrite lookup_assign. destruct (String.eqb k0 "__proto__"); [exact Hl|].
        apply String.eqb_neq in Hne. rewrite Hne. exact Hl.
      * injection Heq as -> ->. rewrite Hv in Hn0. injection Hn0 as <-.
        rewrite Hg, lookup_assign.
        apply String.eqb_neq in Hk. rewrite Hk, String.eqb_refl. reflexivity.
Qed.

Lemma entries_NoDup v : NoDup (fmap fst (entries v)).
Proof.
  destruct v as [| | | | |l|m]; simpl; try constructor.
  - rewrite fst_zip by (rewrite length_fmap, length_seq; lia).
    apply NoDup_fmap_2; [apply _ | apply NoDup_seq].
  - apply NoDup_fst_map_to_list.
Qed.

Lemma normalizeKeyCounts_throws v :
  existsb (fun entry => throws entry.2) (entries v) = true ->
  normalizeKeyCounts v = None.
Proof.
  intros H. unfold normalizeKeyCounts.
  destruct (negb (truthy v) || negb (is_object v)) eqn:E.
  - destruct v; simpl in *; discriminate.
  - apply fold_keep_throws, H.
Qed.

Lemma normalizeKeyCounts_returns v :
  existsb (fun entry => throws entry.2) (entries v) = false ->
  exists out,
    normalizeKeyCounts v = Some out /\
    forall k n,
      out !! k = Some n <->
      k <> "__proto__" /\
      exists x, In (k, x) (entries v) /\ toNumber x = Some n /\ gtb n zero = true.
Proof.
  intros H. unfold normalizeKeyCounts.
  destruct (negb (truthy v) || negb (is_object v)) eqn:E.
  - exists ∅. split; [reflexivity|]. intros k n. rewrite lookup_empty.
    split; [discriminate|].
    intros [_ [x [Hin _]]]. destruct v; simpl in *; try contradiction; discriminate.
  - apply fold_keep_returns; [apply entries_NoDup | exact H].
Qed.

(** *** Accepted and refused records *)

(** An accepted record is loaded field by field. *)
Lemma normalizeState_accepted e raw :
  accepted e raw = true ->
  exists s,
    normalizeState e raw = Some s /\
    date s = todayKey e /\
    startedAt s =
      match get raw "startedAt" with
      | VNum n => if gtb n zero then n else of_Z (now e)
      | _ => of_Z (now e)
      end /\
    map (fun c => (c.1, Some c.2)) (counters s) =
      map (fun name => (name, toNumber (get raw name))) counter_names /\
    normalizeKeyCounts (get raw "keyCounts") = Some (keyCounts s).
Proof.
  unfold accepted, poisoned. intros H.
  apply andb_prop in H as [Hd Hp]. apply negb_true_iff, orb_false_iff in Hp as [Hc Hk].
  rewrite (normalizeState_today e raw Hd).
  cbn [existsb counter_names] in Hc. cbn [map counter_names].
  repeat match goal with
         | H : _ || _ = false |- _ => apply orb_false_iff in H as [? ?]
         end.
  repeat match goal with
         | H : throws (get raw ?name) = false |- _ =>
             destruct (toNumber_returns _ H) as [? ->]; clear H
         end.
  destruct (normalizeKeyCounts_returns _ Hk) as [out [-> _]].
  cbn [mbind option_bind]. eexists. split; [reflexivity|]. repeat split.
Qed.

(** A record of today on which [Number] throws is not loaded. *)
Lemma normalizeState_poisoned e raw :
  dated_today e raw = true -> poisoned raw = true -> normalizeState e raw = None.
Proof.
  intros Hd Hp. rewrite (normalizeState_today e raw Hd).
  unfold poisoned in Hp. cbn [existsb counter_names] in Hp.
  repeat match goal with
         | |- context [toNumber (get raw ?name)] =>
             let E := fresh "E" in
             destruct (toNumber (get raw name)) eqn:E;
             [cbn [mbind option_bind];
              assert (throws (get raw name) = false)
                by (destruct (throws (get raw name)) eqn:T;
                    [apply toNumber_throws in T; congruence | reflexivity]);
              clear E
             |reflexivity]
         end.
  repeat match goal with H : throws _ = false |- _ => rewrite H in Hp; clear H end.
  cbn [orb] in Hp. rewrite (normalizeKeyCounts_throws _ Hp). reflexivity.
Qed.

Lemma loadState_refused e contents raw :
  JSON_parse (decode contents) = Some raw -> accepted e raw = false ->
  loadState e (ReadOk contents) = defaultState e.
Proof.
  intros Hp Ha. simpl. rewrite Hp. unfold accepted in Ha.
  destruct (dated_today e raw) eqn:Hd.
  - simpl in Ha. apply negb_false_iff in Ha.
    rewrite (normalizeState_poisoned e raw Hd Ha). reflexivity.
  - rewrite (normalizeState_rejected e raw Hd). reflexivity.
Qed.

Lemma counters_finite_default e : counters_finite (defaultState e).
Proof. unfold counters_finite, counters. repeat constructor. Qed.

Lemma counters_finite_loadState e file : counters_finite (loadState e file).
Proof.
  destruct file as [|contents]; simpl; [apply counters_finite_default|].
  destruct (JSON_parse (decode contents)) as [raw|] eqn:Hp;
    [|apply counters_finite_default].
  destruct (accepted e raw) eqn:Ha.
  - destruct (normalizeState_accepted e raw Ha) as (s & -> & _ & _ & Hc & _). simpl.
    unfold counters_finite, counters, finite in *. cbn [map counter_names] in Hc.
    injection Hc as H1 H2 H3 H4 H5 H6 H7 H8 H9 H10 H11.
    repeat constructor; simpl; eapply toNumber_finite; symmetry; eassumption.
  - pose proof (loadState_refused e contents raw Hp Ha) as H. simpl in H.
    rewrite Hp in H. rewrite H. apply counters_finite_default.
Qed.

(** C3, as the loader has it. Every counter of the record [loadState]
    returns is finite.  For a stored record of today on which [Number]
    does not throw, each counter is [toNumber] of the stored value: a
    stored value whose [Number] is finite is returned as it is, a
    negative number included, and any other stored value is returned as
    0.  A record that is not of today, and a record of today on which
    [Number] throws, are replaced by the default record. *)
Theorem C3_load_counters_finite (e : Env) (file : FileRead) :
  counters_finite (loadState e file) /\
  (forall contents raw,
      file = ReadOk contents -> JSON_parse (decode contents) = Some raw ->
      (accepted e raw = true ->
       map (fun c => (c.1, Some c.2)) (counters (loadState e file)) =
       map (fun name => (name, toNumber (get raw name))) counter_names) /\
      (accepted e raw = false -> loadState e file = defaultState e)) /\
  (forall v n, Number_ v = Some n -> isFinite n = true -> toNumber v = Some n) /\
  (forall q, toNumber (VNum (Fin q)) = Some (Fin q)) /\
  (forall v n, Number_ v = Some n -> isFinite n = false -> toNumber v = Some zero) /\
  (forall v, Number_ v = None -> toNumber v = None).
Proof.
  split; [apply counters_finite_loadState|].
  split; [|split; [apply toNumber_keeps | split; [reflexivity
          | split; [apply toNumber_zero|]]]].
  - intros contents raw -> Hp. split; intros Ha.
    + simpl. rewrite Hp.
      destruct (normalizeState_accepted e raw Ha) as (s & -> & _ & _ & Hc & _).
      exact Hc.
    + apply (loadState_refused e contents raw Hp Ha).
  - intros v H. unfold toNumber. rewrite H. reflexivity.
Qed.

Lemma keyCounts_accepted (e : Env) (contents : string) (raw : value) :
  JSON_parse (decode contents) = Some raw -> accepted e raw = true ->
  (forall k n,
      k <> "__proto__" ->
      (keyCounts (loadState e (ReadOk contents)) !! k = Some n <->
       exists v, In (k, v) (entries (get raw "keyCounts")) /\
                 Number_ v = Some n /\ isFinite n = true /\ gtb n zero = true)) /\
  keyCounts (loadState e (ReadOk contents)) !! "__proto__" = None /\
  (forall k n,
      keyCounts (loadState e (ReadOk contents)) !! k = Some n ->
      isFinite n = true /\ gtb n zero = true).
Proof.
  intros Hp Ha. simpl. rewrite Hp.
  destruct (normalizeState_accepted e raw Ha) as (s & -> & _ & _ & _ & Hk). simpl.
  assert (Hth : existsb (fun entry => throws entry.2) (entries (get raw "keyCounts")) = false).
  { unfold accepted, poisoned in Ha. apply andb_prop in Ha as [_ Ha].
    apply negb_true_iff, orb_false_iff in Ha as [_ Ha]. exact Ha. }
  destruct (normalizeKeyCounts_returns _ Hth) as [out [Hout Hlk]].
  rewrite Hk in Hout. injection Hout as ->.
  split; [|split].
  - intros k n Hne. rewrite Hlk. split.
    + intros [_ [v [Hin Hv]]]. exists v. split; [exact Hin | apply toNumber_positive, Hv].
    + intros [v [Hin Hv]]. split; [exact Hne|]. exists v.
      split; [exact Hin | apply toNumber_positive, Hv].
  - destruct (out !! "__proto__") as [n|] eqn:E; [|reflexivity].
    apply Hlk in E as [Hne _]. contradiction.
  - intros k n Hkn. apply Hlk in Hkn as [_ [v [_ Hv]]].
    apply toNumber_positive in Hv as [_ Hv]. exact Hv.
Qed.

(** C8, as the loader has it. For a stored record of today that
    [loadState] accepts, the loaded [keyCounts] holds a key other than
    [__proto__] with a value exactly when the stored [keyCounts] has an
    entry of that key whose [Number] is that value, finite and greater
    than 0; it holds nothing under [__proto__]; hence every loaded value
    is finite and greater than 0. *)
Theorem C8_loaded_key_counts (e : Env) (contents : string) (raw : value) :
  JSON_parse (decode contents) = Some raw -> accepted e raw = true ->
  (forall k n,
      k <> "__proto__" ->
      (keyCounts (loadState e (ReadOk contents)) !! k = Some n <->
       exists v, In (k, v) (entries (get raw "keyCounts")) /\
                 Number_ v = Some n /\ isFinite n = true /\ gtb n zero = true)) /\
  keyCounts (loadState e (ReadOk contents)) !! "__proto__" = None /\
  (forall k n,
      keyCounts (loadState e (ReadOk contents)) !! k = Some n ->
      isFinite n = true /\ gtb n zero = true).
Proof. apply keyCounts_accepted. Qed.

(** C10. For a stored record of today that [loadState] accepts, the
    stored [startedAt] is kept when it is a number greater than 0; in
    every other case, and for a record [loadState] does not accept, the
    loaded [startedAt] is the time of the load.  With a clock after the
    epoch, the loaded [startedAt] is greater than 0. *)
Theorem C10_loaded_startedAt (e : Env) (contents : string) (raw : value) :
  JSON_parse (decode contents) = Some raw ->
  (accepted e raw = true ->
   (forall n, get raw "startedAt" = VNum n -> gtb n zero = true ->
              startedAt (loadState e (ReadOk contents)) = n) /\
   ((forall n, get raw "startedAt" = VNum n -> gtb n zero = false) ->
    startedAt (loadState e (ReadOk contents)) = of_Z (now e))) /\
  (accepted e raw = false ->
   startedAt (loadState e (ReadOk contents)) = of_Z (now e)) /\
  (0 < now e -> gtb (startedAt (loadState e (ReadOk contents))) zero = true).
Proof.
  intros Hp.
  assert (Hr : accepted e raw = false ->
               startedAt (loadState e (ReadOk contents)) = of_Z (now e)).
  { intros Ha. rewrite (loadState_refused e contents raw Hp Ha). reflexivity. }
  assert (Hs : accepted e raw = true ->
               startedAt (loadState e (ReadOk contents)) =
               match get raw "startedAt" with
               | VNum n => if gtb n zero then n else of_Z (now e)
               | _ => of_Z (now e)
               end).
  { intros Ha. simpl. rewrite Hp.
    destruct (normalizeState_accepted e raw Ha) as (s & -> & _ & H & _). exact H. }
  split; [|split; [exact Hr|]].
  - intros Ha. rewrite (Hs Ha). split.
    + intros n -> Hn. rewrite Hn. reflexivity.
    + intros H. destruct (get raw "startedAt") as [| | |n| | |]; try reflexivity.
      rewrite (H n eq_refl). reflexivity.
  - intros Hnow. destruct (accepted e raw) eqn:Ha.
    + rewrite (Hs eq_refl).
      destruct (get raw "startedAt") as [| | |n| | |];
        try (apply gtb_zero_of_Z, Hnow).
      destruct (gtb n zero) eqn:Hn; [exact Hn | apply gtb_zero_of_Z, Hnow].
    + rewrite (Hr eq_refl). apply gtb_zero_of_Z, Hnow.
Qed.

End LoadFacts.

(** ** Facts on the line handler *)

Module HandlerFacts.
Import Chars Num Json Store Handler Loop Props Invariants NumFacts StoreFacts.

Ltac split_andb :=
  repeat match goal with
         | H : _ && _ = true |- _ => apply andb_prop in H as [? ?]
         | H : negb _ = true |- _ => apply negb_true_iff in H
         end.

Lemma deviceTypes_queueSave e w : deviceTypes (queueSave e w) = deviceTypes w.
Proof. unfold queueSave. destruct (saveSource w); reflexivity. Qed.

Lemma pressedByEvent_queueSave e w : pressedByEvent (queueSave e w) = pressedByEvent w.
Proof. unfold queueSave. destruct (saveSource w); reflexivity. Qed.

Lemma source_for_bumpClick e side source w id :
  source_for (bumpClick e side source w) id = source_for w id.
Proof. unfold source_for, bumpClick. rewrite deviceTypes_queueSave. reflexivity. Qed.

Lemma flags_bumpClick e side source w id :
  flags (bumpClick e side source w) id = flags w id.
Proof. unfold flags, bumpClick. rewrite pressedByEvent_queueSave. reflexivity. Qed.

Lemma flags_set_pressed id p w : flags (set_pressed id p w) id = p.
Proof. unfold flags, set_pressed. simpl. rewrite lookup_insert_eq. reflexivity. Qed.

(** The textual branches, as one equation: the two device branches
    return, the five others follow one another. *)
Lemma onLine_textual e text w :
  textual text = true ->
  onLine e text w =
  if test_ci "DEVICE_ADDED" text
  then set_deviceType (eventId text) (classifyDevice text) w
  else if test_ci "DEVICE_REMOVED" text then forget_device (eventId text) w
  else
    when (isKey text) (onKey e text)
      (when (isHold text) (onHold e text)
         (when (isTap text) (onTap e text)
            (when (isButton text) (onButton e text (eventId text))
               (when (isScroll text) (onScroll e text) w)))).
Proof.
  unfold textual. intros H. split_andb.
  match goal with H : String.eqb (trim text) text = true |- _ =>
    apply String.eqb_eq in H; rename H into Htrim end.
  unfold onLine. cbv zeta. rewrite Htrim.
  repeat match goal with H : _ = false |- _ => rewrite H end.
  reflexivity.
Qed.

(** A release of the left button: a click when no press is recorded, and
    the flag is cleared. *)
Lemma onButton_left_release e text id w :
  test_ci "pressed" text = false -> test_ci "released" text = true ->
  test_ci "BTN_LEFT" text = true ->
  onButton e text id w =
  set_pressed id (mkPressed false (pressed_right (flags w id)))
    (if negb (pressed_left (flags w id))
     then bumpClick e Left (source_for w id) w else w).
Proof.
  intros Hp Hr Hl. unfold onButton. cbv zeta. rewrite Hp, Hr, Hl. reflexivity.
Qed.

Lemma onLine_left_released e text w :
  left_released text = true ->
  onLine e text w =
  set_pressed (eventId text) (mkPressed false (pressed_right (flags w (eventId text))))
    (if negb (pressed_left (flags w (eventId text)))
     then bumpClick e Left (source_for w (eventId text)) w else w).
Proof.
  unfold left_released, button_line. intros H. split_andb.
  rewrite onLine_textual by (unfold textual; repeat (apply andb_true_intro; split);
                              try assumption; apply negb_true_iff; assumption).
  unfold isButton, isKey.
  repeat match goal with H : _ = false |- _ => rewrite H end.
  repeat match goal with H : _ = true |- _ => rewrite H end.
  rewrite ?andb_false_r. simpl. unfold when.
  apply onButton_left_release; assumption.
Qed.

(** C1, as the handler has it. A [POINTER_BUTTON BTN_LEFT released] line
    read while the press flag of its device is false counts one left
    click and leaves the flag false; a second such line for the same
    device, read next, finds the flag false again and counts one more
    left click.  A release counts nothing only when the flag is true,
    that is after a recorded press, and it clears the flag. *)
Theorem C1_release_without_press (e1 e2 : Env) (text1 text2 : string) (w : World) :
  left_released text1 = true -> left_released text2 = true ->
  eventId text2 = eventId text1 ->
  pressed_left (flags w (eventId text1)) = false ->
  let id := eventId text1 in
  let w1 := onLine e1 text1 w in
  let w2 := onLine e2 text2 w1 in
  state w1 = click_next Left (source_for w id) (state w) /\
  pressed_left (flags w1 id) = false /\
  state w2 = click_next Left (source_for w id) (state w1) /\
  pressed_left (flags w2 id) = false /\
  forall e w',
    pressed_left (flags w' id) = true ->
    state (onLine e text1 w') = state w' /\
    pressed_left (flags (onLine e text1 w') id) = false.
Proof.
  intros H1 H2 Hid Hflag id w1 w2.
  change (eventId text1) with id in Hflag, Hid.
  assert (Hw1 : w1 = set_pressed id (mkPressed false (pressed_right (flags w id)))
                       (bumpClick e1 Left (source_for w id) w)).
  { unfold w1. rewrite (onLine_left_released e1 text1 w H1).
    change (eventId text1) with id. rewrite Hflag. reflexivity. }
  assert (Hf1 : pressed_left (flags w1 id) = false)
    by (rewrite Hw1, flags_set_pressed; reflexivity).
  assert (Hs1 : source_for w1 id = source_for w id).
  { rewrite Hw1.
    transitivity (source_for (bumpClick e1 Left (source_for w id) w) id);
      [reflexivity | apply source_for_bumpClick]. }
  assert (Hw2 : w2 = set_pressed id (mkPressed false (pressed_right (flags w1 id)))
                       (bumpClick e2 Left (source_for w id) w1)).
  { unfold w2. rewrite (onLine_left_released e2 text2 w1 H2), Hid.
    rewrite Hf1, Hs1. reflexivity. }
  split; [rewrite Hw1; simpl; apply state_queueSave|].
  split; [exact Hf1|].
  split; [rewrite Hw2; simpl; apply state_queueSave|].
  split; [rewrite Hw2, flags_set_pressed; reflexivity|].
  intros e w' Hw'. rewrite (onLine_left_released e text1 w' H1).
  change (eventId text1) with id. rewrite Hw'. simpl.
  split; [reflexivity | rewrite flags_set_pressed; reflexivity].
Qed.

(** C4, as the handler has it. On a trimmed textual line, a
    [DEVICE_ADDED] match registers the device and nothing else runs; a
    [DEVICE_REMOVED] match (with no [DEVICE_ADDED]) forgets the device
    and nothing else runs; on a line with neither, the scroll, button,
    tap, hold and key branches follow one another, each one running when
    its own test holds.  So a line that is both a tap and a key press
    (and nothing else) counts a touchpad click and a key. *)
Theorem C4_textual_dispatch (e : Env) (text : string) (w : World) :
  textual text = true ->
  (test_ci "DEVICE_ADDED" text = true ->
   onLine e text w = set_deviceType (eventId text) (classifyDevice text) w /\
   state (onLine e text w) = state w) /\
  (test_ci "DEVICE_ADDED" text = false -> test_ci "DEVICE_REMOVED" text = true ->
   onLine e text w = forget_device (eventId text) w /\
   state (onLine e text w) = state w) /\
  (test_ci "DEVICE_ADDED" text = false -> test_ci "DEVICE_REMOVED" text = false ->
   onLine e text w =
   when (isKey text) (onKey e text)
     (when (isHold text) (onHold e text)
        (when (isTap text) (onTap e text)
           (when (isButton text) (onButton e text (eventId text))
              (when (isScroll text) (onScroll e text) w)))) /\
   (isScroll text = false -> isButton text = false -> isTap text = true ->
    isHold text = false -> isKey text = true ->
    state (onLine e text w) =
    key_next (keyName text)
      (click_next (if fingerTest "2" text || fingerTest "3" text then Right else Left)
         FromTouchpad (state w)))).
Proof.
  intros Ht. rewrite (onLine_textual e text w Ht).
  split; [intros ->; split; reflexivity|].
  split; [intros -> ->; split; reflexivity|].
  intros -> ->. split; [reflexivity|].
  intros -> -> -> -> ->. unfold when, onKey, onTap.
  rewrite state_bumpKey, state_bumpClick. reflexivity.
Qed.

(** *** The JSON branch *)

Lemma startsWith_nonempty text :
  startsWith "{" text = true -> String.eqb text "" = false.
Proof. destruct text; [discriminate | reflexivity]. Qed.

Lemma is_string_eq v s : is_string v s = true -> v = VStr s.
Proof.
  destruct v; simpl; try discriminate. intros H. apply String.eqb_eq in H. congruence.
Qed.




End HandlerFacts.

(** ** The properties on the sample inputs *)

Module Samples.
Import Chars Num Json Store Handler Loop Props Invariants NumFacts StoreFacts LoadFacts
  HandlerFacts.

(** Two releases of the left button of device 5 in a row, with no press
    recorded: the flag is false before each, and each counts a click. *)
Lemma C1_second_release_counts :
  left_released release5 = true /\
  pressed_left (flags world0 (eventId release5)) = false /\
  left (state world0) = of_Z 0 /\
  pressed_left (flags (onLine env0 release5 world0) (eventId release5)) = false /\
  left (state (onLine env0 release5 world0)) = of_Z 1 /\
  left (state (onLine env_1500 release5 (onLine env0 release5 world0))) = of_Z 2.
Proof. vm_compute. repeat split. Qed.

Lemma C1_witness :
  left_released release5 = true /\
  pressed_left (flags world0 (eventId release5)) = false /\
  state (onLine env_1500 release5 (onLine env0 release5 world0)) =
  click_next Left FromMouse (click_next Left FromMouse (state world0)).
Proof.
  assert (H1 : left_released release5 = true) by (vm_compute; reflexivity).
  assert (H2 : pressed_left (flags world0 (eventId release5)) = false)
    by (vm_compute; reflexivity).
  split; [exact H1|]. split; [exact H2|].
  destruct (C1_release_without_press env0 env_1500 release5 release5 world0
              H1 H1 eq_refl H2) as [Ha [_ [Hb _]]].
  rewrite Hb, Ha. reflexivity.
Defined.

(** Two valid records on which a click loses the sum.  With [left] and
    [leftMouse] at [2^53], two clicks of the touchpad leave [left] where
    it is and take [leftPad] to 2.  With [leftMouse] and [leftPad] at
    0.1 and [left] at their sum 0.2, a click of the mouse takes [left]
    to 0.2 + 1 = 1.2, while [leftMouse + leftPad] is
    1.1 + 0.1 = 1.2000000000000002. *)
Lemma C2_sums_lost :
  (valid (state world_max_left) /\
   left (state (clicks two_pad_clicks world_max_left)) = of_Z (2 ^ 53) /\
   leftMouse (state (clicks two_pad_clicks world_max_left)) = of_Z (2 ^ 53) /\
   leftPad (state (clicks two_pad_clicks world_max_left)) = of_Z 2 /\
   ~ sums_ok (state (clicks two_pad_clicks world_max_left))) /\
  (valid (state world_tenths) /\
   to_string (left (state world_tenths)) = "0.2" /\
   to_string (left (state (bumpClick env0 Left FromMouse world_tenths))) = "1.2" /\
   to_string (leftMouse (state (bumpClick env0 Left FromMouse world_tenths))) = "1.1" /\
   to_string (leftPad (state (bumpClick env0 Left FromMouse world_tenths))) = "0.1" /\
   to_string (add (leftMouse (state (bumpClick env0 Left FromMouse world_tenths)))
                (leftPad (state (bumpClick env0 Left FromMouse world_tenths)))) =
   "1.2000000000000002" /\
   ~ sums_ok (state (bumpClick env0 Left FromMouse world_tenths))).
Proof.
  assert (Hs : state (clicks two_pad_clicks world_max_left) =
               with_leftPad (of_Z 2) (state world_max_left))
    by (vm_compute; reflexivity).
  assert (Hv : forall w, counters_nonneg (state w) -> sums_ok (state w) -> valid (state w))
    by (intros w H1 H2; split; assumption).
  split.
  - split.
    { apply Hv.
      - unfold counters_nonneg. vm_compute.
        repeat (constructor; [vm_compute; intros H; discriminate H|]). constructor.
      - split; vm_compute; reflexivity. }
    rewrite Hs. repeat split. intros [H _]. vm_compute in H. discriminate H.
  - split.
    { apply Hv.
      - unfold counters_nonneg. vm_compute.
        repeat (constructor; [vm_compute; intros H; discriminate H|]). constructor.
      - split; vm_compute; reflexivity. }
    do 5 (split; [vm_compute; reflexivity|]).
    intros [H _]. vm_compute in H. discriminate H.
Qed.

Lemma C2_witness :
  valid (state world0) /\ click_counts (state world0) 0 0 0 0 /\
  sums_ok (state (clicks sample_clicks world0)) /\
  left (state (clicks sample_clicks world0)) = of_Z 2.
Proof.
  assert (H : valid (state world0)).
  { split.
    - unfold counters_nonneg. simpl.
      repeat (constructor; [simpl; apply Qle_refl|]). constructor.
    - split; vm_compute; reflexivity. }
  assert (Hc : click_counts (state world0) 0 0 0 0) by (repeat split).
  split; [exact H|]. split; [exact Hc|].
  destruct (C2_click_sums world0 sample_clicks 0 0 0 0 H Hc)
    as [Hs [_ [Hl _]]]; try lia; try (vm_compute; discriminate).
  split; [exact Hs | exact Hl].
Defined.

(** A stored record of today whose [left] is -5 is loaded with [left]
    equal to -5. *)
Lemma C3_negative_counter_loaded :
  accepted env0 (parsed stored0) = true /\
  get (parsed stored0) "left" = VNum (of_Z (-5)) /\
  left (loadState env0 (ReadOk stored0)) = of_Z (-5) /\
  ~ counters_nonneg (loadState env0 (ReadOk stored0)).
Proof.
  split; [vm_compute; reflexivity|]. split; [vm_compute; reflexivity|].
  assert (H : left (loadState env0 (ReadOk stored0)) = of_Z (-5))
    by (vm_compute; reflexivity).
  split; [exact H|]. intros Hn. unfold counters_nonneg, counters in Hn.
  apply Forall_cons_1 in Hn as [Hn _].
  change (nonneg_finite (left (loadState env0 (ReadOk stored0)))) in Hn.
  rewrite H in Hn. vm_compute in Hn. apply Hn. reflexivity.
Qed.

Lemma C3_witness :
  JSON_parse (decode stored0) = Some (parsed stored0) /\
  accepted env0 (parsed stored0) = true /\
  map (fun c => (c.1, Some c.2)) (counters (loadState env0 (ReadOk stored0))) =
  map (fun name => (name, toNumber (get (parsed stored0) name))) counter_names.
Proof.
  assert (H1 : JSON_parse (decode stored0) = Some (parsed stored0))
    by (vm_compute; reflexivity).
  assert (H2 : accepted env0 (parsed stored0) = true) by (vm_compute; reflexivity).
  split; [exact H1|]. split; [exact H2|].
  destruct (C3_load_counters_finite env0 (ReadOk stored0)) as [_ [H _]].
  apply (H stored0 (parsed stored0) eq_refl H1), H2.
Defined.

(** A line that matches [DEVICE_ADDED] and [POINTER_TAP]: the device is
    registered and no click is counted. *)
Lemma C4_added_line_stops :
  textual added_tap7 = true /\
  test_ci "DEVICE_ADDED" added_tap7 = true /\
  isTap added_tap7 = true /\
  deviceTypes (onLine env0 added_tap7 world0) !! "7" = Some Touchpad /\
  state (onLine env0 added_tap7 world0) = state world0 /\
  saveSource (onLine env0 added_tap7 world0) = None.
Proof. vm_compute. repeat split. Qed.

Lemma C4_witness :
  textual tap_key7 = true /\
  state (onLine env0 tap_key7 world0) =
  key_next "KEY_A" (click_next Left FromTouchpad (state world0)).
Proof.
  assert (H : textual tap_key7 = true) by (vm_compute; reflexivity).
  split; [exact H|].
  destruct (C4_textual_dispatch env0 tap_key7 world0 H) as [_ [_ Hc]].
  destruct Hc as [_ Hs]; [vm_compute; reflexivity | vm_compute; reflexivity |].
  rewrite Hs by (vm_compute; reflexivity).
  replace (keyName tap_key7) with "KEY_A" by (vm_compute; reflexivity).
  replace (fingerTest "2" tap_key7 || fingerTest "3" tap_key7) with false
    by (vm_compute; reflexivity).
  reflexivity.
Defined.

Lemma C5_witness :
  date (state world0) <> todayKey env_next_day /\
  state (ensureToday env_next_day world0) = fresh env_next_day /\
  saved (ensureToday env_next_day world0) = [fresh env_next_day].
Proof.
  assert (H : date (state world0) <> todayKey env_next_day)
    by (vm_compute; intros H'; discriminate H').
  split; [exact H|].
  destruct (C5_day_change env_next_day world0 H) as [Hs [Hw _]].
  split; [exact Hs | exact Hw].
Defined.




(** A stored key count named [__proto__], with the value 5, is not
    loaded. *)
Lemma C8_proto_entry_dropped :
  accepted env0 (parsed stored_proto) = true /\
  In ("__proto__", VNum (of_Z 5)) (entries (get (parsed stored_proto) "keyCounts")) /\
  Number_ (VNum (of_Z 5)) = Some (of_Z 5) /\
  isFinite (of_Z 5) = true /\ gtb (of_Z 5) zero = true /\
  keyCounts (loadState env0 (ReadOk stored_proto)) !! "__proto__" = None /\
  keyCounts (loadState env0 (ReadOk stored_proto)) !! "KEY_A" = Some (of_Z 2).
Proof.
  split; [vm_compute; reflexivity|].
  split; [vm_compute; tauto|].
  repeat split; vm_compute; reflexivity.
Qed.

Lemma C8_witness :
  JSON_parse (decode stored0) = Some (parsed stored0) /\
  accepted env0 (parsed stored0) = true /\
  forall k n,
    keyCounts (loadState env0 (ReadOk stored0)) !! k = Some n ->
    isFinite n = true /\ gtb n zero = true.
Proof.
  assert (H1 : JSON_parse (decode stored0) = Some (parsed stored0))
    by (vm_compute; reflexivity).
  assert (H2 : accepted env0 (parsed stored0) = true) by (vm_compute; reflexivity).
  split; [exact H1|]. split; [exact H2|].
  destruct (C8_loaded_key_counts env0 stored0 (parsed stored0) H1 H2) as [_ [_ H]].
  exact H.
Defined.

(** From a record in which [keys] and the count of [KEY_A] are [2^53],
    a press of [KEY_B] leaves [keys] where it is and counts 1 for
    [KEY_B]: [keys] is no longer the sum of the counts. *)
Lemma C9_sum_lost_at_max :
  keys_inv (state world_max_keys) /\
  keys (state (bumpKey env0 "KEY_B" world_max_keys)) = of_Z (2 ^ 53) /\
  keyCounts (state (bumpKey env0 "KEY_B" world_max_keys)) =
    of_Z <$> ({[ "KEY_A" := 2 ^ 53; "KEY_B" := 1 ]} : gmap string Z) /\
  ~ keys_inv (state (bumpKey env0 "KEY_B" world_max_keys)).
Proof.
  assert (Hk : keys (state (bumpKey env0 "KEY_B" world_max_keys)) = of_Z (2 ^ 53))
    by (vm_compute; reflexivity).
  assert (Hc : keyCounts (state (bumpKey env0 "KEY_B" world_max_keys)) =
               of_Z <$> ({[ "KEY_A" := 2 ^ 53; "KEY_B" := 1 ]} : gmap string Z))
    by (vm_compute; reflexivity).
  split.
  { exists {[ "KEY_A" := 2 ^ 53 ]}. split; [vm_compute; reflexivity|]. split.
    - apply map_Forall_singleton. reflexivity.
    - vm_compute. reflexivity. }
  split; [exact Hk|]. split; [exact Hc|].
  intros [m (Hm & _ & Ht)]. rewrite Hc in Hm.
  assert (Inj (=) (=) of_Z) by (intros a b; apply of_Z_inj).
  apply (inj (fmap of_Z)) in Hm. subst m. rewrite Hk in Ht.
  apply of_Z_inj in Ht. vm_compute in Ht. discriminate Ht.
Qed.

Lemma C9_witness :
  state world0 = defaultState env0 /\
  Forall (fun c : Env * string => key_name_ok c.2) sample_presses /\
  keys_inv (state (presses sample_presses world0)) /\
  keys (state (presses sample_presses world0)) = of_Z 3.
Proof.
  assert (Hn : Forall (fun c : Env * string => key_name_ok c.2) sample_presses)
    by (repeat constructor).
  split; [reflexivity|]. split; [exact Hn|].
  destruct (C9_key_totals env0 world0 sample_presses eq_refl Hn) as [H [Hk _]].
  - vm_compute. discriminate.
  - split; [exact H | exact Hk].
Defined.

Lemma C10_witness :
  JSON_parse (decode stored1) = Some (parsed stored1) /\
  0 < now env0 /\
  gtb (startedAt (loadState env0 (ReadOk stored1))) zero = true.
Proof.
  assert (H1 : JSON_parse (decode stored1) = Some (parsed stored1))
    by (vm_compute; reflexivity).
  assert (H3 : 0 < now env0) by (simpl; lia).
  split; [exact H1|]. split; [exact H3|].
  destruct (C10_loaded_startedAt env0 stored1 (parsed stored1) H1) as [_ [_ Hc]].
  apply Hc, H3.
Defined.

(** *** The handler and the loader at work *)

Example release_after_press :
  left (state (onLine env_1500 release5 (onLine env0 press5 world0))) = of_Z 1 /\
  pressed_left (flags (onLine env0 press5 world0) "5") = true /\
  pressed_left (flags (onLine env_1500 release5 (onLine env0 press5 world0)) "5") = false.
Proof. vm_compute. repeat split. Qed.

Example tap_on_touchpad :
  deviceTypes (onLine env0 added7 world0) !! "7" = Some Touchpad /\
  counters (state (onLine env_1500 tap7 (onLine env0 added7 world0))) =
  [("left", of_Z 1); ("right", of_Z 0); ("keys", of_Z 0);
   ("leftMouse", of_Z 0); ("rightMouse", of_Z 0);
   ("leftPad", of_Z 1); ("rightPad", of_Z 0);
   ("scrollUp", of_Z 0); ("scrollDown", of_Z 0);
   ("scrollLeft", of_Z 0); ("scrollRight", of_Z 0)].
Proof. vm_compute. repeat split. Qed.

Example scroll_line :
  scrollUp (state (onLine env0 scroll9 world0)) = of_Z 15 /\
  scrollLeft (state (onLine env0 scroll9 world0)) = Fin (1 # 2) /\
  scrollDown (state (onLine env0 scroll9 world0)) = of_Z 0 /\
  scrollRight (state (onLine env0 scroll9 world0)) = of_Z 0.
Proof. vm_compute. repeat split. Qed.

Example scroll_up_then_down :
  counters (state (bumpScroll env_1500 (Some (of_Z (-3))) None
                     (bumpScroll env0 (Some (of_Z 5)) None world0))) =
  [("left", of_Z 0); ("right", of_Z 0); ("keys", of_Z 0);
   ("leftMouse", of_Z 0); ("rightMouse", of_Z 0);
   ("leftPad", of_Z 0); ("rightPad", of_Z 0);
   ("scrollUp", of_Z 5); ("scrollDown", of_Z 3);
   ("scrollLeft", of_Z 0); ("scrollRight", of_Z 0)].
Proof. vm_compute. reflexivity. Qed.

Example key_line :
  keys (state (onLine env0 key3 world0)) = of_Z 1 /\
  keyCounts (state (onLine env0 key3 world0)) !! "KEY_A" = Some (of_Z 1).
Proof. vm_compute. repeat split. Qed.

(** A press and a release 1.5 s apart, then the day check of the same
    day half a second later: the save timeout has run once, with both
    lines in what it wrote. *)
Example debounced_lines :
  saved (process [(env0, Line press5); (env_1500, Line release5)] world0) = [] /\
  saved (process [(env0, Line press5); (env_1500, Line release5);
                  (env_2000, DayCheck)] world0) =
  [click_next Left FromMouse (state world0)] /\
  saveSource (process [(env0, Line press5); (env_1500, Line release5);
                       (env_2000, DayCheck)] world0) = None.
Proof. vm_compute. repeat split. Qed.

Example stale_record_dropped :
  loadState env0 (ReadOk stored_old) = defaultState env0 /\
  loadState env0 (ReadOk "{not json") = defaultState env0 /\
  loadState env0 ReadFails = defaultState env0.
Proof. vm_compute. repeat split. Qed.

Example loaded_key_counts :
  map_to_list (keyCounts (loadState env0 (ReadOk stored0))) =
  [("KEY_E", of_Z 4); ("KEY_A", of_Z 2)].
Proof. vm_compute. reflexivity. Qed.

End Samples.

(** ** What the handler can do to the store *)

Module FrameFacts.
Import Chars Num Json Store Handler Loop Props Invariants NumFacts StoreFacts
  LoadFacts HandlerFacts.

(** A match found by [search] is a match of the pattern somewhere. *)
Lemma search_from_found {A} (m : option ascii -> list ascii -> option A) l :
  forall prev r, search_from m prev l = Some r -> exists p l', m p l' = Some r.
Proof.
  induction l as [|c l IH]; intros prev r; simpl.
  - destruct (m prev []) eqn:E; [intros [= <-]; eauto | discriminate].
  - destruct (m prev (c :: l)) eqn:E; [intros [= <-]; eauto | apply IH].
Qed.

Lemma key_token_prefixed l name r :
  key_token l = Some (name, r) -> key_name_ok name.
Proof.
  unfold key_token. destruct (after eqb_cs (chars "KEY_") l) as [r0|]; [|discriminate].
  destruct (run is_keychar r0) as [|k ks]; [discriminate|].
  intros [= <- _]. reflexivity.
Qed.

Lemma key_name_ok_app s : key_name_ok ("KEY_" +:+ s).
Proof. reflexivity. Qed.

(** Every name [keyName] returns starts with [KEY_]. *)
Lemma keyName_prefixed text : key_name_ok (keyName text).
Proof.
  unfold keyName.
  destruct (parenMatch text) as [name|] eqn:Ep.
  { unfold parenMatch, search in Ep.
    apply search_from_found in Ep as [p [l Hm]].
    destruct l as [|c r]; [discriminate|].
    destruct (eqb_cs c "("); [|discriminate].
    destruct (key_token r) as [[n [|d r']]|] eqn:Ek; try discriminate.
    destruct (eqb_cs d ")"); [|discriminate].
    injection Hm as <-. eapply key_token_prefixed, Ek. }
  destruct (directMatch text) as [name|] eqn:Ed.
  { unfold directMatch, search in Ed.
    apply search_from_found in Ed as [p [l Hm]].
    destruct (key_token l) as [[n r]|] eqn:Ek; [|discriminate].
    destruct (boundary p l && _); [|discriminate].
    injection Hm as <-. eapply key_token_prefixed, Ek. }
  destruct (codeMatch text); [apply key_name_ok_app | reflexivity].
Qed.

Lemma increment_set_registries e op dt pr w :
  increment e op (set_registries dt pr w) = set_registries dt pr (increment e op w).
Proof.
  destruct op as [side source|k|v h]; simpl;
    unfold bumpClick, bumpKey, bumpScroll, queueSave, set_registries, setState,
      set_saveSource; simpl.
  - destruct (saveSource w); reflexivity.
  - destruct (saveSource w); reflexivity.
  - destruct (negb (nonzero v) && negb (nonzero h)); [reflexivity|].
    destruct (saveSource w); reflexivity.
Qed.

(** *** What the handler reads as an axis value *)

Lemma of_decimal_rounded neg mant exp10 : exists q, of_decimal neg mant exp10 = round64 q.
Proof. unfold of_decimal. eauto. Qed.

Lemma unsigned_decimal_rounded neg l x :
  unsigned_decimal neg l = Some x -> exists q, x = round64 q.
Proof.
  unfold unsigned_decimal. intros H.
  repeat case_match; try discriminate; injection H as <-; apply of_decimal_rounded.
Qed.

Lemma radix_literal_rounded l x : radix_literal l = Some x -> exists q, x = round64 q.
Proof.
  unfold radix_literal. intros H.
  repeat case_match; try discriminate; injection H as <-; apply of_decimal_rounded.
Qed.

(** A finite number read from a string is a rounded one. *)
Lemma of_string_rounded s : isFinite (of_string s) = true -> exists q, of_string s = round64 q.
Proof.
  unfold of_string. destruct (trim_chars (chars s)) as [|c r].
  { intros _. exists 0%Q. reflexivity. }
  destruct (if eqb_cs c "-" then _ else _) as [neg body].
  destruct (String.eqb (str body) "Infinity"); [destruct neg; discriminate|].
  destruct (unsigned_decimal neg body) as [x|] eqn:E.
  { intros _. eapply unsigned_decimal_rounded, E. }
  destruct (radix_literal (c :: r)) as [x|] eqn:E'; [|discriminate].
  intros _. eapply radix_literal_rounded, E'.
Qed.

Lemma parseAxis_rounded text token : rounded (parseAxis text token).
Proof.
  unfold parseAxis. destruct (search _ text) as [m|]; [|exact I].
  destruct (isFinite (of_string m)) eqn:E; [|exact I].
  intros _. apply of_string_rounded, E.
Qed.

Lemma orElse_rounded a b : rounded a -> rounded b -> rounded (orElse a b).
Proof. destruct a; simpl; auto. Qed.

(** *** A schema for the handler

    A relation between the module before and after that is reflexive and
    transitive, that every increment of the handler satisfies, and that a
    change of the registries satisfies, holds of every line. *)
Section Schema.
Variable e : Env.
Variable R : World -> World -> Prop.
Hypothesis R_refl : forall w, R w w.
Hypothesis R_trans : forall a b c, R a b -> R b c -> R a c.
Hypothesis R_op : forall op w, handler_op op -> R w (increment e op w).
Hypothesis R_reg : forall dt pr w, R w (set_registries dt pr w).

Lemma R_click side source w : R w (bumpClick e side source w).
Proof. apply (R_op (Click side source) w). exact I. Qed.

Lemma R_key k w : key_name_ok k -> R w (bumpKey e k w).
Proof. intros H. apply (R_op (Key k) w). exact H. Qed.

Lemma R_scroll v h w : rounded v -> rounded h -> R w (bumpScroll e v h w).
Proof. intros Hv Hh. apply (R_op (Scroll v h) w). split; assumption. Qed.

Lemma R_onScroll text w : R w (onScroll e text w).
Proof. unfold onScroll. apply R_scroll; apply orElse_rounded; apply parseAxis_rounded. Qed.

Lemma R_set_pressed id p w w' : R w w' -> R w (set_pressed id p w').
Proof.
  intros H. eapply R_trans; [exact H|].
  exact (R_reg (deviceTypes w') (<[id := p]> (pressedByEvent w')) w').
Qed.

Lemma R_onButton text id w : R w (onButton e text id w).
Proof.
  unfold onButton. cbv zeta.
  repeat match goal with
         | |- context [if ?b then _ else _] => destruct b
         end;
    apply R_set_pressed; auto using R_click.
Qed.

Lemma R_when (b : bool) f w w' : R w w' -> (forall x, R x (f x)) -> R w (if b then f w' else w').
Proof.
  intros H Hf. destruct b; [|exact H]. eapply R_trans; [exact H | apply Hf].
Qed.

Lemma R_onJson text w : R w (onJson e text w).
Proof.
  unfold onJson. cbv zeta.
  destruct (negb (truthy _) || negb (is_object _)); [apply R_refl|].
  assert (Hk : forall x v, R x (match String_ v with
                                | Some name => bumpKey e ("KEY_" +:+ name) x
                                | None => x
                                end)).
  { intros x v. destruct (String_ v); [apply R_key, key_name_ok_app | apply R_refl]. }
  destruct (is_string _ "pointer_button" && _).
  - destruct (Number_ _) as [button|]; [|apply R_refl].
    apply (R_when _ (fun x => match String_ _ with
                              | Some name => bumpKey e ("KEY_" +:+ name) x
                              | None => x
                              end)); [|intros x; apply Hk].
    destruct (Num.eqb _ _); [apply R_click|].
    destruct (Num.eqb _ _); [apply R_click | apply R_refl].
  - destruct (_ && _); [apply Hk | apply R_refl].
Qed.

Theorem onLine_schema line w : R w (onLine e line w).
Proof.
  unfold onLine. cbv zeta.
  destruct (String.eqb (trim line) ""); [apply R_refl|].
  destruct (startsWith "{" (trim line)); [apply R_onJson|].
  destruct (test_ci "DEVICE_ADDED" (trim line)).
  { exact (R_reg _ (pressedByEvent w) w). }
  destruct (test_ci "DEVICE_REMOVED" (trim line)).
  { exact (R_reg _ _ w). }
  apply (R_when _ (onKey e (trim line))); [|intros x; apply R_key, keyName_prefixed].
  apply (R_when _ (onHold e (trim line))); [|intros x; apply R_click].
  apply (R_when _ (onTap e (trim line))); [|intros x; apply R_click].
  apply (R_when _ (onButton e (trim line) _)); [|intros x; apply R_onButton].
  apply (R_when _ (onScroll e (trim line))); [|intros x; apply R_onScroll].
  apply R_refl.
Qed.
End Schema.

(** *** What an increment does *)

Lemma state_increment e op w :
  state (increment e op w) = state w \/ state (increment e op w) = next_of op (state w).
Proof.
  destruct op as [side source|k|v h]; simpl.
  - right. apply state_bumpClick.
  - right. apply state_bumpKey.
  - unfold bumpScroll. destruct (negb (nonzero v) && negb (nonzero h)); [left; reflexivity|].
    right. apply state_queueSave.
Qed.

(** An increment leaves the pending save as it is, or arms one when it
    changes the record and none is pending; it writes nothing. *)
Lemma saveSource_increment e op w :
  saved (increment e op w) = saved w /\
  match saveSource w with
  | Some d => saveSource (increment e op w) = Some d
  | None =>
      increment e op w = w \/
      saveSource (increment e op w) = Some (now e + SAVE_DELAY_MS)
  end.
Proof.
  destruct op as [side source|k|v h]; simpl;
    unfold bumpClick, bumpKey, bumpScroll, queueSave; simpl;
    try destruct (negb (nonzero v) && negb (nonzero h));
    destruct (saveSource w) eqn:E; simpl; auto.
Qed.

(** *** The counters after an increment *)

Lemma capped_range n : 0 <= n -> 0 <= capped n <= MAX_COUNT.
Proof. intros H. pose proof MAX_COUNT_pos. unfold capped. lia. Qed.

(** 1 added to a capped sum and to one of its terms. *)
Lemma add_one_total x a b :
  x = of_Z (capped (a + b)) -> 0 <= a <= MAX_COUNT -> 0 <= b <= MAX_COUNT ->
  add x one = of_Z (capped (capped (a + 1) + b)) /\
  add x one = of_Z (capped (a + capped (b + 1))).
Proof.
  intros -> Ha Hb. pose proof MAX_COUNT_pos as HM.
  destruct (add_one_count (of_Z (capped (a + b))) (capped (a + b))) as [-> _].
  { split; [reflexivity | apply capped_range; lia]. }
  split; f_equal; unfold capped; lia.
Qed.

Lemma clicks_sound_click_next side source s :
  clicks_sound s -> clicks_sound (click_next side source s).
Proof.
  intros (lm & lp & rm & rp & Hlm & Hlp & Hrm & Hrp & Hl & Hr).
  pose proof (add_one_count _ _ Hlm) as Alm. pose proof (add_one_count _ _ Hlp) as Alp.
  pose proof (add_one_count _ _ Hrm) as Arm. pose proof (add_one_count _ _ Hrp) as Arp.
  destruct (add_one_total _ lm lp Hl (proj2 Hlm) (proj2 Hlp)) as [Tl1 Tl2].
  destruct (add_one_total _ rm rp Hr (proj2 Hrm) (proj2 Hrp)) as [Tr1 Tr2].
  destruct side, source;
    [ rewrite click_next_left_mouse; exists (capped (lm + 1)), lp, rm, rp
    | rewrite click_next_left_pad; exists lm, (capped (lp + 1)), rm, rp
    | rewrite click_next_right_mouse; exists lm, lp, (capped (rm + 1)), rp
    | rewrite click_next_right_pad; exists lm, lp, rm, (capped (rp + 1)) ];
    cbn [leftMouse leftPad rightMouse rightPad left right with_leftMouse with_leftPad
         with_rightMouse with_rightPad with_left with_right];
    repeat match goal with |- _ /\ _ => split end; assumption.
Qed.

Lemma le_amount_binary64 x : binary64 x -> le_amount x x.
Proof. intros H. apply le_amount_refl, binary64_amount, H. Qed.

(** A scroll adds to an amount a value of the format: the amount stays
    one, and is not below what it was. *)
Lemma scrolls_scroll_next v h s :
  rounded v -> rounded h -> scrolls_sound s ->
  scrolls_sound (scroll_next v h s) /\ scrolls_le s (scroll_next v h s).
Proof.
  intros Hv Hh (H1 & H2 & H3 & H4).
  pose proof (le_amount_binary64 _ H1). pose proof (le_amount_binary64 _ H2).
  pose proof (le_amount_binary64 _ H3). pose proof (le_amount_binary64 _ H4).
  unfold scroll_next.
  destruct v as [v|], h as [h|];
    repeat match goal with
           | |- context [Num.truthy ?x && isFinite ?x] =>
               destruct (Num.truthy x); cbn [andb];
               [destruct (isFinite x) eqn:?|]
           | |- context [gtb ?x zero] => destruct (gtb x zero) eqn:?
           end;
    unfold scrolls_sound, scrolls_le;
    cbn [scrollUp scrollDown scrollLeft scrollRight with_scrollUp with_scrollDown
         with_scrollLeft with_scrollRight];
    repeat match goal with |- _ /\ _ => split end;
    first [assumption
          | apply add_binary64; [assumption|];
            first [apply rounded_positive; assumption | apply rounded_abs; assumption]].
Qed.

Lemma lookup_counts (m : gmap string Z) k :
  default zero ((of_Z <$> m) !! k) = of_Z (default 0 (m !! k)).
Proof. rewrite lookup_fmap. destruct (m !! k); reflexivity. Qed.

Lemma keys_sound_key_next k s : keys_sound s -> keys_sound (key_next k s).
Proof.
  intros (m & Hkc & Hm & Hk). pose proof MAX_COUNT_pos as HM.
  assert (Hnn : map_Forall (fun _ n => 0 <= n) m).
  { intros k' n' Hk'. specialize (Hm k' n' Hk'). simpl in Hm. lia. }
  pose proof (total_nonneg m Hnn) as Ht.
  assert (Hv : 0 <= default 0 (m !! k) <= MAX_COUNT /\ default 0 (m !! k) <= total m).
  { destruct (m !! k) as [v|] eqn:E; simpl; [|lia].
    pose proof (Hm k v E) as Hb. simpl in Hb.
    pose proof (lookup_le_total m k v Hnn E). lia. }
  destruct Hv as [Hv Hvt].
  destruct (add_one_count (of_Z (default 0 (m !! k))) (default 0 (m !! k)))
    as [Hadd Hrange]; [split; [reflexivity | exact Hv]|].
  exists (<[k := capped (default 0 (m !! k) + 1)]> m). split; [|split]; simpl.
  - rewrite Hkc, fmap_insert, lookup_counts, Hadd. reflexivity.
  - apply map_Forall_insert_2; [unfold capped in *; lia | exact Hm].
  - rewrite Hk.
    destruct (add_one_count (of_Z (capped (total m))) (capped (total m))) as [-> _].
    { split; [reflexivity | apply capped_range, Ht]. }
    f_equal. rewrite total_replace. unfold capped. lia.
Qed.

(** The fields an increment does not touch. *)
Lemma click_next_keys side source s :
  keys (click_next side source s) = keys s /\
  keyCounts (click_next side source s) = keyCounts s /\
  date (click_next side source s) = date s /\
  startedAt (click_next side source s) = startedAt s /\
  scrollUp (click_next side source s) = scrollUp s /\
  scrollDown (click_next side source s) = scrollDown s /\
  scrollLeft (click_next side source s) = scrollLeft s /\
  scrollRight (click_next side source s) = scrollRight s.
Proof. destruct side, source; repeat split. Qed.

Lemma scroll_next_fields v h s :
  keys (scroll_next v h s) = keys s /\
  keyCounts (scroll_next v h s) = keyCounts s /\
  date (scroll_next v h s) = date s /\
  startedAt (scroll_next v h s) = startedAt s /\
  left (scroll_next v h s) = left s /\
  leftMouse (scroll_next v h s) = leftMouse s /\
  leftPad (scroll_next v h s) = leftPad s /\
  right (scroll_next v h s) = right s /\
  rightMouse (scroll_next v h s) = rightMouse s /\
  rightPad (scroll_next v h s) = rightPad s.
Proof.
  unfold scroll_next.
  destruct v as [v|], h as [h|];
    repeat match goal with
           | |- context [if ?b then _ else _] => destruct b
           end;
    repeat split.
Qed.

Lemma next_of_day op s :
  date (next_of op s) = date s /\ startedAt (next_of op s) = startedAt s.
Proof.
  destruct op as [side source|k|v h]; simpl.
  - destruct (click_next_keys side source s) as [_ [_ [H1 [H2 _]]]]. auto.
  - split; reflexivity.
  - destruct (scroll_next_fields v h s) as [_ [_ [H1 [H2 _]]]]. auto.
Qed.

Lemma clicks_sound_next_of op s : clicks_sound s -> clicks_sound (next_of op s).
Proof.
  destruct op as [side source|k|v h]; simpl.
  - apply clicks_sound_click_next.
  - intros H. exact H.
  - unfold clicks_sound.
    destruct (scroll_next_fields v h s)
      as [_ [_ [_ [_ [-> [-> [-> [-> [-> ->]]]]]]]]].
    intros H. exact H.
Qed.

Lemma scrolls_next_of op s :
  handler_op op -> scrolls_sound s ->
  scrolls_sound (next_of op s) /\ scrolls_le s (next_of op s).
Proof.
  intros Hop Hs.
  assert (Hrefl : scrolls_le s s).
  { destruct Hs as (H1 & H2 & H3 & H4). unfold scrolls_le.
    repeat match goal with |- _ /\ _ => split end; apply le_amount_binary64; assumption. }
  destruct op as [side source|k|v h]; simpl.
  - unfold scrolls_sound, scrolls_le.
    destruct (click_next_keys side source s) as (_ & _ & _ & _ & -> & -> & -> & ->).
    split; [exact Hs | exact Hrefl].
  - split; [exact Hs | exact Hrefl].
  - destruct Hop as [Hv Hh]. apply scrolls_scroll_next; assumption.
Qed.

Lemma keys_sound_next_of op s : keys_sound s -> keys_sound (next_of op s).
Proof.
  destruct op as [side source|k|v h]; simpl.
  - unfold keys_sound. destruct (click_next_keys side source s) as [-> [-> _]]. auto.
  - apply keys_sound_key_next.
  - unfold keys_sound. destruct (scroll_next_fields v h s) as [-> [-> _]]. auto.
Qed.

Lemma sound_next_of op s : handler_op op -> sound s -> sound (next_of op s).
Proof.
  intros Hop (H1 & H2 & H3).
  split; [apply clicks_sound_next_of, H1|].
  split; [apply (scrolls_next_of op s Hop H2) | apply keys_sound_next_of, H3].
Qed.

Lemma keys_prefixed_next_of op s :
  handler_op op -> keys_prefixed s -> keys_prefixed (next_of op s).
Proof.
  destruct op as [side source|k|v h]; simpl; intros Hop Hs.
  - unfold keys_prefixed. destruct (click_next_keys side source s) as [_ [-> _]]. exact Hs.
  - intros k' v'. simpl. destruct (decide (k = k')) as [<-|Hne].
    + intros _. exact Hop.
    + rewrite lookup_insert_ne by exact Hne. apply Hs.
  - unfold keys_prefixed. destruct (scroll_next_fields v h s) as [_ [-> _]]. exact Hs.
Qed.

(** A sound record none of whose totals has reached [MAX_COUNT], and
    with no infinite amount, is a valid record, in which [keys] is the
    sum of the key counts. *)
Lemma sound_valid s : sound s -> in_range s -> valid s /\ keys_inv s.
Proof.
  intros ((lm & lp & rm & rp & Hlm & Hlp & Hrm & Hrp & Hl & Hr) &
          (S1 & S2 & S3 & S4) & (m & Hkc & Hm & Hk))
         (Rl & Rr & Rk & F1 & F2 & F3 & F4).
  pose proof MAX_COUNT_pos as HM.
  destruct Hlm as [Elm Blm], Hlp as [Elp Blp], Hrm as [Erm Brm], Hrp as [Erp Brp].
  assert (Hnn : map_Forall (fun _ n => 0 <= n) m).
  { intros k' n' Hk'. specialize (Hm k' n' Hk'). simpl in Hm. lia. }
  pose proof (total_nonneg m Hnn) as Ht.
  assert (Ll : lm + lp < MAX_COUNT).
  { destruct (Z_lt_le_dec (lm + lp) MAX_COUNT) as [H|H]; [exact H|].
    exfalso. apply Rl. rewrite Hl. f_equal. unfold capped. lia. }
  assert (Lr : rm + rp < MAX_COUNT).
  { destruct (Z_lt_le_dec (rm + rp) MAX_COUNT) as [H|H]; [exact H|].
    exfalso. apply Rr. rewrite Hr. f_equal. unfold capped. lia. }
  assert (Lk : total m < MAX_COUNT).
  { destruct (Z_lt_le_dec (total m) MAX_COUNT) as [H|H]; [exact H|].
    exfalso. apply Rk. rewrite Hk. f_equal. unfold capped. lia. }
  assert (Fa : forall x, amount x -> finite x -> nonneg_finite x).
  { intros [| | |q]; simpl; try tauto. unfold finite. simpl. discriminate. }
  split; [split|].
  - unfold counters_nonneg, counters.
    rewrite Hl, Hr, Hk, Elm, Elp, Erm, Erp.
    repeat constructor; cbn [snd];
      first [apply nonneg_of_Z; unfold capped; lia
            | apply Fa; [apply binary64_amount|]; assumption].
  - unfold sums_ok. rewrite Hl, Hr, Elm, Elp, Erm, Erp, !add_of_Z by lia.
    unfold capped. rewrite !Z.min_l by lia. split; simpl; reflexivity.
  - exists m. split; [exact Hkc|]. split.
    + intros k' n' Hk'. specialize (Hm k' n' Hk'). simpl in *. lia.
    + rewrite Hk. unfold capped. rewrite Z.min_l by lia. reflexivity.
Qed.

(** *** Invariants of the record along the loop *)

Lemma state_fire_due e w : state (fire_due e w) = state w.
Proof.
  unfold fire_due. destruct (saveSource w) as [d|]; [|reflexivity].
  destruct (d <=? now e); reflexivity.
Qed.

Lemma state_ensureToday e w :
  state (ensureToday e w) = state w \/
  state (ensureToday e w) = with_date (today e) (defaultState e).
Proof.
  unfold ensureToday. destruct (String.eqb _ _); [left | right]; reflexivity.
Qed.

Section StateInvariant.
Variable P : InputState -> Prop.
Hypothesis P_op : forall op s, handler_op op -> P s -> P (next_of op s).
Hypothesis P_new_day : forall e, P (with_date (today e) (defaultState e)).

Lemma onLine_state_inv e line w : P (state w) -> P (state (onLine e line w)).
Proof.
  apply (onLine_schema e (fun w w' => P (state w) -> P (state w'))); auto.
  intros op w0 Hop Hw0.
  destruct (state_increment e op w0) as [->| ->]; auto.
Qed.

Lemma dispatch_state_inv e ev w : P (state w) -> P (state (dispatch e ev w)).
Proof.
  intros Hw. unfold dispatch.
  assert (Hf : P (state (fire_due e w))) by (rewrite state_fire_due; exact Hw).
  destruct ev as [line|].
  - unfold readLine. destruct (String.eqb (trim line) ""); [exact Hf|].
    apply onLine_state_inv, Hf.
  - destruct (state_ensureToday e (fire_due e w)) as [-> | ->]; auto.
Qed.

Lemma process_state_inv evs : forall w, P (state w) -> P (state (process evs w)).
Proof.
  induction evs as [|[e ev] evs IH]; intros w Hw; [exact Hw|].
  apply IH. apply dispatch_state_inv, Hw.
Qed.
End StateInvariant.

Lemma count_zero : count zero 0.
Proof. pose proof MAX_COUNT_pos. split; [reflexivity | lia]. Qed.

Lemma keys_sound_new_day e : keys_sound (with_date (today e) (defaultState e)).
Proof.
  exists ∅. split; [|split]; simpl.
  - rewrite fmap_empty. reflexivity.
  - apply map_Forall_empty.
  - rewrite total_empty. reflexivity.
Qed.

Lemma sound_new_day e : sound (with_date (today e) (defaultState e)).
Proof.
  split; [|split].
  - exists 0, 0, 0, 0. repeat split; try apply count_zero.
  - unfold scrolls_sound. repeat match goal with |- _ /\ _ => split end; apply binary64_zero.
  - apply keys_sound_new_day.
Qed.

(** X1. Whatever lines, day checks and save timeouts the loop goes
    through, a sound record stays sound: the click and key counters are
    integers from 0 to [MAX_COUNT], each total follows the sum of its
    parts up to [MAX_COUNT] (where it stays), and the scroll amounts
    are binary64 values that are not negative, or the infinity.  As
    long as no total has reached [MAX_COUNT] and no amount is infinite,
    the record is valid: every counter finite and not negative, [left]
    the sum of [leftMouse] and [leftPad], [right] the sum of
    [rightMouse] and [rightPad]. *)
Theorem process_keeps_valid (evs : list (Env * Event)) (w : World) :
  sound (state w) ->
  sound (state (process evs w)) /\
  (in_range (state (process evs w)) -> valid (state (process evs w))).
Proof.
  intros Hw.
  assert (H : sound (state (process evs w))).
  { revert Hw. apply process_state_inv.
    - intros op s Hop. apply sound_next_of, Hop.
    - apply sound_new_day. }
  split; [exact H|]. intros Hr. apply (sound_valid _ H Hr).
Qed.

(** X2. Along the loop the key counts stay integers from 1 to
    [MAX_COUNT] and [keys] follows their sum up to [MAX_COUNT], once
    that holds (as it does of the default record); as long as [keys]
    has not reached [MAX_COUNT], it is the sum of the key counts. *)
Theorem process_keeps_key_totals (evs : list (Env * Event)) (w : World) :
  keys_sound (state w) ->
  keys_sound (state (process evs w)) /\
  (keys (state (process evs w)) <> of_Z MAX_COUNT ->
   keys_inv (state (process evs w))).
Proof.
  intros Hw.
  assert (H : keys_sound (state (process evs w))).
  { revert Hw. apply process_state_inv.
    - intros op s _. apply keys_sound_next_of.
    - apply keys_sound_new_day. }
  split; [exact H|]. intros Rk.
  destruct H as (m & Hkc & Hm & Hk). pose proof MAX_COUNT_pos as HM.
  assert (Hnn : map_Forall (fun _ n => 0 <= n) m).
  { intros k' n' Hk'. specialize (Hm k' n' Hk'). simpl in Hm. lia. }
  pose proof (total_nonneg m Hnn) as Ht.
  exists m. split; [exact Hkc|]. split.
  - intros k' n' Hk'. specialize (Hm k' n' Hk'). simpl in *. lia.
  - rewrite Hk. f_equal. unfold capped.
    destruct (Z_lt_le_dec (total m) MAX_COUNT) as [H|H]; [lia|].
    exfalso. apply Rk. rewrite Hk. f_equal. unfold capped. lia.
Qed.

(** X3. The loop only ever adds key names that start with [KEY_]: when
    the keys of [keyCounts] all do, they still do after any sequence of
    events. *)
Theorem process_keeps_key_names (evs : list (Env * Event)) (w : World) :
  keys_prefixed (state w) -> keys_prefixed (state (process evs w)).
Proof.
  apply process_state_inv.
  - apply keys_prefixed_next_of.
  - intros e k v. simpl. rewrite lookup_empty. discriminate.
Qed.

(** *** What a line leaves alone *)

Lemma onLine_frame (e : Env) (line : string) (w : World) :
  saved (onLine e line w) = saved w /\
  date (state (onLine e line w)) = date (state w) /\
  startedAt (state (onLine e line w)) = startedAt (state w).
Proof.
  apply (onLine_schema e (fun w w' =>
           saved w' = saved w /\ date (state w') = date (state w) /\
           startedAt (state w') = startedAt (state w))).
  - auto.
  - intros a b c [H1 [H2 H3]] [H4 [H5 H6]]. repeat split; congruence.
  - intros op w0 _. destruct (saveSource_increment e op w0) as [Hs _].
    split; [exact Hs|].
    destruct (state_increment e op w0) as [->| ->]; [auto | apply next_of_day].
  - intros dt pr w0. auto.
Qed.

(** X4. Reading a line writes nothing to the state file and changes
    neither the date nor the start time of the record, whatever the line
    is. *)
Theorem onLine_keeps_file_and_day (e : Env) (line : string) (w : World) :
  saved (onLine e line w) = saved w /\
  date (state (onLine e line w)) = date (state w) /\
  startedAt (state (onLine e line w)) = startedAt (state w).
Proof. apply onLine_frame. Qed.

Lemma onLine_saveSource (e : Env) (line : string) (w : World) :
  match saveSource w with
  | Some d => saveSource (onLine e line w) = Some d
  | None =>
      (saveSource (onLine e line w) = None /\ state (onLine e line w) = state w) \/
      saveSource (onLine e line w) = Some (now e + SAVE_DELAY_MS)
  end.
Proof.
  apply (onLine_schema e (fun w w' =>
           match saveSource w with
           | Some d => saveSource w' = Some d
           | None =>
               (saveSource w' = None /\ state w' = state w) \/
               saveSource w' = Some (now e + SAVE_DELAY_MS)
           end)).
  - intros w0. destruct (saveSource w0); auto.
  - intros a b c Hab Hbc. destruct (saveSource a) as [d|].
    + rewrite Hab in Hbc. exact Hbc.
    + destruct Hab as [[Hb Hs]|Hb]; rewrite Hb in Hbc.
      * destruct Hbc as [[Hc Hs']|Hc]; [left; split; congruence | right; exact Hc].
      * right. exact Hbc.
  - intros op w0 _. destruct (saveSource_increment e op w0) as [_ H].
    destruct (saveSource w0) eqn:E; [exact H|].
    destruct H as [->|H]; [left; auto | right; exact H].
  - intros dt pr w0. simpl. destruct (saveSource w0); auto.
Qed.

(** X5. A line never cancels or postpones a pending save.  With no save
    pending, either the line leaves the record as it is and arms
    nothing, or a save is armed [SAVE_DELAY_MS] after the line: no
    change of the record is left without a save to come. *)
Theorem onLine_arms_save (e : Env) (line : string) (w : World) :
  match saveSource w with
  | Some d => saveSource (onLine e line w) = Some d
  | None =>
      (saveSource (onLine e line w) = None /\ state (onLine e line w) = state w) \/
      saveSource (onLine e line w) = Some (now e + SAVE_DELAY_MS)
  end.
Proof. apply onLine_saveSource. Qed.

Lemma le_count_trans x y z : le_count x y -> le_count y z -> le_count x z.
Proof.
  intros (a & b & -> & -> & Hab) (b' & c & Hb & -> & Hbc).
  apply of_Z_inj in Hb. subst b'. exists a, c. repeat split. lia.
Qed.

Lemma le_count_refl x n : count x n -> le_count x x.
Proof. intros [-> _]. exists n, n. repeat split. lia. Qed.

Lemma le_count_add_one x n : count x n -> le_count x (add x one).
Proof.
  intros H. destruct (add_one_count x n H) as [-> _]. destruct H as [-> Hn].
  exists n, (capped (n + 1)). repeat split. unfold capped. lia.
Qed.

Lemma counts_le_trans a b c : counts_le a b -> counts_le b c -> counts_le a c.
Proof.
  unfold counts_le. apply Forall2_trans.
  intros x y z [H1 H2] [H3 H4]. split; [congruence | eapply le_count_trans; eassumption].
Qed.

Lemma key_counts_le_trans a b c :
  key_counts_le a b -> key_counts_le b c -> key_counts_le a c.
Proof.
  intros Hab Hbc k v Hk. destruct (Hab k v Hk) as [v' [Hk' Hv]].
  destruct (Hbc k v' Hk') as [v'' [Hk'' Hv']].
  exists v''. split; [exact Hk'' | eapply le_count_trans; eassumption].
Qed.

(** The counters of a sound record count. *)
Lemma sound_counts s :
  sound s ->
  (exists n, count (left s) n) /\ (exists n, count (right s) n) /\
  (exists n, count (keys s) n) /\
  (exists n, count (leftMouse s) n) /\ (exists n, count (rightMouse s) n) /\
  (exists n, count (leftPad s) n) /\ (exists n, count (rightPad s) n) /\
  forall k v, keyCounts s !! k = Some v -> exists n, count v n.
Proof.
  intros ((lm & lp & rm & rp & Hlm & Hlp & Hrm & Hrp & Hl & Hr) & _ &
          (m & Hkc & Hm & Hk)).
  assert (Hnn : map_Forall (fun _ n => 0 <= n) m).
  { intros k' n' Hk'. specialize (Hm k' n' Hk'). simpl in Hm. lia. }
  pose proof (total_nonneg m Hnn) as Ht.
  destruct Hlm as [Elm Blm], Hlp as [Elp Blp], Hrm as [Erm Brm], Hrp as [Erp Brp].
  split; [eexists; split; [exact Hl | apply capped_range; lia]|].
  split; [eexists; split; [exact Hr | apply capped_range; lia]|].
  split; [eexists; split; [exact Hk | apply capped_range; lia]|].
  split; [eexists; split; eassumption|]. split; [eexists; split; eassumption|].
  split; [eexists; split; eassumption|]. split; [eexists; split; eassumption|].
  intros k v Hv. rewrite Hkc, lookup_fmap in Hv.
  destruct (m !! k) as [n|] eqn:E; [|discriminate]. injection Hv as <-.
  exists n. split; [reflexivity|]. specialize (Hm k n E). simpl in Hm. lia.
Qed.

Lemma counts_le_refl s : sound s -> counts_le s s /\ key_counts_le s s.
Proof.
  intros H. destruct (sound_counts s H)
    as ([? ?] & [? ?] & [? ?] & [? ?] & [? ?] & [? ?] & [? ?] & Hk).
  split.
  - unfold counts_le, counts.
    repeat (constructor; [split; [reflexivity | eapply le_count_refl; eassumption]|]).
    constructor.
  - intros k v Hv. exists v. split; [exact Hv|].
    destruct (Hk k v Hv) as [n Hn]. apply (le_count_refl v n Hn).
Qed.

Lemma scrolls_le_refl s : sound s -> scrolls_le s s.
Proof.
  intros (_ & (H1 & H2 & H3 & H4) & _). unfold scrolls_le.
  repeat match goal with |- _ /\ _ => split end; apply le_amount_binary64; assumption.
Qed.

Lemma scrolls_le_trans a b c : scrolls_le a b -> scrolls_le b c -> scrolls_le a c.
Proof.
  intros (A1 & A2 & A3 & A4) (B1 & B2 & B3 & B4). unfold scrolls_le.
  repeat match goal with |- _ /\ _ => split end; eapply le_amount_trans; eassumption.
Qed.

Lemma counts_le_next_of op s :
  sound s -> counts_le s (next_of op s) /\ key_counts_le s (next_of op s).
Proof.
  intros H. destruct (counts_le_refl s H) as [Hrefl Hkrefl].
  destruct (sound_counts s H)
    as ([nl Hl] & [nr Hr] & [nk Hk] & [nlm Hlm] & [nrm Hrm] & [nlp Hlp] & [nrp Hrp] & Hkc).
  pose proof (le_count_refl _ _ Hl). pose proof (le_count_refl _ _ Hr).
  pose proof (le_count_refl _ _ Hk). pose proof (le_count_refl _ _ Hlm).
  pose proof (le_count_refl _ _ Hrm). pose proof (le_count_refl _ _ Hlp).
  pose proof (le_count_refl _ _ Hrp).
  pose proof (le_count_add_one _ _ Hl). pose proof (le_count_add_one _ _ Hr).
  pose proof (le_count_add_one _ _ Hk). pose proof (le_count_add_one _ _ Hlm).
  pose proof (le_count_add_one _ _ Hrm). pose proof (le_count_add_one _ _ Hlp).
  pose proof (le_count_add_one _ _ Hrp).
  destruct op as [side source|k|v h]; cbn [next_of].
  - split;
      [|unfold key_counts_le;
        destruct (click_next_keys side source s) as (_ & -> & _); exact Hkrefl].
    destruct side, source;
      [ rewrite click_next_left_mouse | rewrite click_next_left_pad
      | rewrite click_next_right_mouse | rewrite click_next_right_pad ];
      unfold counts_le, counts; cbn -[add];
      repeat (constructor; [split; [reflexivity | assumption]|]); constructor.
  - split.
    + unfold counts_le, counts, key_next; cbn -[add].
      repeat (constructor; [split; [reflexivity | assumption]|]); constructor.
    + intros k' v' Hv'. unfold key_next. cbn -[add].
      destruct (decide (k = k')) as [<-|Hne].
      * rewrite lookup_insert_eq, Hv'. cbn [default from_option id].
        eexists. split; [reflexivity|].
        destruct (Hkc k v' Hv') as [n Hn]. apply (le_count_add_one _ _ Hn).
      * rewrite lookup_insert_ne by exact Hne. exists v'. split; [exact Hv'|].
        destruct (Hkc k' v' Hv') as [n Hn]. apply (le_count_refl _ _ Hn).
  - destruct (scroll_next_fields v h s)
      as (E1 & E2 & _ & _ & E3 & E4 & E5 & E6 & E7 & E8).
    split.
    + unfold counts_le, counts. rewrite E1, E3, E4, E5, E6, E7, E8. exact Hrefl.
    + unfold key_counts_le. rewrite E2. exact Hkrefl.
Qed.

(** X6. Within a day the counters only grow: after any line read on a
    sound record, the record is sound, none of the click and key
    counters is below what it was, no key count is lost or lowered, and
    none of the four scroll amounts is below what it was (an amount that
    has reached the infinity stays there). *)
Theorem onLine_counters_grow (e : Env) (line : string) (w : World) :
  sound (state w) ->
  sound (state (onLine e line w)) /\
  counts_le (state w) (state (onLine e line w)) /\
  key_counts_le (state w) (state (onLine e line w)) /\
  scrolls_le (state w) (state (onLine e line w)).
Proof.
  assert (Hrefl : forall s, sound s ->
            sound s /\ counts_le s s /\ key_counts_le s s /\ scrolls_le s s).
  { intros s H. destruct (counts_le_refl s H) as [H1 H2].
    pose proof (scrolls_le_refl s H). auto. }
  apply (onLine_schema e (fun w w' =>
           sound (state w) ->
           sound (state w') /\ counts_le (state w) (state w') /\
           key_counts_le (state w) (state w') /\ scrolls_le (state w) (state w'))).
  - intros w0 H. apply Hrefl, H.
  - intros a b c Hab Hbc Ha. destruct (Hab Ha) as (Hb & L1 & K1 & S1).
    destruct (Hbc Hb) as (Hc & L2 & K2 & S2). split; [exact Hc|].
    split; [eapply counts_le_trans; eassumption|].
    split; [eapply key_counts_le_trans | eapply scrolls_le_trans]; eassumption.
  - intros op w0 Hop H.
    destruct (state_increment e op w0) as [->| ->]; [apply Hrefl, H|].
    destruct (counts_le_next_of op _ H) as [L K].
    split; [apply sound_next_of; assumption|]. split; [exact L|]. split; [exact K|].
    apply (scrolls_next_of op _ Hop), H.
  - intros dt pr w0 H. apply Hrefl, H.
Qed.

(** *** Saves along the loop *)

Lemma synced_fire_due s0 e w : synced s0 w -> synced s0 (fire_due e w).
Proof.
  unfold fire_due. destruct (saveSource w) as [d|] eqn:E; [|auto].
  destruct (d <=? now e); [|auto].
  intros _ _. right. unfold saveTimeout. simpl. apply last_snoc.
Qed.

Lemma synced_onLine s0 e line w : synced s0 w -> synced s0 (onLine e line w).
Proof.
  apply (onLine_schema e (fun w w' => synced s0 w -> synced s0 w')); auto.
  intros op w0 _ H. destruct (saveSource_increment e op w0) as [_ Hs].
  destruct (saveSource w0) eqn:E.
  - intros Hn. congruence.
  - destruct Hs as [->|Hs]; [exact H | intros Hn; congruence].
Qed.

Lemma synced_ensureToday s0 e w : synced s0 w -> synced s0 (ensureToday e w).
Proof.
  unfold ensureToday. destruct (String.eqb _ _); [auto|].
  intros _ _. right. simpl. apply last_snoc.
Qed.

Lemma synced_process s0 evs : forall w, synced s0 w -> synced s0 (process evs w).
Proof.
  induction evs as [|[e ev] evs IH]; intros w Hw; [exact Hw|].
  apply IH. unfold dispatch. simpl.
  pose proof (synced_fire_due s0 e w Hw) as Hf.
  destruct ev as [line|].
  - unfold readLine. destruct (String.eqb (trim line) ""); [exact Hf|].
    apply synced_onLine, Hf.
  - apply synced_ensureToday, Hf.
Qed.

(** X7. No update is lost: at any point of the loop at which no save is
    pending, the record in memory is the record written last, or no
    change was made since the module loaded it. *)
Theorem process_synced (e : Env) (file : FileRead) (evs : list (Env * Event)) :
  synced (loadState e file) (process evs (init e file)).
Proof. apply synced_process. intros _. left. reflexivity. Qed.

Lemma due_after_fire_due t e w :
  t <= now e -> due_by t w -> due_after (now e) (fire_due e w).
Proof.
  intros Ht Hw d. unfold fire_due.
  destruct (saveSource w) as [d0|] eqn:E; [|rewrite E; discriminate].
  destruct (d0 <=? now e) eqn:El.
  - simpl. discriminate.
  - rewrite E. intros [= <-]. apply Z.leb_gt in El.
    specialize (Hw d0 E). lia.
Qed.

Lemma due_after_onLine e line w :
  due_after (now e) w -> due_after (now e) (onLine e line w).
Proof.
  intros Hw d. pose proof (onLine_saveSource e line w) as H.
  destruct (saveSource w) as [d0|] eqn:E.
  - rewrite H. intros [= <-]. apply Hw, E.
  - destruct H as [[H _]|H]; rewrite H; [discriminate|].
    intros [= <-]. unfold SAVE_DELAY_MS. lia.
Qed.

Lemma saveSource_ensureToday e w : saveSource (ensureToday e w) = saveSource w.
Proof. unfold ensureToday. destruct (String.eqb _ _); reflexivity. Qed.

Lemma due_after_dispatch t e ev w :
  t <= now e -> due_by t w -> due_after (now e) (dispatch e ev w).
Proof.
  intros Ht Hw. pose proof (due_after_fire_due t e w Ht Hw) as Hf.
  unfold dispatch. destruct ev as [line|].
  - unfold readLine. destruct (String.eqb (trim line) ""); [exact Hf|].
    apply due_after_onLine, Hf.
  - intros d. rewrite saveSource_ensureToday. apply Hf.
Qed.

Lemma due_after_by t w : due_after t w -> due_by t w.
Proof. intros H d Hd. apply H in Hd. lia. Qed.

(** X8. With events in the order of their times, a pending save is never
    overdue and never far: after the last event, at time [t], a pending
    save is due after [t] and at most [SAVE_DELAY_MS] later. *)
Theorem process_save_due (t : Z) (evs : list (Env * Event)) (w : World) :
  chronological t evs -> due_by t w -> evs <> [] ->
  due_after (last_time t evs) (process evs w).
Proof.
  revert t w. induction evs as [|[e ev] evs IH]; intros t w Hc Hw Hne; [contradiction|].
  destruct Hc as [Ht Hc]. simpl in Ht, Hc.
  pose proof (due_after_dispatch t e ev w Ht Hw) as Hd.
  destruct evs as [|ev' evs']; [exact Hd|].
  apply (IH (now e) (dispatch e ev w) Hc (due_after_by _ _ Hd)). discriminate.
Qed.

End FrameFacts.

(** ** Edges of the handler, the loader and the timers *)

Module EdgeFacts.
Import Chars Num Json Store Handler Loop Props Invariants NumFacts StoreFacts
  LoadFacts HandlerFacts FrameFacts.

Lemma textual_button_line text : button_line text = true -> textual text = true.
Proof.
  unfold button_line, textual. intros H. split_andb.
  repeat (apply andb_true_intro; split); try assumption; apply negb_true_iff; assumption.
Qed.

(** X9. Lines the handler drops: a blank line, a line that starts with a
    brace and is not JSON, a JSON line whose [state] is not the string
    [pressed], and a textual line that matches none of the seven
    patterns.  None changes anything, and none arms a save. *)
Theorem ignored_lines (e : Env) (w : World) :
  (forall line, String.eqb (trim line) "" = true -> onLine e line w = w) /\
  (forall line,
      startsWith "{" (trim line) = true -> JSON_parse (trim line) = None ->
      onLine e line w = w) /\
  (forall line payload,
      startsWith "{" (trim line) = true -> JSON_parse (trim line) = Some payload ->
      is_string (get payload "state") "pressed" = false ->
      onLine e line w = w) /\
  (forall text, unread_line text = true -> onLine e text w = w).
Proof.
  split; [|split; [|split]].
  - intros line H. unfold onLine. cbv zeta. rewrite H. reflexivity.
  - intros line Hb Hp. unfold onLine. cbv zeta.
    rewrite (startsWith_nonempty _ Hb), Hb. unfold onJson. rewrite Hp. reflexivity.
  - intros line payload Hb Hp Hs. unfold onLine. cbv zeta.
    rewrite (startsWith_nonempty _ Hb), Hb. unfold onJson. rewrite Hp.
    cbn [default from_option id]. rewrite Hs, !andb_false_r.
    destruct (negb (truthy payload) || negb (is_object payload)); reflexivity.
  - intros text H. unfold unread_line in H. split_andb.
    rewrite onLine_textual by assumption.
    repeat match goal with H : _ = false |- _ => rewrite H end.
    reflexivity.
Qed.

(** *** Press and release *)

Lemma onLine_left_press e text w :
  left_press_line text = true ->
  onLine e text w =
  set_pressed (eventId text) (mkPressed true (pressed_right (flags w (eventId text))))
    (bumpClick e Left (source_for w (eventId text)) w).
Proof.
  unfold left_press_line, left_pressed. intros H. split_andb.
  rewrite onLine_textual by (apply textual_button_line; assumption).
  unfold button_line in *. split_andb.
  unfold isButton, isKey.
  repeat match goal with H : _ = false |- _ => rewrite H end.
  repeat match goal with H : _ = true |- _ => rewrite H end.
  simpl. unfold when, onButton. cbv zeta.
  repeat match goal with H : _ = true |- _ => rewrite H end.
  reflexivity.
Qed.

Lemma onLine_right_press e text w :
  right_press_line text = true ->
  onLine e text w =
  set_pressed (eventId text) (mkPressed (pressed_left (flags w (eventId text))) true)
    (bumpClick e Right (source_for w (eventId text)) w).
Proof.
  unfold right_press_line, right_line. intros H. split_andb.
  rewrite onLine_textual by (apply textual_button_line; assumption).
  unfold button_line in *. split_andb.
  unfold isButton, isKey.
  repeat match goal with H : _ = false |- _ => rewrite H end.
  repeat match goal with H : _ = true |- _ => rewrite H end.
  simpl. unfold when, onButton. cbv zeta.
  repeat match goal with H : _ = false |- _ => rewrite H end.
  repeat match goal with H : _ = true |- _ => rewrite H end.
  reflexivity.
Qed.

Lemma onLine_right_release e text w :
  right_release_line text = true ->
  onLine e text w =
  set_pressed (eventId text) (mkPressed (pressed_left (flags w (eventId text))) false)
    (if negb (pressed_right (flags w (eventId text)))
     then bumpClick e Right (source_for w (eventId text)) w else w).
Proof.
  unfold right_release_line, right_line. intros H. split_andb.
  rewrite onLine_textual by (apply textual_button_line; assumption).
  unfold button_line in *. split_andb.
  unfold isButton, isKey.
  repeat match goal with H : _ = false |- _ => rewrite H end.
  repeat match goal with H : _ = true |- _ => rewrite H end.
  rewrite ?andb_false_r. simpl. unfold when, onButton. cbv zeta.
  repeat match goal with H : _ = false |- _ => rewrite H end.
  repeat match goal with H : _ = true |- _ => rewrite H end.
  reflexivity.
Qed.

Lemma source_for_set_pressed id p w id' :
  source_for (set_pressed id p w) id' = source_for w id'.
Proof. reflexivity. Qed.

Lemma state_set_pressed id p w : state (set_pressed id p w) = state w.
Proof. reflexivity. Qed.

(** X10. A press of the left button followed by its release, on one
    device, counts exactly one left click, whatever the press flag was
    before; the flag is true in between and false after. *)
Theorem press_then_release_once (e1 e2 : Env) (text1 text2 : string) (w : World) :
  left_press_line text1 = true -> left_released text2 = true ->
  eventId text2 = eventId text1 ->
  state (onLine e2 text2 (onLine e1 text1 w)) =
    click_next Left (source_for w (eventId text1)) (state w) /\
  pressed_left (flags (onLine e1 text1 w) (eventId text1)) = true /\
  pressed_left (flags (onLine e2 text2 (onLine e1 text1 w)) (eventId text1)) = false.
Proof.
  intros H1 H2 Hid.
  rewrite (onLine_left_released e2 text2 _ H2), Hid.
  rewrite (onLine_left_press e1 text1 w H1).
  rewrite !flags_set_pressed. simpl.
  split; [apply state_queueSave | split; reflexivity].
Qed.

(** What each kind of button line does to the record, to the flags of
    its device and to the registry of devices. *)
Lemma left_press_summary e text w :
  left_press_line text = true ->
  state (onLine e text w) = click_next Left (source_for w (eventId text)) (state w) /\
  flags (onLine e text w) (eventId text) =
    mkPressed true (pressed_right (flags w (eventId text))) /\
  forall id, source_for (onLine e text w) id = source_for w id.
Proof.
  intros H. rewrite (onLine_left_press e text w H).
  split; [apply state_queueSave|]. split; [apply flags_set_pressed|].
  intros id. rewrite source_for_set_pressed. apply source_for_bumpClick.
Qed.

Lemma right_press_summary e text w :
  right_press_line text = true ->
  state (onLine e text w) = click_next Right (source_for w (eventId text)) (state w) /\
  flags (onLine e text w) (eventId text) =
    mkPressed (pressed_left (flags w (eventId text))) true /\
  forall id, source_for (onLine e text w) id = source_for w id.
Proof.
  intros H. rewrite (onLine_right_press e text w H).
  split; [apply state_queueSave|]. split; [apply flags_set_pressed|].
  intros id. rewrite source_for_set_pressed. apply source_for_bumpClick.
Qed.

Lemma right_release_summary e text w :
  right_release_line text = true ->
  state (onLine e text w) =
    (if pressed_right (flags w (eventId text)) then state w
     else click_next Right (source_for w (eventId text)) (state w)) /\
  flags (onLine e text w) (eventId text) =
    mkPressed (pressed_left (flags w (eventId text))) false /\
  forall id, source_for (onLine e text w) id = source_for w id.
Proof.
  intros H. rewrite (onLine_right_release e text w H).
  split; [|split; [apply flags_set_pressed|]].
  - rewrite state_set_pressed.
    destruct (pressed_right _); simpl; [reflexivity | apply state_queueSave].
  - intros id. rewrite source_for_set_pressed.
    destruct (pressed_right _); simpl; [reflexivity | apply source_for_bumpClick].
Qed.

Lemma left_release_summary e text w :
  left_released text = true ->
  state (onLine e text w) =
    (if pressed_left (flags w (eventId text)) then state w
     else click_next Left (source_for w (eventId text)) (state w)) /\
  flags (onLine e text w) (eventId text) =
    mkPressed false (pressed_right (flags w (eventId text))) /\
  forall id, source_for (onLine e text w) id = source_for w id.
Proof.
  intros H. rewrite (onLine_left_released e text w H).
  split; [|split; [apply flags_set_pressed|]].
  - rewrite state_set_pressed.
    destruct (pressed_left _); simpl; [reflexivity | apply state_queueSave].
  - intros id. rewrite source_for_set_pressed.
    destruct (pressed_left _); simpl; [reflexivity | apply source_for_bumpClick].
Qed.

(** X11. The two buttons of a device are tracked apart: a left press, a
    right press, the right release and the left release, in that order,
    count one left click and one right click, and leave both flags
    false. *)
Theorem buttons_interleaved (e1 e2 e3 e4 : Env) (l1 r2 r3 l4 : string) (w : World) :
  left_press_line l1 = true -> right_press_line r2 = true ->
  right_release_line r3 = true -> left_released l4 = true ->
  eventId r2 = eventId l1 -> eventId r3 = eventId l1 -> eventId l4 = eventId l1 ->
  state (onLine e4 l4 (onLine e3 r3 (onLine e2 r2 (onLine e1 l1 w)))) =
    click_next Right (source_for w (eventId l1))
      (click_next Left (source_for w (eventId l1)) (state w)) /\
  flags (onLine e4 l4 (onLine e3 r3 (onLine e2 r2 (onLine e1 l1 w)))) (eventId l1) =
    mkPressed false false.
Proof.
  intros H1 H2 H3 H4 I2 I3 I4.
  destruct (left_press_summary e1 l1 w H1) as [S1 [F1 D1]].
  destruct (right_press_summary e2 r2 (onLine e1 l1 w) H2) as [S2 [F2 D2]].
  destruct (right_release_summary e3 r3 (onLine e2 r2 (onLine e1 l1 w)) H3)
    as [S3 [F3 D3]].
  destruct (left_release_summary e4 l4
              (onLine e3 r3 (onLine e2 r2 (onLine e1 l1 w))) H4) as [S4 [F4 D4]].
  rewrite I2 in S2, F2. rewrite I3 in S3, F3. rewrite I4 in S4, F4.
  rewrite F1 in F2. simpl in F2. rewrite F2 in F3, S3. simpl in F3, S3.
  rewrite F3 in F4, S4. simpl in F4, S4.
  split; [|exact F4].
  rewrite S4, S3, S2, S1, D1. reflexivity.
Qed.

(** *** Devices *)

(** X12. A [DEVICE_REMOVED] line undoes the [DEVICE_ADDED] line of the
    same device: the device and its press flags are forgotten, nothing
    else changes; when the device was not known before, the module is
    back where it was. *)
Theorem added_then_removed (e1 e2 : Env) (text1 text2 : string) (w : World) :
  textual text1 = true -> test_ci "DEVICE_ADDED" text1 = true ->
  textual text2 = true -> test_ci "DEVICE_ADDED" text2 = false ->
  test_ci "DEVICE_REMOVED" text2 = true ->
  eventId text2 = eventId text1 ->
  onLine e2 text2 (onLine e1 text1 w) = forget_device (eventId text1) w /\
  deviceTypes (onLine e1 text1 w) !! eventId text1 = Some (classifyDevice text1) /\
  (deviceTypes w !! eventId text1 = None ->
   pressedByEvent w !! eventId text1 = None ->
   onLine e2 text2 (onLine e1 text1 w) = w).
Proof.
  intros T1 A1 T2 A2 R2 Hid.
  rewrite (onLine_textual e2 text2 _ T2), A2, R2, Hid.
  rewrite (onLine_textual e1 text1 w T1), A1.
  assert (Hf : forget_device (eventId text1)
                 (set_deviceType (eventId text1) (classifyDevice text1) w) =
               forget_device (eventId text1) w).
  { unfold forget_device, set_deviceType. simpl. rewrite delete_insert_eq. reflexivity. }
  split; [exact Hf|]. split.
  - simpl. apply lookup_insert_eq.
  - intros Hd Hp. rewrite Hf. unfold forget_device.
    rewrite (delete_id _ _ Hd), (delete_id _ _ Hp). destruct w; reflexivity.
Qed.

(** X13. A click of a button is counted under the touchpad exactly when
    the [DEVICE_ADDED] line of its device classified it as a touchpad;
    a keyboard, a mouse and an unknown device all count as the mouse. *)
Theorem click_source_follows_device (e1 e2 : Env) (text1 text2 : string) (w : World) :
  textual text1 = true -> test_ci "DEVICE_ADDED" text1 = true ->
  left_press_line text2 = true -> eventId text2 = eventId text1 ->
  state (onLine e2 text2 (onLine e1 text1 w)) =
  click_next Left
    (match classifyDevice text1 with Touchpad => FromTouchpad | _ => FromMouse end)
    (state w).
Proof.
  intros T1 A1 H2 Hid.
  destruct (left_press_summary e2 text2 (onLine e1 text1 w) H2) as [S _].
  rewrite S, Hid, (onLine_textual e1 text1 w T1), A1.
  unfold source_for. simpl. rewrite lookup_insert_eq. reflexivity.
Qed.

(** X14. A button line that names neither [BTN_LEFT] nor [BTN_RIGHT] and
    whose [button] number is none of 1, 3, 272, 273 (or is missing)
    counts nothing and arms no save; it only records the press flags of
    its device, as they were. *)
Theorem other_button_counts_nothing (e : Env) (text : string) (w : World) :
  other_button_line text = true ->
  onLine e text w = set_pressed (eventId text) (flags w (eventId text)) w.
Proof.
  unfold other_button_line. intros H. split_andb.
  rewrite onLine_textual by (apply textual_button_line; assumption).
  match goal with H : button_line text = true |- _ =>
    unfold button_line in H end. split_andb.
  assert (Hk : isKey text = false)
    by (unfold isKey; match goal with H : test_ci "KEYBOARD_KEY" text = false |- _ =>
                        rewrite H end; reflexivity).
  assert (Hb : isButton text = true)
    by (unfold isButton; apply andb_true_intro; split; assumption).
  rewrite Hk, Hb.
  repeat match goal with H : _ = false |- _ => rewrite H end.
  unfold when, onButton. cbv zeta.
  repeat match goal with H : test_ci _ text = false |- _ => rewrite H end.
  fold (flags w (eventId text)).
  destruct (buttonMatch text) as [m|].
  - split_andb.
    repeat match goal with H : Num.eqb _ _ = false |- _ => rewrite H end.
    simpl. destruct (flags w (eventId text)); reflexivity.
  - simpl. destruct (flags w (eventId text)); reflexivity.
Qed.

(** *** JSON lines *)

(** X15. A JSON line does one thing at most: it changes nothing, or it
    counts one click, always as a mouse click, or it counts one key
    under a name that starts with [KEY_]; never a click and a key. *)
Theorem json_line_one_effect (e : Env) (line : string) (w : World) :
  startsWith "{" (trim line) = true ->
  onLine e line w = w \/
  (exists side, onLine e line w = bumpClick e side FromMouse w) \/
  (exists k, key_name_ok k /\ onLine e line w = bumpKey e k w).
Proof.
  intros Hb. unfold onLine. cbv zeta.
  rewrite (startsWith_nonempty _ Hb), Hb. unfold onJson. cbv zeta.
  destruct (negb (truthy _) || negb (is_object _)); [left; reflexivity|].
  destruct (is_string (get _ "state") "pressed");
    [|rewrite !andb_false_r; left; reflexivity].
  rewrite !andb_true_r.
  destruct (is_string (get _ "type") "pointer_button") eqn:Et.
  - apply is_string_eq in Et. rewrite Et. cbn [is_string String.eqb Ascii.eqb Bool.eqb orb].
    destruct (Number_ _) as [button|]; [|left; reflexivity].
    destruct (Num.eqb _ _); [right; left; eexists; reflexivity|].
    destruct (Num.eqb _ _); [right; left; eexists; reflexivity | left; reflexivity].
  - destruct (_ || _); [|left; reflexivity].
    destruct (String_ _) as [name|]; [|left; reflexivity].
    right. right. eexists. split; [|reflexivity]. apply key_name_ok_app.
Qed.

(** *** Scrolling *)

(** X16. One [bumpScroll] never moves both directions of an axis, and
    never touches the click and key counters.  Two arguments that are
    null or zero change nothing at all, not even the pending save; an
    argument that is null, zero or not finite leaves its axis alone. *)
Theorem scroll_axes (e : Env) (v h : option number) (w : World) :
  (scrollUp (state (bumpScroll e v h w)) = scrollUp (state w) \/
   scrollDown (state (bumpScroll e v h w)) = scrollDown (state w)) /\
  (scrollLeft (state (bumpScroll e v h w)) = scrollLeft (state w) \/
   scrollRight (state (bumpScroll e v h w)) = scrollRight (state w)) /\
  (nonzero v = false -> nonzero h = false -> bumpScroll e v h w = w) /\
  (nonzero v = false \/ (exists x, v = Some x /\ isFinite x = false) ->
   scrollUp (state (bumpScroll e v h w)) = scrollUp (state w) /\
   scrollDown (state (bumpScroll e v h w)) = scrollDown (state w)) /\
  (nonzero h = false \/ (exists x, h = Some x /\ isFinite x = false) ->
   scrollLeft (state (bumpScroll e v h w)) = scrollLeft (state w) /\
   scrollRight (state (bumpScroll e v h w)) = scrollRight (state w)) /\
  left (state (bumpScroll e v h w)) = left (state w) /\
  right (state (bumpScroll e v h w)) = right (state w) /\
  keys (state (bumpScroll e v h w)) = keys (state w) /\
  keyCounts (state (bumpScroll e v h w)) = keyCounts (state w).
Proof.
  assert (Hs : state (bumpScroll e v h w) = state w \/
               state (bumpScroll e v h w) = scroll_next v h (state w))
    by apply (state_increment e (Scroll v h) w).
  assert (Hup : forall s,
             (scrollUp (scroll_next v h s) = scrollUp s \/
              scrollDown (scroll_next v h s) = scrollDown s) /\
             (scrollLeft (scroll_next v h s) = scrollLeft s \/
              scrollRight (scroll_next v h s) = scrollRight s)).
  { intros s. unfold scroll_next.
    destruct v as [x|], h as [y|];
      repeat match goal with
             | |- context [if ?b then _ else _] => destruct b
             end; simpl; auto. }
  assert (Hv : forall s,
             nonzero v = false \/ (exists x, v = Some x /\ isFinite x = false) ->
             scrollUp (scroll_next v h s) = scrollUp s /\
             scrollDown (scroll_next v h s) = scrollDown s).
  { intros s Hc. unfold scroll_next.
    assert (Hx : match v with
                 | Some x => Num.truthy x && isFinite x = false
                 | None => True
                 end).
    { destruct v as [x|]; [|exact I].
      destruct Hc as [Hc|[x' [[= <-] Hc]]]; simpl in Hc; rewrite Hc;
        [reflexivity | apply andb_false_r]. }
    destruct v as [x|]; [rewrite Hx|];
      destruct h as [y|];
      repeat match goal with
             | |- context [if ?b then _ else _] => destruct b
             end; simpl; auto. }
  assert (Hh : forall s,
             nonzero h = false \/ (exists x, h = Some x /\ isFinite x = false) ->
             scrollLeft (scroll_next v h s) = scrollLeft s /\
             scrollRight (scroll_next v h s) = scrollRight s).
  { intros s Hc. unfold scroll_next.
    assert (Hx : match h with
                 | Some x => Num.truthy x && isFinite x = false
                 | None => True
                 end).
    { destruct h as [x|]; [|exact I].
      destruct Hc as [Hc|[x' [[= <-] Hc]]]; simpl in Hc; rewrite Hc;
        [reflexivity | apply andb_false_r]. }
    destruct h as [y|]; [rewrite Hx|];
      destruct v as [x|];
      repeat match goal with
             | |- context [if ?b then _ else _] => destruct b
             end; simpl; auto. }
  destruct (scroll_next_fields v h (state w))
    as [Fk [Fc [_ [_ [Fl [_ [_ [Fr _]]]]]]]].
  split; [destruct Hs as [->| ->]; [auto | apply Hup]|].
  split; [destruct Hs as [->| ->]; [auto | apply Hup]|].
  split; [intros H1 H2; unfold bumpScroll; rewrite H1, H2; reflexivity|].
  split; [intros Hc; destruct Hs as [->| ->]; [auto | apply Hv, Hc]|].
  split; [intros Hc; destruct Hs as [->| ->]; [auto | apply Hh, Hc]|].
  destruct Hs as [->| ->]; auto.
Qed.

(** *** Loading and the day check *)

(** What [loadState] returns: the default record, or the record an
    accepted document is loaded as. *)
Lemma loadState_cases e file :
  loadState e file = defaultState e \/
  exists contents raw,
    file = ReadOk contents /\ JSON_parse (decode contents) = Some raw /\
    accepted e raw = true /\ normalizeState e raw = Some (loadState e file).
Proof.
  destruct file as [|contents]; [left; reflexivity|].
  destruct (JSON_parse (decode contents)) as [raw|] eqn:Hp;
    [|left; simpl; rewrite Hp; reflexivity].
  destruct (accepted e raw) eqn:Ha.
  - right. exists contents, raw. repeat split; try assumption.
    simpl. rewrite Hp.
    destruct (normalizeState_accepted e raw Ha) as (s & -> & _). reflexivity.
  - left. apply (loadState_refused e contents raw Hp Ha).
Qed.

Lemma date_loadState e file : date (loadState e file) = todayKey e.
Proof.
  destruct (loadState_cases e file) as [->|(contents & raw & _ & _ & Ha & Hs)];
    [reflexivity|].
  destruct (normalizeState_accepted e raw Ha) as (s & Hs' & Hd & _).
  rewrite Hs in Hs'. injection Hs' as ->. exact Hd.
Qed.

Lemma keyCounts_loadState e file k n :
  keyCounts (loadState e file) !! k = Some n ->
  isFinite n = true /\ gtb n zero = true.
Proof.
  destruct (loadState_cases e file) as [->|(contents & raw & -> & Hp & Ha & Hs)].
  - simpl. rewrite lookup_empty. discriminate.
  - destruct (keyCounts_accepted e contents raw Hp Ha) as [_ [_ H]]. apply H.
Qed.

Lemma startedAt_loadState e file :
  0 < now e -> gtb (startedAt (loadState e file)) zero = true.
Proof.
  intros Hnow.
  destruct (loadState_cases e file) as [->|(contents & raw & _ & _ & Ha & Hs)];
    [apply gtb_zero_of_Z, Hnow|].
  destruct (normalizeState_accepted e raw Ha) as (s & Hs' & _ & Hst & _).
  rewrite Hs in Hs'. injection Hs' as ->. rewrite Hst.
  destruct (get raw "startedAt") as [| | |n| | |]; try (apply gtb_zero_of_Z, Hnow).
  destruct (gtb n zero) eqn:Hn; [exact Hn | apply gtb_zero_of_Z, Hnow].
Qed.

(** X17. Whatever the state file holds, or when it cannot be read, the
    record the module starts with is dated today, its key counts are
    finite and greater than 0, and its start time is greater than 0
    when the clock is after the epoch; a day check at that moment
    changes nothing and writes nothing. *)
Theorem loaded_record_is_of_today (e : Env) (file : FileRead) :
  date (loadState e file) = todayKey e /\
  (forall k n, keyCounts (loadState e file) !! k = Some n ->
               isFinite n = true /\ gtb n zero = true) /\
  (0 < now e -> gtb (startedAt (loadState e file)) zero = true) /\
  ensureToday e (init e file) = init e file.
Proof.
  split; [apply date_loadState|].
  split; [apply keyCounts_loadState|].
  split; [apply startedAt_loadState|].
  unfold ensureToday. simpl. rewrite date_loadState, String.eqb_refl. reflexivity.
Qed.

(** X18. After a day check the record is dated today, and a second
    check on the same day changes nothing and writes nothing: a change
    of day is written once. *)
Theorem day_check_once (e e' : Env) (w : World) :
  date (state (ensureToday e w)) = todayKey e /\
  (todayKey e' = todayKey e ->
   ensureToday e' (ensureToday e w) = ensureToday e w).
Proof.
  assert (H : date (state (ensureToday e w)) = todayKey e).
  { unfold ensureToday. destruct (String.eqb _ _) eqn:E; [|reflexivity].
    apply String.eqb_eq, E. }
  split; [exact H|]. intros He.
  unfold ensureToday at 1. rewrite H, He, String.eqb_refl. reflexivity.
Qed.

(** X19. The save timeout runs once: when it is due it writes the
    current record, one write, and clears the pending save, so that no
    later moment makes it run again; before it is due nothing happens.
    In both cases no save is left overdue. *)
Theorem save_timeout_once (e e' : Env) (w : World) :
  (saved (fire_due e w) = saved w \/ saved (fire_due e w) = saved w ++ [state w]) /\
  (forall d, saveSource (fire_due e w) = Some d -> now e < d) /\
  fire_due e (fire_due e w) = fire_due e w /\
  (forall d, saveSource w = Some d -> d <= now e ->
             saved (fire_due e w) = saved w ++ [state w] /\
             saveSource (fire_due e w) = None /\
             fire_due e' (fire_due e w) = fire_due e w) /\
  (forall d, saveSource w = Some d -> now e < d -> fire_due e w = w).
Proof.
  unfold fire_due.
  destruct (saveSource w) as [d0|] eqn:E.
  - destruct (d0 <=? now e) eqn:El.
    + apply Z.leb_le in El. simpl.
      repeat split; intros; simplify_eq; auto; lia.
    + rewrite E, El. apply Z.leb_gt in El.
      repeat split; intros; simplify_eq; auto; lia.
  - rewrite E. repeat split; intros; simplify_eq; auto.
Qed.

(** *** Trimming *)

Section SkipChars.
Variable p1 : ascii -> bool.
Variable p2 : ascii -> ascii -> bool.
Variable p3 : ascii -> ascii -> ascii -> bool.

(** One step of [skip_chars]: nothing is skipped, or a character of one,
    two or three bytes is and the rest is gone through. *)
Lemma skip_chars_step l :
  skip_chars p1 p2 p3 l = l \/
  exists pre l', l = pre ++ l' /\ (length l' < length l)%nat /\
                 skip_chars p1 p2 p3 l = skip_chars p1 p2 p3 l'.
Proof.
  destruct l as [|a [|b [|c r]]]; simpl.
  - left. reflexivity.
  - destruct (p1 a); [|left; reflexivity].
    right. exists [a], []. simpl. repeat split. lia.
  - destruct (p1 a).
    { right. exists [a], [b]. simpl. repeat split. lia. }
    destruct (p2 a b); [|left; reflexivity].
    right. exists [a; b], []. simpl. repeat split. lia.
  - destruct (p1 a).
    { right. exists [a], (b :: c :: r). simpl. repeat split. lia. }
    destruct (p2 a b).
    { right. exists [a; b], (c :: r). simpl. repeat split. lia. }
    destruct (p3 a b c); [|left; reflexivity].
    right. exists [a; b; c], r. simpl. repeat split. lia.
Qed.

Lemma skip_chars_suffix l : exists pre, l = pre ++ skip_chars p1 p2 p3 l.
Proof.
  induction l as [l IH] using (induction_ltof1 _ (@length ascii)). unfold ltof in IH.
  destruct (skip_chars_step l) as [->|(pre & l' & Hl & Hlen & ->)];
    [exists []; reflexivity|].
  destruct (IH l' Hlen) as [pre' Hpre']. exists (pre ++ pre').
  rewrite <- app_assoc, <- Hpre'. exact Hl.
Qed.

Lemma skip_chars_length l : (length (skip_chars p1 p2 p3 l) <= length l)%nat.
Proof.
  destruct (skip_chars_suffix l) as [pre H].
  rewrite H at 2. rewrite length_app. lia.
Qed.

Lemma skip_chars_idem l :
  skip_chars p1 p2 p3 (skip_chars p1 p2 p3 l) = skip_chars p1 p2 p3 l.
Proof.
  induction l as [l IH] using (induction_ltof1 _ (@length ascii)). unfold ltof in IH.
  destruct (skip_chars_step l) as [H|(pre & l' & Hl & Hlen & H)]; rewrite H.
  - exact H.
  - apply IH, Hlen.
Qed.

Lemma skip_chars_1 a t :
  p1 a = true -> skip_chars p1 p2 p3 (a :: t) = skip_chars p1 p2 p3 t.
Proof. intros H. simpl. rewrite H. reflexivity. Qed.

Lemma skip_chars_2 a b t :
  p1 a = false -> p2 a b = true ->
  skip_chars p1 p2 p3 (a :: b :: t) = skip_chars p1 p2 p3 t.
Proof. intros H1 H2. simpl. rewrite H1, H2. reflexivity. Qed.

Lemma skip_chars_3 a b c t :
  p1 a = false -> p2 a b = false -> p3 a b c = true ->
  skip_chars p1 p2 p3 (a :: b :: c :: t) = skip_chars p1 p2 p3 t.
Proof. intros H1 H2 H3. simpl. rewrite H1, H2, H3. reflexivity. Qed.

(** A text with nothing to skip at its head has no shorter head with
    something to skip. *)
Lemma skip_chars_fixed_app a b :
  skip_chars p1 p2 p3 (a ++ b) = a ++ b -> skip_chars p1 p2 p3 a = a.
Proof.
  assert (Hs : forall x y, (length x < length y)%nat -> skip_chars p1 p2 p3 x <> y).
  { intros x y Hlen H. pose proof (skip_chars_length x) as Hl. rewrite H in Hl. lia. }
  destruct a as [|c [|d [|f r]]]; [reflexivity| | |]; intros H; cbn [app] in H;
    destruct (p1 c) eqn:E1;
    try (rewrite (skip_chars_1 _ _ E1) in H; apply Hs in H;
         [contradiction | simpl; rewrite ?length_app; lia]).
  - simpl. rewrite E1. reflexivity.
  - destruct (p2 c d) eqn:E2.
    + rewrite (skip_chars_2 _ _ _ E1 E2) in H. apply Hs in H; [contradiction|simpl; lia].
    + simpl. rewrite E1, E2. reflexivity.
  - destruct (p2 c d) eqn:E2.
    { rewrite (skip_chars_2 _ _ _ E1 E2) in H.
      apply Hs in H; [contradiction | simpl; rewrite ?length_app; lia]. }
    destruct (p3 c d f) eqn:E3.
    + rewrite (skip_chars_3 _ _ _ _ E1 E2 E3) in H.
      apply Hs in H; [contradiction | simpl; rewrite ?length_app; lia].
    + simpl. rewrite E1, E2, E3. reflexivity.
Qed.
End SkipChars.

(** What [trim] returns has no white space left at either end. *)
Lemma trim_chars_idem l : trim_chars (trim_chars l) = trim_chars l.
Proof.
  unfold trim_chars.
  set (x := skip_space l). set (y := skip_space_back (rev x)).
  assert (Hx : skip_space x = x) by apply skip_chars_idem.
  assert (Hy : skip_space_back y = y) by apply skip_chars_idem.
  assert (Hr : skip_space (rev y) = rev y).
  { destruct (skip_chars_suffix is_space (fun a b => is_space2 b a)
                (fun a b c => is_space3 c b a) (rev x)) as [pre Hpre].
    fold skip_space_back in Hpre. fold y in Hpre.
    assert (Hxe : x = rev y ++ rev pre)
      by (rewrite <- rev_app_distr, <- Hpre, rev_involutive; reflexivity).
    rewrite Hxe in Hx. apply (skip_chars_fixed_app _ _ _ _ _ Hx). }
  rewrite Hr, rev_involutive, Hy. reflexivity.
Qed.

Lemma trim_idem s : trim (trim s) = trim s.
Proof.
  unfold trim, chars, str. rewrite list_ascii_of_string_of_list_ascii.
  fold (trim_chars (trim_chars (list_ascii_of_string s))).
  rewrite trim_chars_idem. reflexivity.
Qed.

(** X20. The handler reads a line through [trim] only, and trimming
    twice is trimming once: what the stream callback does with a raw
    line (trim it, drop it when empty, hand it to the handler) is what
    the handler does with the raw line itself. *)
Theorem readLine_is_onLine (e : Env) (line : string) (w : World) :
  trim (trim line) = trim line /\
  onLine e (trim line) w = onLine e line w /\
  readLine e line w = onLine e line w.
Proof.
  assert (H : onLine e (trim line) w = onLine e line w)
    by (unfold onLine; rewrite trim_idem; reflexivity).
  split; [apply trim_idem|]. split; [exact H|].
  unfold readLine. destruct (String.eqb (trim line) "") eqn:E; [|exact H].
  unfold onLine. cbv zeta. rewrite E. reflexivity.
Qed.

(** *** Taps and holds *)

(** X23. A tap and a hold each count exactly one click, under the
    touchpad whatever the registry says of the device, and touch neither
    the registry nor the press flags. *)
Theorem taps_and_holds_are_pad_clicks (e : Env) (text : string) (w : World) :
  (tap_line text = true ->
   onLine e text w =
   bumpClick e (if fingerTest "2" text || fingerTest "3" text then Right else Left)
     FromTouchpad w) /\
  (hold_line text = true ->
   exists side, onLine e text w = bumpClick e side FromTouchpad w) /\
  (tap_line text = true \/ hold_line text = true ->
   deviceTypes (onLine e text w) = deviceTypes w /\
   pressedByEvent (onLine e text w) = pressedByEvent w /\
   leftMouse (state (onLine e text w)) = leftMouse (state w) /\
   rightMouse (state (onLine e text w)) = rightMouse (state w)).
Proof.
  assert (Ht : tap_line text = true ->
               onLine e text w =
               bumpClick e (if fingerTest "2" text || fingerTest "3" text
                            then Right else Left) FromTouchpad w).
  { unfold tap_line. intros H. split_andb.
    rewrite onLine_textual by assumption.
    repeat match goal with H : _ = false |- _ => rewrite H end.
    match goal with H : isTap text = true |- _ => rewrite H end.
    reflexivity. }
  assert (Hh : hold_line text = true ->
               exists side, onLine e text w = bumpClick e side FromTouchpad w).
  { unfold hold_line. intros H. split_andb.
    rewrite onLine_textual by assumption.
    repeat match goal with H : _ = false |- _ => rewrite H end.
    match goal with H : isHold text = true |- _ => rewrite H end.
    unfold when, onHold. eexists. reflexivity. }
  split; [exact Ht|]. split; [exact Hh|].
  intros H.
  assert (Hs : exists side, onLine e text w = bumpClick e side FromTouchpad w)
    by (destruct H as [H|H]; [eexists; apply Ht, H | apply Hh, H]).
  destruct Hs as [side ->]. unfold bumpClick.
  rewrite deviceTypes_queueSave, pressedByEvent_queueSave, state_queueSave.
  simpl. destruct side;
    [rewrite click_next_left_pad | rewrite click_next_right_pad]; repeat split.
Qed.

(** *** Classifying a device *)

Lemma after_lower pat l :
  map lower pat = pat ->
  match after eqb_cs pat (map lower l) with Some _ => true | None => false end =
  match after eqb_ci pat l with Some _ => true | None => false end.
Proof.
  revert l. induction pat as [|p pat IH]; intros l Hp; [reflexivity|].
  injection Hp as Hp1 Hp2. destruct l as [|c l]; [reflexivity|]. simpl.
  unfold eqb_ci. rewrite Hp1. fold (eqb_cs p (lower c)).
  destruct (eqb_cs p (lower c)); [apply IH, Hp2 | reflexivity].
Qed.

Lemma search_lower pat l :
  map lower pat = pat ->
  forall prev prev',
    match search_from (fun _ x => after eqb_cs pat x) prev (map lower l) with
    | Some _ => true | None => false end =
    match search_from (fun _ x => after eqb_ci pat x) prev' l with
    | Some _ => true | None => false end.
Proof.
  intros Hp. induction l as [|c l IH]; intros prev prev'.
  - simpl. pose proof (after_lower pat [] Hp) as H. simpl in H.
    destruct (after eqb_cs pat []), (after eqb_ci pat []); auto.
  - simpl. pose proof (after_lower pat (c :: l) Hp) as H. simpl in H.
    destruct (after eqb_cs pat (lower c :: map lower l)),
      (after eqb_ci pat (c :: l)); try discriminate; auto.
Qed.

(** On a text of ASCII characters [toLowerCase] works character by
    character. *)
Lemma lower_chars_ascii l :
  Forall (fun c => (code c < 128)%N) l -> lower_chars l = map lower l.
Proof.
  induction l as [|c t IH]; intros H; [reflexivity|].
  apply Forall_cons_1 in H as [Hc Ht]. specialize (IH Ht).
  assert (H196 : (code c =? 196)%N = false) by (apply N.eqb_neq; lia).
  assert (H226 : (code c =? 226)%N = false) by (apply N.eqb_neq; lia).
  destruct t as [|c2 [|c3 t3]].
  - reflexivity.
  - cbn [lower_chars map] in *. rewrite H196. reflexivity.
  - change (lower_chars (c :: c2 :: c3 :: t3)) with
      (if (code c =? 196)%N && (code c2 =? 176)%N
       then "i"%char :: ascii_of_N 204 :: ascii_of_N 135 :: lower_chars (c3 :: t3)
       else if (code c =? 226)%N && (code c2 =? 132)%N && (code c3 =? 170)%N
            then "k"%char :: lower_chars t3
            else lower c :: lower_chars (c2 :: c3 :: t3)).
    rewrite H196, H226. cbn [andb]. rewrite IH. reflexivity.
Qed.

Lemma lower_ascii c : (code c < 128)%N -> (code (lower c) < 128)%N.
Proof.
  unfold lower. destruct (is_upper c) eqn:E; [|trivial]. intros _.
  unfold is_upper, between in E. apply andb_prop in E as [_ E]. apply N.leb_le in E.
  unfold code in *. rewrite N_ascii_embedding by lia. lia.
Qed.

Lemma toLowerCase_ascii text :
  ascii_text text ->
  toLowerCase text = str (map lower (chars text)) /\ ascii_text (toLowerCase text).
Proof.
  intros H. unfold toLowerCase. rewrite (lower_chars_ascii _ H).
  split; [reflexivity|].
  unfold ascii_text, chars, str. rewrite list_ascii_of_string_of_list_ascii.
  apply Forall_fmap. eapply Forall_impl; [exact H|]. intros c. apply lower_ascii.
Qed.

Lemma includes_lower pat text :
  lower_case pat -> ascii_text text ->
  includes pat (toLowerCase text) = test_ci pat text.
Proof.
  intros Hp Ha. destruct (toLowerCase_ascii text Ha) as [-> _].
  unfold includes, test_ci, search, chars, str.
  rewrite list_ascii_of_string_of_list_ascii. apply search_lower, Hp.
Qed.

(** X24. On a text of ASCII characters [classifyDevice] does not look
    at letter case: it classifies by the case-insensitive searches the
    handler uses for its patterns, [touchpad] or [trackpad] first, then
    [keyboard], then [mouse], [trackball] or [trackpoint]; a text with
    none of the six words is an unknown device. *)
Theorem classifyDevice_ignores_case (text : string) :
  ascii_text text ->
  classifyDevice text =
  (if test_ci "touchpad" text || test_ci "trackpad" text then Touchpad
   else if test_ci "keyboard" text then Keyboard
   else if test_ci "mouse" text || test_ci "trackball" text
           || test_ci "trackpoint" text then Mouse
   else Unknown) /\
  classifyDevice (toLowerCase text) = classifyDevice text.
Proof.
  intros Ha.
  assert (H : forall t,
             ascii_text t ->
             classifyDevice t =
             (if test_ci "touchpad" t || test_ci "trackpad" t then Touchpad
              else if test_ci "keyboard" t then Keyboard
              else if test_ci "mouse" t || test_ci "trackball" t
                      || test_ci "trackpoint" t then Mouse
              else Unknown)).
  { intros t Ht. unfold classifyDevice. cbv zeta.
    rewrite !(includes_lower _ t) by (reflexivity || exact Ht). reflexivity. }
  split; [apply H, Ha|].
  destruct (toLowerCase_ascii text Ha) as [Hl Hal].
  assert (Hll : forall c, lower (lower c) = lower c).
  { intros c. destruct c as [[] [] [] [] [] [] [] []]; reflexivity. }
  assert (Ht : toLowerCase (toLowerCase text) = toLowerCase text).
  { destruct (toLowerCase_ascii _ Hal) as [-> _]. rewrite Hl.
    unfold chars, str. rewrite list_ascii_of_string_of_list_ascii.
    rewrite map_map. f_equal. apply map_ext. exact Hll. }
  unfold classifyDevice. cbv zeta. rewrite Ht. reflexivity.
Qed.

(** *** Bursts *)



(** *** What reaches the state file *)

Lemma written_dispatch e ev w :
  sound (state w) /\ Forall sound (saved w) ->
  sound (state (dispatch e ev w)) /\ Forall sound (saved (dispatch e ev w)).
Proof.
  intros [Hv Hs]. unfold dispatch.
  assert (Hf : sound (state (fire_due e w)) /\ Forall sound (saved (fire_due e w))).
  { rewrite state_fire_due. split; [exact Hv|].
    unfold fire_due. destruct (saveSource w) as [d|]; [|exact Hs].
    destruct (d <=? now e); [|exact Hs].
    simpl. apply Forall_app. split; [exact Hs | constructor; [exact Hv | constructor]]. }
  destruct Hf as [Hfv Hfs]. destruct ev as [line|].
  - unfold readLine. destruct (String.eqb (trim line) ""); [auto|].
    destruct (onLine_frame e (trim line) (fire_due e w)) as [-> _].
    split; [|exact Hfs].
    apply (onLine_state_inv sound); auto using sound_new_day.
    intros op s Hop. apply sound_next_of, Hop.
  - unfold ensureToday. destruct (String.eqb _ _); [auto|]. simpl.
    split; [apply sound_new_day|].
    apply Forall_app.
    split; [exact Hfs | constructor; [apply sound_new_day | constructor]].
Qed.

(** X21. Only sound records are given to [saveState]: when the record in
    memory is sound and the records written so far are, every record
    written along any sequence of events is sound, and it is a valid
    record, with [keys] the sum of its key counts, unless one of its
    totals has reached [MAX_COUNT] or one of its amounts is infinite. *)
Theorem written_records_valid (evs : list (Env * Event)) (w : World) :
  sound (state w) -> Forall sound (saved w) ->
  Forall (fun s => sound s /\ (in_range s -> valid s /\ keys_inv s))
    (saved (process evs w)).
Proof.
  intros Hv Hs.
  assert (H : sound (state (process evs w)) /\ Forall sound (saved (process evs w))).
  { revert w Hv Hs. induction evs as [|[e ev] evs IH]; intros w Hv Hs; [auto|].
    simpl. destruct (written_dispatch e ev w (conj Hv Hs)) as [Hv' Hs'].
    apply IH; assumption. }
  destruct H as [_ H]. eapply Forall_impl; [exact H|].
  intros s Hsound. split; [exact Hsound | apply sound_valid, Hsound].
Qed.

(** *** Key counts of unexpected shapes *)

Lemma in_entries_array (l : list value) k v :
  In (k, v) (entries (VArr l)) <-> exists i : nat, k = pretty i /\ l !! i = Some v.
Proof.
  simpl. rewrite <- list_elem_of_In, list_elem_of_lookup. split.
  - intros [i Hi]. apply lookup_zip_with_Some in Hi as [x [y [[= -> ->] [Hx Hy]]]].
    apply list_lookup_fmap_Some in Hx as [j [-> Hj]].
    apply lookup_seq in Hj as [-> _]. exists i. auto.
  - intros [i [-> Hi]]. exists i. apply lookup_zip_with_Some.
    exists (pretty i), v. split; [reflexivity|]. split; [|exact Hi].
    rewrite list_lookup_fmap, lookup_seq_lt; [reflexivity|].
    apply lookup_lt_Some in Hi. exact Hi.
Qed.

(** The index of an element of an array is never [__proto__]. *)
Lemma digits_not_underscore (x : N) s s' :
  s <> "_" +:+ s' -> pretty.pretty_N_go x s <> "_" +:+ s'.
Proof.
  revert s. induction (N.lt_wf_0 x) as [x _ IH]. intros s Hs.
  destruct (N.eq_dec x 0%N) as [->|Hx]; [rewrite pretty.pretty_N_go_0; exact Hs|].
  rewrite pretty.pretty_N_go_step by lia. apply IH; [apply N.div_lt; lia|].
  unfold pretty.pretty_N_char. repeat case_match; discriminate.
Qed.

Lemma index_not_proto (i : nat) : pretty i <> "__proto__".
Proof.
  unfold pretty, pretty.pretty_nat, pretty, pretty.pretty_N.
  destruct (decide (N.of_nat i = 0%N)); [discriminate|].
  apply (digits_not_underscore _ "" "_proto__"). discriminate.
Qed.

Lemma throws_entries_array (l : list value) :
  existsb (fun entry => throws entry.2) (entries (VArr l)) = existsb throws l.
Proof.
  simpl. generalize 0%nat. induction l as [|x l IH]; intros start; [reflexivity|].
  simpl. rewrite IH. reflexivity.
Qed.

(** X22. A stored [keyCounts] that is no object (missing, null, a
    boolean, a number, a string) is loaded as no key count at all; one
    that is an array is loaded by index: when [Number] throws on no
    element, the key of an element is its index in decimal, and it is
    kept when its [Number] is finite and greater than 0; when [Number]
    throws on an element, the loader throws. *)
Theorem key_counts_of_other_shapes (v : value) (l : list value) :
  (truthy v = false \/ is_object v = false -> normalizeKeyCounts v = Some ∅) /\
  (existsb throws l = true -> normalizeKeyCounts (VArr l) = None) /\
  (existsb throws l = false ->
   exists out,
     normalizeKeyCounts (VArr l) = Some out /\
     forall k n,
       out !! k = Some n <->
       exists (i : nat) x,
         k = pretty i /\ l !! i = Some x /\
         Number_ x = Some n /\ isFinite n = true /\ gtb n zero = true).
Proof.
  split; [|split].
  - intros H. unfold normalizeKeyCounts.
    destruct H as [-> | ->]; [reflexivity|]. simpl. rewrite orb_true_r. reflexivity.
  - intros H. apply normalizeKeyCounts_throws. rewrite throws_entries_array. exact H.
  - intros H. rewrite <- throws_entries_array in H.
    destruct (normalizeKeyCounts_returns _ H) as [out [Hout Hlk]].
    exists out. split; [exact Hout|]. intros k n. rewrite Hlk. split.
    + intros [_ [x [Hin Hx]]]. apply in_entries_array in Hin as [i [-> Hi]].
      exists i, x. split; [reflexivity|]. split; [exact Hi|].
      apply toNumber_positive, Hx.
    + intros [i [x [-> [Hi Hx]]]]. split; [apply index_not_proto|]. exists x.
      split; [apply in_entries_array; eauto | apply toNumber_positive, Hx].
Qed.

End EdgeFacts.

(** ** The further properties on the sample inputs *)

Module MoreSamples.
Import Chars Num Json Store Handler Loop Props Invariants NumFacts StoreFacts
  LoadFacts HandlerFacts FrameFacts EdgeFacts.

Lemma sound_world0 : sound (state world0).
Proof. exact (sound_new_day env0). Qed.

Lemma in_range_sample : in_range (state (process sample_events world0)).
Proof.
  repeat split; try (intros H; vm_compute in H; discriminate H);
    vm_compute; reflexivity.
Qed.

Lemma X1_witness :
  sound (state world0) /\ in_range (state (process sample_events world0)) /\
  valid (state (process sample_events world0)).
Proof.
  split; [exact sound_world0|]. split; [exact in_range_sample|].
  destruct (process_keeps_valid sample_events world0 sound_world0) as [_ H].
  apply H, in_range_sample.
Defined.

Lemma X2_witness :
  keys_sound (state world0) /\
  keys (state (process sample_lines world0)) = of_Z 1 /\
  keys_inv (state (process sample_lines world0)).
Proof.
  assert (H : keys_sound (state world0)) by exact (keys_sound_new_day env0).
  assert (Hk : keys (state (process sample_lines world0)) = of_Z 1)
    by (vm_compute; reflexivity).
  split; [exact H|]. split; [exact Hk|].
  destruct (process_keeps_key_totals sample_lines world0 H) as [_ Hi].
  apply Hi. rewrite Hk. intros E. vm_compute in E. discriminate E.
Defined.

Lemma X3_witness :
  keys_prefixed (state world0) /\
  keys_prefixed (state (process sample_events world0)).
Proof.
  assert (H : keys_prefixed (state world0)).
  { intros k v Hk. simpl in Hk. rewrite lookup_empty in Hk. discriminate. }
  split; [exact H | apply (process_keeps_key_names sample_events world0 H)].
Defined.

Lemma X4_witness :
  saved (onLine env0 press5 world0) = saved world0 /\
  date (state (onLine env0 press5 world0)) = date (state world0).
Proof.
  destruct (onLine_keeps_file_and_day env0 press5 world0) as [H1 [H2 _]].
  split; assumption.
Defined.

Lemma X5_witness :
  saveSource world0 = None /\
  ((saveSource (onLine env0 press5 world0) = None /\
    state (onLine env0 press5 world0) = state world0) \/
   saveSource (onLine env0 press5 world0) = Some (now env0 + SAVE_DELAY_MS)).
Proof.
  split; [reflexivity|]. exact (onLine_arms_save env0 press5 world0).
Defined.

Lemma X6_witness :
  sound (state world0) /\
  counts_le (state world0) (state (onLine env0 press5 world0)) /\
  scrolls_le (state world0) (state (onLine env0 press5 world0)).
Proof.
  split; [exact sound_world0|].
  destruct (onLine_counters_grow env0 press5 world0 sound_world0) as [_ [Hle [_ Hs]]].
  split; [exact Hle | exact Hs].
Defined.

Lemma X7_witness :
  saveSource (process sample_events world0) = None /\
  (state (process sample_events world0) = loadState env0 ReadFails \/
   last (saved (process sample_events world0)) =
   Some (state (process sample_events world0))).
Proof.
  assert (H : saveSource (process sample_events world0) = None)
    by (vm_compute; reflexivity).
  split; [exact H|].
  exact (process_synced env0 ReadFails sample_events H).
Defined.

Lemma X8_witness :
  chronological (now env0) sample_lines /\
  saveSource (process sample_lines world0) = Some (now env0 + SAVE_DELAY_MS) /\
  due_after (last_time (now env0) sample_lines) (process sample_lines world0).
Proof.
  assert (Hc : chronological (now env0) sample_lines) by (simpl; lia).
  assert (Hd : due_by (now env0) world0) by (intros d Hd; discriminate Hd).
  split; [exact Hc|]. split; [vm_compute; reflexivity|].
  apply (process_save_due (now env0) sample_lines world0 Hc Hd). discriminate.
Defined.

Lemma X9_witness :
  unread_line tablet4 = true /\
  onLine env0 tablet4 world0 = world0 /\
  onLine env0 key_released_json world0 = world0.
Proof.
  assert (H : unread_line tablet4 = true) by (vm_compute; reflexivity).
  destruct (ignored_lines env0 world0) as [_ [_ [Hj Hu]]].
  split; [exact H|]. split; [apply Hu, H|].
  apply (Hj key_released_json (parsed key_released_json)); vm_compute; reflexivity.
Defined.

Lemma X10_witness :
  left_press_line press5 = true /\ left_released release5 = true /\
  state (onLine env_1500 release5 (onLine env0 press5 world0)) =
  click_next Left FromMouse (state world0).
Proof.
  assert (H1 : left_press_line press5 = true) by (vm_compute; reflexivity).
  assert (H2 : left_released release5 = true) by (vm_compute; reflexivity).
  split; [exact H1|]. split; [exact H2|].
  destruct (press_then_release_once env0 env_1500 press5 release5 world0 H1 H2 eq_refl)
    as [H _].
  exact H.
Defined.

Lemma X11_witness :
  left_press_line press5 = true /\ right_press_line right_press5 = true /\
  right_release_line right_release5 = true /\ left_released release5 = true /\
  state (onLine env_2000 release5
           (onLine env_1500 right_release5
              (onLine env0 right_press5 (onLine env0 press5 world0)))) =
  click_next Right FromMouse (click_next Left FromMouse (state world0)).
Proof.
  assert (H1 : left_press_line press5 = true) by (vm_compute; reflexivity).
  assert (H2 : right_press_line right_press5 = true) by (vm_compute; reflexivity).
  assert (H3 : right_release_line right_release5 = true) by (vm_compute; reflexivity).
  assert (H4 : left_released release5 = true) by (vm_compute; reflexivity).
  repeat (split; [assumption|]).
  destruct (buttons_interleaved env0 env0 env_1500 env_2000
              press5 right_press5 right_release5 release5 world0
              H1 H2 H3 H4 eq_refl eq_refl eq_refl) as [H _].
  exact H.
Defined.

Lemma X12_witness :
  textual added7 = true /\ textual removed7 = true /\
  deviceTypes world0 !! eventId added7 = None /\
  onLine env_1500 removed7 (onLine env0 added7 world0) = world0.
Proof.
  assert (T1 : textual added7 = true) by (vm_compute; reflexivity).
  assert (T2 : textual removed7 = true) by (vm_compute; reflexivity).
  assert (Hd : deviceTypes world0 !! eventId added7 = None) by (vm_compute; reflexivity).
  split; [exact T1|]. split; [exact T2|]. split; [exact Hd|].
  assert (A1 : test_ci "DEVICE_ADDED" added7 = true) by (vm_compute; reflexivity).
  assert (A2 : test_ci "DEVICE_ADDED" removed7 = false) by (vm_compute; reflexivity).
  assert (R2 : test_ci "DEVICE_REMOVED" removed7 = true) by (vm_compute; reflexivity).
  assert (Hp : pressedByEvent world0 !! eventId added7 = None)
    by (vm_compute; reflexivity).
  destruct (added_then_removed env0 env_1500 added7 removed7 world0
              T1 A1 T2 A2 R2 eq_refl) as [_ [_ H]].
  exact (H Hd Hp).
Defined.

Lemma X13_witness :
  textual added7 = true /\ left_press_line press7 = true /\
  state (onLine env_1500 press7 (onLine env0 added7 world0)) =
  click_next Left FromTouchpad (state world0).
Proof.
  assert (T1 : textual added7 = true) by (vm_compute; reflexivity).
  assert (H2 : left_press_line press7 = true) by (vm_compute; reflexivity).
  split; [exact T1|]. split; [exact H2|].
  assert (A1 : test_ci "DEVICE_ADDED" added7 = true) by (vm_compute; reflexivity).
  rewrite (click_source_follows_device env0 env_1500 added7 press7 world0
             T1 A1 H2 eq_refl).
  replace (classifyDevice added7) with Touchpad by (vm_compute; reflexivity).
  reflexivity.
Defined.

Lemma X14_witness :
  other_button_line middle5 = true /\
  state (onLine env0 middle5 world0) = state world0 /\
  saveSource (onLine env0 middle5 world0) = None.
Proof.
  assert (H : other_button_line middle5 = true) by (vm_compute; reflexivity).
  split; [exact H|].
  rewrite (other_button_counts_nothing env0 middle5 world0 H).
  split; reflexivity.
Defined.

Lemma X15_witness :
  startsWith "{" (trim key_pressed_json) = true /\
  (onLine env0 key_pressed_json world0 = world0 \/
   (exists side, onLine env0 key_pressed_json world0 =
                 bumpClick env0 side FromMouse world0) \/
   (exists k, key_name_ok k /\
              onLine env0 key_pressed_json world0 = bumpKey env0 k world0)).
Proof.
  assert (H : startsWith "{" (trim key_pressed_json) = true)
    by (vm_compute; reflexivity).
  split; [exact H|].
  exact (json_line_one_effect env0 key_pressed_json world0 H).
Defined.

Lemma X16_witness :
  nonzero (Some zero) = false /\
  bumpScroll env0 (Some zero) None world0 = world0.
Proof.
  split; [reflexivity|].
  destruct (scroll_axes env0 (Some zero) None world0) as [_ [_ [H _]]].
  apply H; reflexivity.
Defined.

Lemma X17_witness :
  0 < now env0 /\
  date (loadState env0 (ReadOk stored0)) = todayKey env0 /\
  gtb (startedAt (loadState env0 (ReadOk stored0))) zero = true.
Proof.
  assert (H : 0 < now env0) by (simpl; lia).
  destruct (loaded_record_is_of_today env0 (ReadOk stored0)) as [Hd [_ [Hs _]]].
  split; [exact H|]. split; [exact Hd | apply Hs, H].
Defined.

Lemma X18_witness :
  saved (ensureToday env_next_day world0) = [fresh env_next_day] /\
  ensureToday env_next_day (ensureToday env_next_day world0) =
  ensureToday env_next_day world0.
Proof.
  split; [reflexivity|].
  destruct (day_check_once env_next_day env_next_day world0) as [_ Hc].
  exact (Hc eq_refl).
Defined.

Lemma X19_witness :
  saveSource (onLine env0 press5 world0) = Some (now env0 + SAVE_DELAY_MS) /\
  now env0 + SAVE_DELAY_MS <= now env_2000 /\
  saved (fire_due env_2000 (onLine env0 press5 world0)) =
  [click_next Left FromMouse (state world0)].
Proof.
  assert (H : saveSource (onLine env0 press5 world0) = Some (now env0 + SAVE_DELAY_MS))
    by (vm_compute; reflexivity).
  assert (Hle : now env0 + SAVE_DELAY_MS <= now env_2000)
    by (simpl; unfold SAVE_DELAY_MS; lia).
  split; [exact H|]. split; [exact Hle|].
  destruct (save_timeout_once env_2000 env_2000 (onLine env0 press5 world0))
    as [_ [_ [_ [Hd _]]]].
  destruct (Hd _ H Hle) as [Hs _]. rewrite Hs. vm_compute. reflexivity.
Defined.

Lemma X20_witness : readLine env0 press5 world0 = onLine env0 press5 world0.
Proof.
  destruct (readLine_is_onLine env0 press5 world0) as [_ [_ H]]. exact H.
Defined.

Lemma X21_witness :
  sound (state world0) /\ Forall sound (saved world0) /\
  Forall (fun s => sound s /\ (in_range s -> valid s /\ keys_inv s))
    (saved (process sample_events world0)).
Proof.
  assert (Hs : Forall sound (saved world0)) by constructor.
  split; [exact sound_world0|]. split; [exact Hs|].
  apply (written_records_valid sample_events world0 sound_world0 Hs).
Defined.

Lemma X23_witness :
  tap_line tap5 = true /\
  source_for (onLine env0 added_mouse5 world0) "5" = FromMouse /\
  onLine env_1500 tap5 (onLine env0 added_mouse5 world0) =
  bumpClick env_1500 Right FromTouchpad (onLine env0 added_mouse5 world0).
Proof.
  assert (H : tap_line tap5 = true) by (vm_compute; reflexivity).
  split; [exact H|]. split; [vm_compute; reflexivity|].
  destruct (taps_and_holds_are_pad_clicks env_1500 tap5
              (onLine env0 added_mouse5 world0)) as [Ht _].
  rewrite (Ht H).
  replace (fingerTest "2" tap5 || fingerTest "3" tap5) with true
    by (vm_compute; reflexivity).
  reflexivity.
Defined.

Lemma X24_witness :
  ascii_text added_upper7 /\ classifyDevice added_upper7 = Touchpad.
Proof.
  assert (Ha : ascii_text added_upper7)
    by (unfold ascii_text; simpl; repeat constructor).
  split; [exact Ha|].
  destruct (classifyDevice_ignores_case added_upper7 Ha) as [H _].
  rewrite H. vm_compute. reflexivity.
Defined.

(** Outside ASCII the two searches differ: the Kelvin sign is lowered to
    a k by [toLowerCase], and is no K for a pattern. *)
Example kelvin_sign_is_lowered :
  classifyDevice added_kelvin7 = Touchpad /\
  test_ci "trackpad" added_kelvin7 = false /\
  test_ci "touchpad" added_kelvin7 = false.
Proof. vm_compute. repeat split. Qed.


Lemma X22_witness :
  is_object (VStr "KEY_A") = false /\ normalizeKeyCounts (VStr "KEY_A") = Some ∅.
Proof.
  split; [reflexivity|].
  destruct (key_counts_of_other_shapes (VStr "KEY_A") []) as [H _].
  apply H. right. reflexivity.
Defined.

(** A stored record of today with a counter that has a [toString] of
    its own is not loaded: the module starts from the default record. *)
Example poisoned_record_dropped :
  dated_today env0 (parsed stored_poisoned) = true /\
  poisoned (parsed stored_poisoned) = true /\
  Number_ (get (parsed stored_poisoned) "left") = None /\
  loadState env0 (ReadOk stored_poisoned) = defaultState env0.
Proof. vm_compute. repeat split. Qed.

(** Numbers as binary64 has them: a literal is rounded, a sum is
    rounded, a number is printed with the fewest digits that read back
    as itself. *)
Example binary64_samples :
  of_string "272.00000000000000001" = of_Z 272 /\
  add (of_Z (2 ^ 53)) one = of_Z (2 ^ 53) /\
  add (of_string "1e308") (of_string "1e308") = PInf /\
  to_string (add (of_string "0.1") (of_string "0.2")) = "0.30000000000000004" /\
  to_string (of_string "1e21") = "1e+21" /\
  to_string (of_string "0.000001") = "0.000001" /\
  to_string (of_string "1e-7") = "1e-7".
Proof. vm_compute. repeat split. Qed.

(** The scroll amounts are rounded sums: three scrolls of a tenth add up
    to 0.30000000000000004, and two scrolls of [10^308] to the
    infinity, where the amount stays. *)
Example scroll_amounts_rounded :
  to_string (scrollUp (state (onLine env0 scroll_tenth
                                (onLine env0 scroll_tenth
                                   (onLine env0 scroll_tenth world0))))) =
  "0.30000000000000004" /\
  to_string (scrollUp (state (onLine env0 scroll_huge world0))) = "1e+308" /\
  scrollUp (state (onLine env0 scroll_huge (onLine env0 scroll_huge world0))) = PInf /\
  scrollUp (state (onLine env0 scroll_tenth
                     (onLine env0 scroll_huge (onLine env0 scroll_huge world0)))) = PInf.
Proof. vm_compute. repeat split. Qed.

End MoreSamples.
